(** * oclutils: device discovery, preference ordering and lock files

    A shallow embedding of the discovery and reservation logic of
    [OclUtils.cpp]: lock-file naming, the [flock]-based reservation
    protocol, the device preference comparator and the sort that uses it,
    the context-acquisition fallback loop of
    [OpenCL_devices_list::Initialize], and the vendor classification and
    offset numbering of [OpenCL_platforms_list::Initialize].

    Conventions.
    - [std::string] is [string]; a [char] is an [ascii] (its value read as an
      unsigned byte; the C-locale [isalpha], [isdigit] and [tolower] give the
      same answer on the signed reading of a byte above 127).
    - [int] and [cl_int] values are [Z]; [to_int] writes out the conversion of
      an unsigned 32-bit value to [int].
    - Opaque API handles ([cl_platform_id], [cl_device_id], [cl_context]) are
      [Z], with [0] for [NULL].
    - The OpenCL runtime and the kernel's file locking are collaborators the
      code calls; they appear as an oracle record ([opencl_api]) and as a
      state ([os_state]) that the calls read and update.
    - A computation that may [abort()] lives in the monad [M]: it maps a
      [world] to an [outcome] that keeps the world at the point of the
      abort.
    - Members keep their names; where two classes share a member name
      ([id], [name], ...) the device's is prefixed with [d_] and the
      platform's with [p_]. *)

From Stdlib Require Import ZArith Lia List Ascii String DecimalString Bool Sorted.
From Stdlib Require Import OrderedTypeEx DecimalZ.
From stdpp Require Import base list strings gmap.

Open Scope Z_scope.

(** ** Characters and C strings *)

Module CString.

Definition char_code (c : ascii) : Z := Z.of_N (N_of_ascii c).

(** [isalpha] in the "C" locale. *)
Definition isalpha (c : ascii) : bool :=
  let n := char_code c in
  ((65 <=? n) && (n <=? 90)) || ((97 <=? n) && (n <=? 122)).

(** [isdigit]. *)
Definition isdigit (c : ascii) : bool :=
  let n := char_code c in (48 <=? n) && (n <=? 57).

Definition isupper (c : ascii) : bool :=
  let n := char_code c in (65 <=? n) && (n <=? 90).

(** [tolower] in the "C" locale. *)
Definition tolower (c : ascii) : ascii :=
  if isupper c then ascii_of_N (N_of_ascii c + 32) else c.

(** [std::transform(s.begin(), s.end(), s.begin(), f)]. *)
Fixpoint transform (f : ascii -> ascii) (s : string) : string :=
  match s with
  | EmptyString => EmptyString
  | String c s' => String (f c) (transform f s')
  end.

Definition NUL : ascii := Ascii.zero.

(** [s.c_str()] read as a C string: the characters before the first NUL. *)
Fixpoint c_str (s : string) : list ascii :=
  match s with
  | EmptyString => []
  | String c s' => if Ascii.eqb c NUL then [] else c :: c_str s'
  end.

(** [strlen] on a buffer: the number of characters before the first NUL
    (the buffer is terminated where the list ends). *)
Fixpoint strlen (t : list ascii) : nat :=
  match t with
  | [] => 0%nat
  | c :: t' => if Ascii.eqb c NUL then 0%nat else S (strlen t')
  end.

(** [s.find(pat) != std::string::npos] is decided by scanning the start
    positions from the left; [find] returns the first matching position,
    [None] standing for [npos]. *)
Fixpoint starts_with (pat s : string) : bool :=
  match pat, s with
  | EmptyString, _ => true
  | String _ _, EmptyString => false
  | String p pat', String c s' => Ascii.eqb p c && starts_with pat' s'
  end.

Fixpoint find_from (pos : nat) (s pat : string) : option nat :=
  if starts_with pat s then Some pos
  else match s with
       | EmptyString => None
       | String _ s' => find_from (S pos) s' pat
       end.

Definition find (s pat : string) : option nat := find_from 0 s pat.

(** [s.find(pat) != std::string::npos]. *)
Definition contains (s pat : string) : bool :=
  match find s pat with Some _ => true | None => false end.

(** Arguments of a [printf]-style call. *)
Inductive fmt_arg :=
| ArgInt (z : Z)
| ArgStr (s : string).

(** [%d] of an [int]. *)
Definition fmt_d (z : Z) : list ascii :=
  list_ascii_of_string (NilZero.string_of_int (Z.to_int z)).

(** The output of [sprintf] for the conversions the program uses ([%d] and
    [%s]); [None] when the format asks for an argument that is not there or
    has the wrong kind. *)
Fixpoint format (fmt : list ascii) (args : list fmt_arg) : option (list ascii) :=
  match fmt with
  | [] => Some []
  | "%"%char :: "d"%char :: fmt' =>
      match args with
      | ArgInt z :: args' => (fun r => fmt_d z ++ r) <$> format fmt' args'
      | _ => None
      end
  | "%"%char :: "s"%char :: fmt' =>
      match args with
      | ArgStr s :: args' => (fun r => c_str s ++ r) <$> format fmt' args'
      | _ => None
      end
  | c :: fmt' => (fun r => c :: r) <$> format fmt' args
  end.

(** [sprintf(t, fmt, ...)] into [char t[cap]]: the text and its
    terminating NUL must fit; otherwise the write runs past the array and
    the behaviour is undefined ([None]). *)
Definition sprintf (cap : nat) (fmt : string) (args : list fmt_arg)
  : option (list ascii) :=
  match format (list_ascii_of_string fmt) args with
  | Some out => if (length out <? cap)%nat then Some out else None
  | None => None
  end.

End CString.

(** ** Lock-file names *)

Module LockName.
Import CString.

Definition string_base : string := "Platform: %d  Device: %d (%s, %s)".

(** The loop [for (i = 0; i < len; i++) if (!isalpha(t[i]) && !isdigit(t[i])) t[i] = '_';]
    run for [n] more iterations from index [i]. *)
Fixpoint replace_loop (n : nat) (i : nat) (t : list ascii) : list ascii :=
  match n with
  | O => t
  | S n' =>
      match t !! i with
      | Some c =>
          if negb (isalpha c) && negb (isdigit c)
          then replace_loop n' (S i) (<[i := "_"%char]> t)
          else replace_loop n' (S i) t
      | None => t
      end
  end.

Definition get_lock_filename (device_id platform_id_offset : Z)
           (platform_name device_name : string) : option string :=
  let f := "/tmp/gpu"%string in
  match sprintf 4096 string_base
          [ArgInt platform_id_offset; ArgInt device_id;
           ArgStr platform_name; ArgStr device_name] with
  | None => None
  | Some t =>
      let len := strlen t in
      let t := replace_loop len 0 t in
      let f := (f +:+ string_of_list_ascii t)%string in
      let f := (f +:+ ".lck")%string in
      Some f
  end.

(** What the documentation says the name is. *)
Definition sanitize_char (c : ascii) : ascii :=
  if isalpha c || isdigit c then c else "_"%char.



End LockName.

(** ** The machine the program runs on *)

Module Sys.

(** Advisory locks as [flock] sees them.  A lock belongs to an open file
    description, so a second [open] of the same path conflicts with the
    first even inside one process.
    - [open_fails path]: [open(path, O_CREAT | O_TRUNC, 0777)] returns -1
      (for instance a file another user created, which cannot be truncated);
    - [flock_fails path]: [flock] fails with an error other than
      [EWOULDBLOCK];
    - [foreign_lock path]: a descriptor of another process holds the lock;
    - [held]: the descriptors of this process that hold a lock, with their
      paths;
    - [created]: the lock files that exist. *)
Record os_state := {
  open_fails : string -> bool;
  flock_fails : string -> bool;
  foreign_lock : string -> bool;
  held : list (Z * string);
  created : list string
}.

Definition set_held (h : list (Z * string)) (o : os_state) : os_state :=
  {| open_fails := open_fails o; flock_fails := flock_fails o;
     foreign_lock := foreign_lock o; held := h; created := created o |}.

Definition set_created (c : list string) (o : os_state) : os_state :=
  {| open_fails := open_fails o; flock_fails := flock_fails o;
     foreign_lock := foreign_lock o; held := held o; created := c |}.

Definition locked_here (o : os_state) (path : string) : bool :=
  existsb (fun e => String.eqb (snd e) path) (held o).

Definition is_locked (o : os_state) (path : string) : bool :=
  foreign_lock o path || locked_here o path.

(** The descriptor [open] hands out: one that is not open yet (and not one
    of the standard streams).  Which one is the kernel's choice; the program
    only compares it with -1. *)
Definition fresh_fd (o : os_state) : Z :=
  fold_right Z.max 2 (map fst (held o)) + 1.

Inductive flock_result := FlockOk | FlockWouldBlock | FlockError.

(** [flock(f, LOCK_EX | LOCK_NB)] on a fresh descriptor of [path]. *)
Definition flock (o : os_state) (path : string) : flock_result :=
  if is_locked o path then FlockWouldBlock
  else if flock_fails o path then FlockError
  else FlockOk.

(** [close(f)]: the descriptor goes away and with it the lock it held. *)
Definition close (f : Z) (o : os_state) : os_state :=
  set_held (filter (fun e => fst e <> f) (held o)) o.

(** Calls whose order the properties speak about. *)
Inductive event :=
| EvCreateContext (device : Z)
| EvPlatformInitialize (key : string) (id_offset : Z) (id : Z).

Record world := { os : os_state; trace : list event }.

Definition set_os (o : os_state) (w : world) : world :=
  {| os := o; trace := trace w |}.

Definition log (e : event) (w : world) : world :=
  {| os := os w; trace := trace w ++ [e] |}.

(** The result of running a piece of the program: it returns, it calls
    [abort()] after printing [msg], or it runs into undefined behaviour. *)
Inductive outcome (A : Type) :=
| Done (a : A) (w : world)
| Aborted (msg : string) (w : world)
| Undefined.
Arguments Done {A} a w.
Arguments Aborted {A} msg w.
Arguments Undefined {A}.

Definition M (A : Type) : Type := world -> outcome A.

Definition ret {A} (a : A) : M A := fun w => Done a w.

Definition bind {A B} (m : M A) (k : A -> M B) : M B :=
  fun w => match m w with
           | Done a w' => k a w'
           | Aborted msg w' => Aborted msg w'
           | Undefined => Undefined
           end.

Definition abort {A} (msg : string) : M A := fun w => Aborted msg w.
Definition undefined {A} : M A := fun _ => Undefined.
Definition emit (e : event) : M unit := fun w => Done tt (log e w).

End Sys.

Notation "x <- m ;; k" := (Sys.bind m (fun x => k))
  (at level 100, m at next level, right associativity).
Notation "m ;;; k" := (Sys.bind m (fun _ => k))
  (at level 100, right associativity).

(** ** Lock files *)

Module LockFiles.
Import Sys LockName.

(** [LockFile]: the descriptor when the lock was taken, -1 when the file
    could not be opened, is locked already, or [flock] failed otherwise. *)
Definition LockFile (path : string) : M Z := fun w =>
  let o := os w in
  if open_fails o path then Done (-1) w
  else
    let f := fresh_fd o in
    let o1 := set_created (path :: created o) o in
    match flock o path with
    | FlockWouldBlock => Done (-1) (set_os (close f o1) w)
    | FlockError => Done (-1) (set_os (close f o1) w)
    | FlockOk => Done f (set_os (set_held ((f, path) :: held o1) o1) w)
    end.

Definition UnlockFile (f : Z) : M unit := fun w =>
  Done tt (set_os (close f (os w)) w).

Definition Verify_if_Device_is_Used (device_id platform_id_offset : Z)
           (platform_name device_name : string) : M bool :=
  match get_lock_filename device_id platform_id_offset platform_name device_name with
  | None => undefined
  | Some path =>
      check <- LockFile path ;;
      if check =? -1 then ret true
      else UnlockFile check ;;; ret false
  end.

End LockFiles.

(** ** The OpenCL runtime *)

Module OpenCL.

Definition CL_SUCCESS : Z := 0.
Definition CL_DEVICE_NOT_FOUND : Z := -1.
Definition CL_DEVICE_TYPE_DEFAULT : Z := 1.
Definition CL_DEVICE_TYPE_CPU : Z := 2.
Definition CL_DEVICE_TYPE_GPU : Z := 4.
Definition CL_DEVICE_TYPE_ACCELERATOR : Z := 8.

Inductive platform_param :=
| CL_PLATFORM_PROFILE | CL_PLATFORM_VERSION | CL_PLATFORM_NAME
| CL_PLATFORM_VENDOR | CL_PLATFORM_EXTENSIONS.

(** What the [clGetDeviceInfo] calls of [Set_Information] leave behind:
    [di_err] is the bitwise or of their error codes, [di_nv_err] that of the
    queries made only when the extension string announces
    [cl_nv_device_attribute_query]; the string fields are the contents of
    the character buffer. *)
Record device_info := {
  di_err : Z;
  di_nv_err : Z;
  di_type : Z;
  di_max_compute_units : Z;
  di_extensions : string;
  di_name : string
}.

(** The runtime as the program sees it.  The [_count] calls are the ones
    made with a null array, the [_list] calls fill an array of the given
    size. *)
Record opencl_api := {
  clGetPlatformIDs_count : Z * nat;
  clGetPlatformIDs_list : nat -> Z * list Z;
  clGetPlatformInfo : Z -> platform_param -> Z * string;
  clGetDeviceIDs_count : Z -> Z -> Z * nat;
  clGetDeviceIDs_list : Z -> Z -> nat -> Z * list Z;
  clGetDeviceInfo : Z -> device_info;
  clCreateContext : Z -> Z * Z
}.

(** [std::string(tmp_string)]: the buffer up to its first NUL. *)
Definition string_of_buffer (buf : string) : string :=
  string_of_list_ascii (CString.c_str buf).

(** Conversion of an unsigned 32-bit value to [int]. *)
Definition to_int (z : Z) : Z :=
  let m := z mod 4294967296 in
  if m <? 2147483648 then m else m - 4294967296.

(** Modelled from the spec: [OpenCL_Test_Success] is declared in
    [OclUtils.hpp], which is not among the sources; every failure of the
    compute API other than the tolerated ones is fatal. *)
Definition OpenCL_Test_Success (err : Z) (fct_name : string) : Sys.M unit :=
  if err =? CL_SUCCESS then Sys.ret tt else Sys.abort fct_name.

End OpenCL.

(** ** Devices *)

Module Device.
Import Sys LockName LockFiles OpenCL.

(** What a device reads through its [parent_platform] pointer, and what
    [OpenCL_devices_list::Initialize] reads through [_platform]: [Id()],
    [Id_Offset()] and [Name()].  The platform object is a node of the
    registry's map and these fields are set before its devices are
    discovered. *)
Record platform_view := {
  pv_id : Z;
  pv_id_offset : Z;
  pv_name : string
}.

Record OpenCL_device := {
  object_is_initialized : bool;
  parent_platform : option platform_view;
  d_name : string;
  d_id : Z;
  device_is_gpu : bool;
  max_compute_units : Z;
  d_device : Z;
  d_context : Z;
  device_is_in_use : bool;
  is_lockable : bool;
  file_locked : bool;
  lock_file : Z
}.

(** [OpenCL_device::OpenCL_device()].  [lock_file] is left uninitialised by
    the constructor; it is read only while [file_locked] holds. *)
Definition OpenCL_device_ctor : OpenCL_device := {|
  object_is_initialized := false;
  parent_platform := None;
  d_name := "";
  d_id := -1;
  device_is_gpu := false;
  max_compute_units := 0;
  d_device := 0;
  d_context := 0;
  device_is_in_use := false;
  is_lockable := true;
  file_locked := false;
  lock_file := 0
|}.

Definition set_parent_platform (p : option platform_view) (d : OpenCL_device) :=
  {| object_is_initialized := object_is_initialized d; parent_platform := p;
     d_name := d_name d; d_id := d_id d; device_is_gpu := device_is_gpu d;
     max_compute_units := max_compute_units d; d_device := d_device d;
     d_context := d_context d; device_is_in_use := device_is_in_use d;
     is_lockable := is_lockable d; file_locked := file_locked d;
     lock_file := lock_file d |}.

Definition set_context (c : Z) (d : OpenCL_device) :=
  {| object_is_initialized := object_is_initialized d;
     parent_platform := parent_platform d;
     d_name := d_name d; d_id := d_id d; device_is_gpu := device_is_gpu d;
     max_compute_units := max_compute_units d; d_device := d_device d;
     d_context := c; device_is_in_use := device_is_in_use d;
     is_lockable := is_lockable d; file_locked := file_locked d;
     lock_file := lock_file d |}.

Definition set_in_use (b : bool) (d : OpenCL_device) :=
  {| object_is_initialized := object_is_initialized d;
     parent_platform := parent_platform d;
     d_name := d_name d; d_id := d_id d; device_is_gpu := device_is_gpu d;
     max_compute_units := max_compute_units d; d_device := d_device d;
     d_context := d_context d; device_is_in_use := b;
     is_lockable := is_lockable d; file_locked := file_locked d;
     lock_file := lock_file d |}.

Definition set_lock (locked : bool) (f : Z) (d : OpenCL_device) :=
  {| object_is_initialized := object_is_initialized d;
     parent_platform := parent_platform d;
     d_name := d_name d; d_id := d_id d; device_is_gpu := device_is_gpu d;
     max_compute_units := max_compute_units d; d_device := d_device d;
     d_context := d_context d; device_is_in_use := device_is_in_use d;
     is_lockable := is_lockable d; file_locked := locked;
     lock_file := f |}.

(** The assignments of [Set_Information] that precede the probe. *)
Definition set_information (_id _device : Z) (_device_is_gpu : bool)
           (info : device_info) (d : OpenCL_device) :=
  {| object_is_initialized := true;
     parent_platform := parent_platform d;
     d_name := string_of_buffer (di_name info); d_id := _id;
     device_is_gpu := _device_is_gpu;
     max_compute_units := di_max_compute_units info; d_device := _device;
     d_context := d_context d; device_is_in_use := device_is_in_use d;
     is_lockable := is_lockable d; file_locked := file_locked d;
     lock_file := lock_file d |}.

Definition known_type (t : Z) : bool :=
  (t =? CL_DEVICE_TYPE_CPU) || (t =? CL_DEVICE_TYPE_GPU)
  || (t =? CL_DEVICE_TYPE_ACCELERATOR) || (t =? CL_DEVICE_TYPE_DEFAULT).

Section WithApi.
Variable api : opencl_api.

Definition Set_Information (d : OpenCL_device) (_id _device platform_id_offset : Z)
           (platform_name : string) (_device_is_gpu : bool) : M OpenCL_device :=
  let info := clGetDeviceInfo api _device in
  let d := set_information _id _device _device_is_gpu info d in
  OpenCL_Test_Success (di_err info) "OpenCL_device::Set_Information()" ;;;
  (if CString.contains (string_of_buffer (di_extensions info)) "cl_nv_device_attribute_query"
   then OpenCL_Test_Success (di_nv_err info)
          "OpenCL_device::Set_Information() (Nvida specific extensions)"
   else ret tt) ;;;
  (if known_type (di_type info) then ret tt
   else abort "ERROR: Unknown OpenCL type") ;;;
  used <- Verify_if_Device_is_Used (d_id d) platform_id_offset platform_name (d_name d) ;;
  ret (set_in_use used d).

Definition Set_Context (d : OpenCL_device) : M (Z * OpenCL_device) :=
  emit (EvCreateContext (d_device d)) ;;;
  let '(ctx, err) := clCreateContext api (d_device d) in
  ret (err, set_context ctx d).

End WithApi.

(** Modelled from the spec: the accessors [Is_In_Use()] and [Is_Lockable()]
    are declared in [OclUtils.hpp], which is not among the sources; they
    return the in-use flag and the lockable flag of the device. *)
Definition Is_In_Use (d : OpenCL_device) : bool := device_is_in_use d.
Definition Is_Lockable (d : OpenCL_device) : bool := is_lockable d.

Definition Lock (d : OpenCL_device) : M OpenCL_device :=
  match parent_platform d with
  | None => undefined
  | Some pp =>
      match get_lock_filename (d_id d) (pv_id_offset pp) (pv_name pp) (d_name d) with
      | None => undefined
      | Some path =>
          lf <- LockFile path ;;
          if lf =? -1 then abort "An error occurred locking the file!"
          else ret (set_lock true lf d)
      end
  end.

Definition Unlock (d : OpenCL_device) : M OpenCL_device :=
  if file_locked d then
    UnlockFile (lock_file d) ;;; ret (set_lock false (lock_file d) d)
  else ret d.

(** [OpenCL_device::operator<]: [true] when [this] goes before [other]. *)
Definition lt (this other : OpenCL_device) : bool :=
  if negb (device_is_in_use this) && device_is_in_use other then true
  else if device_is_in_use this && negb (device_is_in_use other) then false
  else if max_compute_units this >? max_compute_units other then true
  else false.

(** [~OpenCL_device]: the context is released and the lock given back. *)
Definition destroy (d : OpenCL_device) : M unit := Unlock d ;;; ret tt.

End Device.

(** ** [std::list::sort]

    The sort of the standard library as libstdc++ writes it: elements are
    taken from the front one at a time and carried up an array of bins,
    bin [i] holding a sorted run of [2^i] elements or nothing; the bins are
    merged at the end.  The comparison is the element's [operator<]. *)

Module ListSort.
Section Sort.
Context {A : Type} (less : A -> A -> bool).

(** [this->merge(x)]: an element of [x] is moved in front of the current
    element of [this] only when it is smaller. *)
Fixpoint merge (this : list A) : list A -> list A :=
  fix merge_x (x : list A) : list A :=
    match this, x with
    | [], _ => x
    | _, [] => this
    | a :: this', b :: x' =>
        if less b a then b :: merge_x x' else a :: merge this' x
    end.

(** One round of the outer loop of [sort]: the element taken from the front
    is carried up the array of bins, merging into every bin that is
    occupied, and is dropped into the first empty one. *)
Fixpoint carry_up (carry : list A) (tmp : list (list A)) : list (list A) :=
  match tmp with
  | [] => [carry]
  | [] :: tmp' => carry :: tmp'
  | bin :: tmp' => [] :: carry_up (merge bin carry) tmp'
  end.

(** The closing loop [tmp[counter].merge(tmp[counter-1])]. *)
Fixpoint merge_bins (acc : list A) (tmp : list (list A)) : list A :=
  match tmp with
  | [] => acc
  | bin :: tmp' => merge_bins (merge bin acc) tmp'
  end.

Definition fill_bins (l : list A) : list (list A) :=
  fold_left (fun tmp x => carry_up [x] tmp) l [].

Definition sort (l : list A) : list A := merge_bins [] (fill_bins l).

(** [before a b]: the order does not put [b] in front of [a]. *)
Definition before (a b : A) : Prop := less b a = false.

End Sort.
End ListSort.

(** ** The devices of one platform *)

Module DeviceRegistry.
Import Sys OpenCL Device.

Record OpenCL_devices_list := {
  is_initialized : bool;
  dl_platform : option platform_view;
  nb_cpu : nat;
  nb_gpu : nat;
  device_list : list OpenCL_device;
  preferred_device : option nat
}.

(** [OpenCL_devices_list::OpenCL_devices_list()]; [preferred_device] points
    into [device_list] and is kept as a position. *)
Definition OpenCL_devices_list_ctor : OpenCL_devices_list := {|
  is_initialized := false;
  dl_platform := None;
  nb_cpu := 0;
  nb_gpu := 0;
  device_list := [];
  preferred_device := None
|}.

(** Modelled from the spec: [nb_devices()] is declared in [OclUtils.hpp],
    which is not among the sources; it is the combined count of CPU and
    accelerator devices. *)
Definition nb_devices (nb_cpu nb_gpu : nat) : nat := (nb_cpu + nb_gpu)%nat.

Definition Prefered_OpenCL (r : OpenCL_devices_list) : M OpenCL_device :=
  match preferred_device r with
  | None => abort "ERROR: No OpenCL device is present!"
  | Some k =>
      match device_list r !! k with
      | Some d => ret d
      | None => undefined
      end
  end.

Fixpoint destroy_all (l : list OpenCL_device) : M unit :=
  match l with
  | [] => ret tt
  | d :: l' => destroy d ;;; destroy_all l'
  end.

(** [device_list.resize(n)]: surplus elements are destroyed, missing ones
    are copies of a default-constructed device. *)
Definition resize (n : nat) (l : list OpenCL_device) : M (list OpenCL_device) :=
  if (n <=? length l)%nat then destroy_all (drop n l) ;;; ret (take n l)
  else ret (l ++ replicate (n - length l) OpenCL_device_ctor).

Section WithApi.
Variable api : opencl_api.

(** [clGetDeviceIDs(platform->Id(), type, 0, NULL, &nb)] with its
    tolerance for [CL_DEVICE_NOT_FOUND]. *)
Definition count_devices (pid type : Z) : M nat :=
  let '(err, nb) := clGetDeviceIDs_count api pid type in
  let err := if err =? CL_DEVICE_NOT_FOUND then CL_SUCCESS else err in
  OpenCL_Test_Success err "clGetDeviceIDs()" ;;; ret nb.

(** The loop [for (i = 0; i < nb; ++i, ++it)] over one kind of device, with
    [rem] iterations left; [first_id + i] is the id handed to
    [Set_Information] ([i] for CPUs, [nb_cpu + i] for GPUs). *)
Fixpoint add_devices (pv : platform_view) (is_gpu : bool) (first_id : nat)
         (tmp_devices : list Z) (rem i it : nat)
         (l : list OpenCL_device) (is_all_devices_in_use : bool)
  : M (list OpenCL_device * bool) :=
  match rem with
  | O => ret (l, is_all_devices_in_use)
  | S rem' =>
      match l !! it with
      | None => undefined
      | Some d =>
          d' <- Set_Information api d (to_int (Z.of_nat (first_id + i)))
                  (nth i tmp_devices 0) (pv_id_offset pv)
                  (string_of_buffer (pv_name pv)) is_gpu ;;
          add_devices pv is_gpu first_id tmp_devices rem' (S i) (S it)
            (<[it := d']> l)
            (if negb (Is_In_Use d') then false else is_all_devices_in_use)
      end
  end.

(** [if (nb >= 1) { ... }] around one of the two loops. *)
Definition add_kind (pv : platform_view) (type : Z) (is_gpu : bool)
           (first_id nb it : nat) (l : list OpenCL_device)
           (is_all_devices_in_use : bool) : M (list OpenCL_device * bool) :=
  if (1 <=? nb)%nat then
    let '(err, tmp_devices) := clGetDeviceIDs_list api (pv_id pv) type nb in
    OpenCL_Test_Success err "clGetDeviceIDs()" ;;;
    add_devices pv is_gpu first_id tmp_devices nb 0 it l is_all_devices_in_use
  else ret (l, is_all_devices_in_use).

(** What [Initialize] knows when it reaches the test of
    [is_all_devices_in_use]. *)
Record enumeration := {
  e_nb_cpu : nat;
  e_nb_gpu : nat;
  e_devices : list OpenCL_device;
  e_all_in_use : bool
}.

(** [Initialize] up to [assert(it == device_list.end())]. *)
Definition enumerate (r : OpenCL_devices_list) (_platform : platform_view)
  : M enumeration :=
  nb_gpu <- count_devices (pv_id _platform) CL_DEVICE_TYPE_GPU ;;
  nb_cpu <- count_devices (pv_id _platform) CL_DEVICE_TYPE_CPU ;;
  if negb (1 <=? nb_devices nb_cpu nb_gpu)%nat
  then abort "Assertion failed: !(nb_devices() >= 1)"
  else
    l <- resize (nb_devices nb_cpu nb_gpu) (device_list r) ;;
    cpus <- add_kind _platform CL_DEVICE_TYPE_CPU false 0 nb_cpu 0 l true ;;
    gpus <- add_kind _platform CL_DEVICE_TYPE_GPU true nb_cpu nb_gpu nb_cpu
              (fst cpus) (snd cpus) ;;
    ret {| e_nb_cpu := nb_cpu; e_nb_gpu := nb_gpu;
           e_devices := fst gpus; e_all_in_use := snd gpus |}.

(** The loop that looks for a device accepting a context, with [rem]
    iterations left; the second component is [preferred_device]. *)
Fixpoint context_loop (rem it : nat) (l : list OpenCL_device)
  : M (list OpenCL_device * option nat) :=
  match rem with
  | O => ret (l, None)
  | S rem' =>
      match l !! it with
      | None => ret (l, None)
      | Some d =>
          r <- Set_Context api d ;;
          let l' := <[it := snd r]> l in
          if fst r =? CL_SUCCESS then ret (l', Some it)
          else context_loop rem' (S it) l'
      end
  end.

(** [OpenCL_devices_list::Initialize]. *)
Definition Initialize (r : OpenCL_devices_list) (_platform : platform_view)
  : M OpenCL_devices_list :=
  e <- enumerate r _platform ;;
  if e_all_in_use e then abort "All devices are in use!"
  else
    let l := map (set_parent_platform (Some _platform)) (e_devices e) in
    let l := ListSort.sort lt l in
    c <- context_loop (length l) 0 l ;;
    match snd c with
    | None =>
        abort "ERROR: Cannot set an OpenCL context on any of the available devices!"
    | Some k =>
        ret {| is_initialized := true;
               dl_platform := Some _platform;
               nb_cpu := e_nb_cpu e;
               nb_gpu := e_nb_gpu e;
               device_list := fst c;
               preferred_device := Some k |}
    end.

End WithApi.
End DeviceRegistry.

(** ** Platforms *)

Module Platform.
Import Sys OpenCL Device DeviceRegistry.

Record OpenCL_platform := {
  p_id : Z;
  p_vendor : string;
  p_name : string;
  p_version : string;
  p_extensions : string;
  p_profile : string;
  p_key : string;
  p_id_offset : Z;
  devices_list : OpenCL_devices_list
}.

Definition OpenCL_platform_ctor : OpenCL_platform := {|
  p_id := 0;
  p_vendor := "Not set";
  p_name := "Not set";
  p_version := "Not set";
  p_extensions := "Not set";
  p_profile := "Not set";
  p_key := "";
  p_id_offset := 0;
  devices_list := OpenCL_devices_list_ctor
|}.

Definition set_devices_list (dl : OpenCL_devices_list) (p : OpenCL_platform) :=
  {| p_id := p_id p; p_vendor := p_vendor p; p_name := p_name p;
     p_version := p_version p; p_extensions := p_extensions p;
     p_profile := p_profile p; p_key := p_key p;
     p_id_offset := p_id_offset p; devices_list := dl |}.

Definition set_device_list (l : list OpenCL_device) (r : OpenCL_devices_list) :=
  {| is_initialized := is_initialized r; dl_platform := dl_platform r;
     nb_cpu := nb_cpu r; nb_gpu := nb_gpu r; device_list := l;
     preferred_device := preferred_device r |}.

(** Writing through the reference [Prefered_OpenCL()] returns. *)
Definition store_preferred (d : OpenCL_device) (p : OpenCL_platform) :=
  match preferred_device (devices_list p) with
  | Some k =>
      set_devices_list
        (set_device_list (<[k := d]> (device_list (devices_list p)))
           (devices_list p)) p
  | None => p
  end.

Section WithApi.
Variable api : opencl_api.

Definition query (id : Z) (what : platform_param) (fct_name : string) : M string :=
  let '(err, tmp_string) := clGetPlatformInfo api id what in
  OpenCL_Test_Success err fct_name ;;; ret (string_of_buffer tmp_string).

(** [OpenCL_platform::Initialize]. *)
Definition Initialize (p : OpenCL_platform) (_key : string) (_id_offset _id : Z)
  : M OpenCL_platform :=
  emit (EvPlatformInitialize _key _id_offset _id) ;;;
  profile <- query _id CL_PLATFORM_PROFILE "clGetPlatformInfo (CL_PLATFORM_PROFILE)" ;;
  version <- query _id CL_PLATFORM_VERSION "clGetPlatformInfo (CL_PLATFORM_VERSION)" ;;
  name <- query _id CL_PLATFORM_NAME "clGetPlatformInfo (CL_PLATFORM_NAME)" ;;
  vendor <- query _id CL_PLATFORM_VENDOR "clGetPlatformInfo (CL_PLATFORM_VENDOR)" ;;
  extensions <- query _id CL_PLATFORM_EXTENSIONS "clGetPlatformInfo (CL_PLATFORM_EXTENSIONS)" ;;
  dl <- DeviceRegistry.Initialize api (devices_list p)
          {| pv_id := _id; pv_id_offset := _id_offset; pv_name := name |} ;;
  ret {| p_id := _id; p_vendor := vendor; p_name := name;
         p_version := version; p_extensions := extensions;
         p_profile := profile; p_key := _key; p_id_offset := _id_offset;
         devices_list := dl |}.

End WithApi.

(** [OpenCL_platform::Lock_Best_Device].  The platform's own
    [Prefered_OpenCL()] is declared in [OclUtils.hpp], which is not among
    the sources; it is read as the preferred device of the platform's
    [devices_list], whose [Prefered_OpenCL] is the one above. *)
Definition Lock_Best_Device (p : OpenCL_platform) : M OpenCL_platform :=
  d <- Prefered_OpenCL (devices_list p) ;;
  if Is_Lockable d then
    d' <- Lock d ;; ret (store_preferred d' p)
  else ret p.

End Platform.

(** ** The registry of platforms *)

Module PlatformRegistry.
Import Sys OpenCL CString Device DeviceRegistry Platform.

Inductive vendor := NVIDIA | AMD | INTEL | APPLE.

(** Modelled from the spec: the macros [OPENCL_PLATFORMS_NVIDIA],
    [OPENCL_PLATFORMS_AMD], [OPENCL_PLATFORMS_INTEL] and
    [OPENCL_PLATFORMS_APPLE] are defined in [OclUtils.hpp], which is not
    among the sources; the example program lists the keys a caller may
    pass. *)
Definition key_of_vendor (v : vendor) : string :=
  match v with
  | NVIDIA => "nvidia"
  | AMD => "amd"
  | INTEL => "intel"
  | APPLE => "apple"
  end.

(** The cascade of [find] tests on the lower-cased vendor string; [None] is
    the branch that aborts. *)
Definition classify (platform_vendor : string) : option vendor :=
  if contains platform_vendor "nvidia" then Some NVIDIA
  else if contains platform_vendor "advanced micro devices"
          || contains platform_vendor "amd" then Some AMD
  else if contains platform_vendor "intel" then Some INTEL
  else if contains platform_vendor "apple" then Some APPLE
  else None.

Record OpenCL_platforms_list := {
  platforms : gmap string OpenCL_platform;
  preferred_platform : string
}.

Definition OpenCL_platforms_list_ctor : OpenCL_platforms_list :=
  {| platforms := ∅; preferred_platform := "" |}.

(** [platforms.begin()->first]: the smallest key. *)
Definition first_key (m : gmap string OpenCL_platform) : option string :=
  foldr (fun k acc =>
           match acc with
           | None => Some k
           | Some k' => if String.ltb k k' then Some k else Some k'
           end) None (map fst (map_to_list m)).

Section WithApi.
Variable api : opencl_api.

(** The loop over the platforms, with [rem] iterations left.
    [platform_id_offset] is an [int] incremented once per platform; it stays
    far below the range of [int]. *)
Fixpoint platform_loop (tmp_platforms : list Z) (rem i : nat)
         (platform_id_offset : Z) (m : gmap string OpenCL_platform)
  : M (gmap string OpenCL_platform) :=
  match rem with
  | O => ret m
  | S rem' =>
      let tmp_platform_id := nth i tmp_platforms 0 in
      let '(err, tmp_string) :=
        clGetPlatformInfo api tmp_platform_id CL_PLATFORM_VENDOR in
      OpenCL_Test_Success err "clGetPlatformInfo (CL_PLATFORM_VENDOR)" ;;;
      let platform_vendor := transform tolower (string_of_buffer tmp_string) in
      match classify platform_vendor with
      | None => abort "ERROR: Unknown OpenCL platform"
      | Some v =>
          let key := key_of_vendor v in
          let platform := default OpenCL_platform_ctor (m !! key) in
          platform' <- Platform.Initialize api platform key platform_id_offset
                         (nth i tmp_platforms 0) ;;
          platform_loop tmp_platforms rem' (S i) (platform_id_offset + 1)
            (<[key := platform']> m)
      end
  end.

(** [OpenCL_platforms_list::Initialize]. *)
Definition Initialize (pl : OpenCL_platforms_list) (_prefered_platform : string)
  : M OpenCL_platforms_list :=
  let '(err, nb_platforms) := clGetPlatformIDs_count api in
  OpenCL_Test_Success err "clGetPlatformIDs" ;;;
  if (nb_platforms =? 0)%nat
  then abort "ERROR: No OpenCL platform found! Exiting."
  else
    let '(err, tmp_platforms) := clGetPlatformIDs_list api nb_platforms in
    OpenCL_Test_Success err "clGetPlatformIDs" ;;;
    m <- platform_loop tmp_platforms nb_platforms 0 0 (platforms pl) ;;
    if String.eqb _prefered_platform "-1" || String.eqb _prefered_platform ""
    then
      match first_key m with
      | Some k => ret {| platforms := m; preferred_platform := k |}
      | None => undefined
      end
    else ret {| platforms := m; preferred_platform := _prefered_platform |}.

End WithApi.
End PlatformRegistry.

(** ** Vocabulary of the properties *)

Module Spec.
Import Sys OpenCL CString LockName LockFiles Device DeviceRegistry Platform
       PlatformRegistry ListSort.

(** The lock on [path] can be taken: the file opens and [flock] grants the
    lock. *)
Definition acquirable (o : os_state) (path : string) : bool :=
  negb (open_fails o path)
  && match flock o path with FlockOk => true | _ => false end.

(** The path a device locks. *)
Definition lock_path (d : OpenCL_device) : option string :=
  match parent_platform d with
  | Some pp => get_lock_filename (d_id d) (pv_id_offset pp) (pv_name pp) (d_name d)
  | None => None
  end.


(** The error code and the device left behind by an attempt to create a
    context. *)
Definition context_error (api : opencl_api) (d : OpenCL_device) : Z :=
  snd (clCreateContext api (d_device d)).

Definition with_context (api : opencl_api) (d : OpenCL_device) : OpenCL_device :=
  set_context (fst (clCreateContext api (d_device d))) d.

Definition context_events (l : list OpenCL_device) : list event :=
  map (fun d => EvCreateContext (d_device d)) l.

(** The list the context loop walks: the enumerated devices with their
    parent set, sorted. *)
Definition sorted_devices (pv : platform_view) (e : enumeration)
  : list OpenCL_device :=
  sort lt (map (set_parent_platform (Some pv)) (e_devices e)).

(** [informed api i dev g d0 d']: [d'] is [d0] after
    [Set_Information(i, dev, ..., g)] has returned. *)
Definition informed (api : opencl_api) (i dev : Z) (g : bool)
           (d0 d' : OpenCL_device) : Prop :=
  exists used,
    d' = set_in_use used (set_information i dev g (clGetDeviceInfo api dev) d0).

Definition all_lockable (l : list OpenCL_device) : Prop :=
  Forall (fun d => is_lockable d = true) l.

(** The calls of [OpenCL_platform::Initialize] in a trace, in order. *)
Definition platform_inits (t : list event) : list (string * Z * Z) :=
  omap (fun e => match e with
                 | EvPlatformInitialize key off id => Some (key, off, id)
                 | EvCreateContext _ => None
                 end) t.

(** The classification key of the platform [id], when its vendor is
    recognised. *)
Definition platform_key (api : opencl_api) (id : Z) : option string :=
  key_of_vendor <$>
    classify (transform tolower
                (string_of_buffer (snd (clGetPlatformInfo api id CL_PLATFORM_VENDOR)))).

(** The platforms a program can hold: built by the constructor and changed
    by the operations of the library. *)
Inductive reachable (api : opencl_api) : OpenCL_platform -> Prop :=
| reach_ctor : reachable api OpenCL_platform_ctor
| reach_Initialize p key off id w p' w' :
    reachable api p ->
    Platform.Initialize api p key off id w = Done p' w' ->
    reachable api p'
| reach_Lock_Best_Device p w p' w' :
    reachable api p ->
    Lock_Best_Device p w = Done p' w' ->
    reachable api p'
| reach_Lock p k d w d' w' :
    reachable api p ->
    device_list (devices_list p) !! k = Some d ->
    Lock d w = Done d' w' ->
    reachable api
      (set_devices_list
         (set_device_list (<[k := d']> (device_list (devices_list p)))
            (devices_list p)) p)
| reach_Unlock p k d w d' w' :
    reachable api p ->
    device_list (devices_list p) !! k = Some d ->
    Unlock d w = Done d' w' ->
    reachable api
      (set_devices_list
         (set_device_list (<[k := d']> (device_list (devices_list p)))
            (devices_list p)) p)
| reach_Set_Context p k d w r w' :
    reachable api p ->
    device_list (devices_list p) !! k = Some d ->
    Set_Context api d w = Done r w' ->
    reachable api
      (set_devices_list
         (set_device_list (<[k := snd r]> (device_list (devices_list p)))
            (devices_list p)) p).

End Spec.

(** ** Concrete machines and runtimes used in the examples *)

Module Scenario.
Import Sys OpenCL Device DeviceRegistry Platform PlatformRegistry.

(** A machine on which nothing is locked and every call succeeds. *)
Definition os_free : os_state := {|
  open_fails := fun _ => false;
  flock_fails := fun _ => false;
  foreign_lock := fun _ => false;
  held := [];
  created := []
|}.

(** A machine on which no lock is held, but the lock files cannot be
    opened (they belong to another user). *)
Definition os_unopenable : os_state := {|
  open_fails := fun _ => true;
  flock_fails := fun _ => false;
  foreign_lock := fun _ => false;
  held := [];
  created := []
|}.

Definition w_free : world := {| os := os_free; trace := [] |}.
Definition w_unopenable : world := {| os := os_unopenable; trace := [] |}.

Definition a_platform : platform_view :=
  {| pv_id := 77; pv_id_offset := 0; pv_name := "P" |}.

(** A device as discovery leaves it. *)
Definition a_device : OpenCL_device :=
  set_parent_platform (Some a_platform)
    (set_information 0 100 true
       {| di_err := 0; di_nv_err := 0; di_type := 4;
          di_max_compute_units := 16; di_extensions := ""; di_name := "D" |}
       OpenCL_device_ctor).

(** The devices of the worked example: a CPU with 4 compute units and two
    GPUs with 16 and 32, the larger one in use. *)
Definition a_named_device (n : string) (id handle units : Z) (gpu used : bool)
  : OpenCL_device :=
  set_in_use used
    (set_parent_platform (Some a_platform)
       (set_information id handle gpu
          {| di_err := 0; di_nv_err := 0; di_type := if gpu then 4 else 2;
             di_max_compute_units := units; di_extensions := "";
             di_name := n |}
          OpenCL_device_ctor)).

Definition dev_cpu : OpenCL_device := a_named_device "CPU" 0 100 4 false false.
Definition dev_gpu0 : OpenCL_device := a_named_device "GPU0" 1 200 16 true false.
Definition dev_gpu1 : OpenCL_device := a_named_device "GPU1" 2 201 32 true true.

Definition info_of (n : string) (units type : Z) : device_info :=
  {| di_err := 0; di_nv_err := 0; di_type := type;
     di_max_compute_units := units; di_extensions := ""; di_name := n |}.

(** A runtime with one NVIDIA platform that lists one CPU (handle 100) and
    two GPUs (handles 200 and 201); the first GPU refuses a context. *)
Definition api_example : opencl_api := {|
  clGetPlatformIDs_count := (0, 1%nat);
  clGetPlatformIDs_list := fun _ => (0, [77]);
  clGetPlatformInfo := fun _ what =>
    match what with
    | CL_PLATFORM_VENDOR => (0, "NVIDIA Corporation"%string)
    | CL_PLATFORM_NAME => (0, "P"%string)
    | _ => (0, "x"%string)
    end;
  clGetDeviceIDs_count := fun _ type =>
    if type =? CL_DEVICE_TYPE_CPU then (0, 1%nat) else (0, 2%nat);
  clGetDeviceIDs_list := fun _ type _ =>
    if type =? CL_DEVICE_TYPE_CPU then (0, [100]) else (0, [200; 201]);
  clGetDeviceInfo := fun d =>
    if d =? 100 then info_of "CPU" 4 CL_DEVICE_TYPE_CPU
    else if d =? 200 then info_of "GPU0" 16 CL_DEVICE_TYPE_GPU
    else info_of "GPU1" 32 CL_DEVICE_TYPE_GPU;
  clCreateContext := fun d => if d =? 200 then (0, -5) else (d + 1000, 0)
|}.

(** The same machine as [os_free], except that another process holds the
    lock of the second GPU. *)
Definition os_gpu1_taken : os_state := {|
  open_fails := fun _ => false;
  flock_fails := fun _ => false;
  foreign_lock := fun p =>
    String.eqb p "/tmp/gpuPlatform__0__Device__2__P__GPU1_.lck";
  held := [];
  created := []
|}.

(** A machine on which other processes hold every lock. *)
Definition os_all_taken : os_state := {|
  open_fails := fun _ => false;
  flock_fails := fun _ => false;
  foreign_lock := fun _ => true;
  held := [];
  created := []
|}.

Definition w_gpu1_taken : world := {| os := os_gpu1_taken; trace := [] |}.
Definition w_all_taken : world := {| os := os_all_taken; trace := [] |}.

(** A runtime with two platforms of the same vendor, one device each. *)
Definition api_twins : opencl_api := {|
  clGetPlatformIDs_count := (0, 2%nat);
  clGetPlatformIDs_list := fun _ => (0, [77; 78]);
  clGetPlatformInfo := fun id what =>
    match what with
    | CL_PLATFORM_VENDOR => (0, "Advanced Micro Devices, Inc."%string)
    | CL_PLATFORM_NAME => (0, if id =? 77 then "A"%string else "B"%string)
    | _ => (0, "x"%string)
    end;
  clGetDeviceIDs_count := fun _ type =>
    if type =? CL_DEVICE_TYPE_CPU then (0, 1%nat) else (CL_DEVICE_NOT_FOUND, 0%nat);
  clGetDeviceIDs_list := fun id _ _ => (0, [id + 100]);
  clGetDeviceInfo := fun d => info_of "CPU" 4 CL_DEVICE_TYPE_CPU;
  clCreateContext := fun d => (d + 1000, 0)
|}.

(** A runtime whose only platform has a vendor the library does not
    know. *)
Definition api_unknown : opencl_api := {|
  clGetPlatformIDs_count := (0, 1%nat);
  clGetPlatformIDs_list := fun _ => (0, [77]);
  clGetPlatformInfo := fun _ _ => (0, "Portable Computing Language"%string);
  clGetDeviceIDs_count := fun _ _ => (0, 1%nat);
  clGetDeviceIDs_list := fun _ _ _ => (0, [100]);
  clGetDeviceInfo := fun d => info_of "CPU" 4 CL_DEVICE_TYPE_CPU;
  clCreateContext := fun d => (d + 1000, 0)
|}.

End Scenario.

(** ** Access to the registry of platforms *)

Module RegistryAccess.
Import Sys OpenCL CString Device DeviceRegistry Platform PlatformRegistry.

(** [OpenCL_platforms_list::Print], without the text it writes: what is
    left are the two assertions on the preferred platform and the read
    through [preferred_device].  It is called [Print_registry] here. *)
Definition Print_registry (pl : OpenCL_platforms_list) : M unit :=
  match platforms pl !! preferred_platform pl with
  | None => abort "Assertion failed: !(it != platforms.end())"
  | Some p =>
      match preferred_device (devices_list p) with
      | None =>
          abort "Assertion failed: !(it->second.devices_list.preferred_device != NULL)"
      | Some k =>
          match device_list (devices_list p) !! k with
          | Some _ => ret tt
          | None => undefined
          end
      end
  end.

(** [OpenCL_platforms_list::operator[]]. *)
Definition subscript (pl : OpenCL_platforms_list) (key : string)
  : M OpenCL_platform :=
  if String.eqb key "-1" || String.eqb key "" then
    if (size (platforms pl) =? 0)%nat then
      abort "ERROR: Trying to access a platform but the list is uninitialized! Aborting."
    else
      match first_key (platforms pl) with
      | Some k =>
          match platforms pl !! k with
          | Some p => ret p
          | None => undefined
          end
      | None => undefined
      end
  else
    match platforms pl !! key with
    | Some p => ret p
    | None => Print_registry pl ;;; abort "Cannot find platform"
    end.

End RegistryAccess.

(** ** Kernels *)

Module Kernel.
Import Sys OpenCL.

Definition INT_MIN : Z := -2147483648.
Definition INT_MAX : Z := 2147483647.
Definition in_int (z : Z) : bool := (INT_MIN <=? z) && (z <=? INT_MAX).

(** [OpenCL_Kernel::Get_Multiple] on [int]s.  [n % base] and [n / base]
    truncate towards zero; [std::floor] of the quotient, which is already an
    integer, leaves it unchanged.  [None] stands for undefined behaviour: a
    division by zero, or a sum that leaves the range of [int]. *)
Definition Get_Multiple (n base : Z) : option Z :=
  if n <? base then Some base
  else if base =? 0 then None
  else if Z.rem n base =? 0 then Some n
  else
    let multipleOfWorkSize := base * Z.quot n base + base in
    if in_int multipleOfWorkSize then Some multipleOfWorkSize else None.

(** The members of [OpenCL_Kernel]; the two work-size arrays have
    [dimension] cells. *)
Record OpenCL_Kernel := {
  filename : string;
  k_context : Z;
  device_id : Z;
  compiler_options : string;
  kernel_name : string;
  dimension : Z;
  k_program : Z;
  kernel : Z;
  global_work_size : list Z;
  local_work_size : list Z
}.



Definition set_names (name options : string) (k : OpenCL_Kernel) : OpenCL_Kernel :=
  {| filename := filename k; k_context := k_context k;
     device_id := device_id k; compiler_options := options;
     kernel_name := name; dimension := dimension k;
     k_program := k_program k; kernel := kernel k;
     global_work_size := global_work_size k;
     local_work_size := local_work_size k |}.

Definition set_program (p : Z) (k : OpenCL_Kernel) : OpenCL_Kernel :=
  {| filename := filename k; k_context := k_context k;
     device_id := device_id k; compiler_options := compiler_options k;
     kernel_name := kernel_name k; dimension := dimension k;
     k_program := p; kernel := kernel k;
     global_work_size := global_work_size k;
     local_work_size := local_work_size k |}.

Definition set_kernel (h : Z) (k : OpenCL_Kernel) : OpenCL_Kernel :=
  {| filename := filename k; k_context := k_context k;
     device_id := device_id k; compiler_options := compiler_options k;
     kernel_name := kernel_name k; dimension := dimension k;
     k_program := k_program k; kernel := h;
     global_work_size := global_work_size k;
     local_work_size := local_work_size k |}.

(** The [assert] macro of the file. *)
Definition assert (b : bool) (text : string) : M unit :=
  if b then ret tt else abort text.


(** The calls a kernel makes to the outside: the file it reads its source
    from ([None] when [fopen] fails) and the runtime.  The build-log query
    is made twice, first for the size of the log, then for the log. *)
Record kernel_api := {
  read_file : string -> option string;
  clCreateProgramWithSource : Z -> string -> Z * Z;
  clBuildProgram : Z -> string -> Z;
  clGetProgramBuildInfo_log_size : Z -> Z -> Z * nat;
  clGetProgramBuildInfo_log : Z -> Z -> nat -> Z;
  clGetProgramBuildInfo_status : Z -> Z -> Z;
  clCreateKernel : Z -> string -> Z * Z
}.

Section WithApi.
Variable api : kernel_api.

(** [read_opencl_kernel]: the text of the file, read whole. *)
Definition read_opencl_kernel (filename : string) : M string :=
  match read_file api filename with
  | None => abort "Unable to open the file for reading"
  | Some text => ret text
  end.

(** [OpenCL_Kernel::Build_Executable] (without [YDEBUG]).  The error code
    of [clBuildProgram] is overwritten by the two queries that follow
    it. *)
Definition Build_Executable (k : OpenCL_Kernel) : M OpenCL_Kernel :=
  let err := clBuildProgram api (k_program k)
               (string_of_buffer (compiler_options k)) in
  let '(err, ret_val_size) :=
    clGetProgramBuildInfo_log_size api (k_program k) (device_id k) in
  let err := clGetProgramBuildInfo_log api (k_program k) (device_id k) ret_val_size in
  OpenCL_Test_Success err "1. clGetProgramBuildInfo" ;;;
  if negb (err =? CL_SUCCESS) then
    let err := clGetProgramBuildInfo_status api (k_program k) (device_id k) in
    OpenCL_Test_Success err "0. clGetProgramBuildInfo" ;;;
    let '(err, ret_val_size) :=
      clGetProgramBuildInfo_log_size api (k_program k) (device_id k) in
    OpenCL_Test_Success err "1. clGetProgramBuildInfo" ;;;
    let err := clGetProgramBuildInfo_log api (k_program k) (device_id k) ret_val_size in
    OpenCL_Test_Success err "2. clGetProgramBuildInfo" ;;;
    abort "Kernel did not built correctly. Exiting."
  else ret k.

(** [OpenCL_Kernel::Load_Program_From_File]. *)
Definition Load_Program_From_File (k : OpenCL_Kernel) : M OpenCL_Kernel :=
  cSourceCL <- read_opencl_kernel (filename k) ;;
  let '(program, err) := clCreateProgramWithSource api (k_context k) cSourceCL in
  let k := set_program program k in
  OpenCL_Test_Success err "clCreateProgramWithSource" ;;;
  Build_Executable k.

(** [OpenCL_Kernel::Build]. *)
Definition Build (k : OpenCL_Kernel) (_kernel_name _compiler_options : string)
  : M OpenCL_Kernel :=
  let k := set_names _kernel_name _compiler_options k in
  k <- Load_Program_From_File k ;;
  let '(h, err) := clCreateKernel api (k_program k) (string_of_buffer (kernel_name k)) in
  let k := set_kernel h k in
  OpenCL_Test_Success err "clCreateKernel" ;;;
  ret k.

End WithApi.
End Kernel.

(** ** Names of error codes *)

Module ErrorString.

Definition errorString : list string := [
  "CL_SUCCESS";
  "CL_DEVICE_NOT_FOUND";
  "CL_DEVICE_NOT_AVAILABLE";
  "CL_COMPILER_NOT_AVAILABLE";
  "CL_MEM_OBJECT_ALLOCATION_FAILURE";
  "CL_OUT_OF_RESOURCES";
  "CL_OUT_OF_HOST_MEMORY";
  "CL_PROFILING_INFO_NOT_AVAILABLE";
  "CL_MEM_COPY_OVERLAP";
  "CL_IMAGE_FORMAT_MISMATCH";
  "CL_IMAGE_FORMAT_NOT_SUPPORTED";
  "CL_BUILD_PROGRAM_FAILURE";
  "CL_MAP_FAILURE";
  ""; ""; ""; ""; ""; ""; ""; ""; ""; ""; ""; ""; ""; ""; ""; ""; "";
  "CL_INVALID_VALUE";
  "CL_INVALID_DEVICE_TYPE";
  "CL_INVALID_PLATFORM";
  "CL_INVALID_DEVICE";
  "CL_INVALID_CONTEXT";
  "CL_INVALID_QUEUE_PROPERTIES";
  "CL_INVALID_COMMAND_QUEUE";
  "CL_INVALID_HOST_PTR";
  "CL_INVALID_MEM_OBJECT";
  "CL_INVALID_IMAGE_FORMAT_DESCRIPTOR";
  "CL_INVALID_IMAGE_SIZE";
  "CL_INVALID_SAMPLER";
  "CL_INVALID_BINARY";
  "CL_INVALID_BUILD_OPTIONS";
  "CL_INVALID_PROGRAM";
  "CL_INVALID_PROGRAM_EXECUTABLE";
  "CL_INVALID_KERNEL_NAME";
  "CL_INVALID_KERNEL_DEFINITION";
  "CL_INVALID_KERNEL";
  "CL_INVALID_ARG_INDEX";
  "CL_INVALID_ARG_VALUE";
  "CL_INVALID_ARG_SIZE";
  "CL_INVALID_KERNEL_ARGS";
  "CL_INVALID_WORK_DIMENSION";
  "CL_INVALID_WORK_GROUP_SIZE";
  "CL_INVALID_WORK_ITEM_SIZE";
  "CL_INVALID_GLOBAL_OFFSET";
  "CL_INVALID_EVENT_WAIT_LIST";
  "CL_INVALID_EVENT";
  "CL_INVALID_OPERATION";
  "CL_INVALID_GL_OBJECT";
  "CL_INVALID_BUFFER_SIZE";
  "CL_INVALID_MIP_LEVEL";
  "CL_INVALID_GLOBAL_WORK_SIZE"
]%string.

(** [OpenCL_Error_to_String].  [index = -error] is computed on [int]s; for
    the one value whose negation does not fit, either reading of the
    overflow leaves the index outside the table. *)
Definition OpenCL_Error_to_String (error : Z) : string :=
  let errorCount := Z.of_nat (length errorString) in
  let index := - error in
  if (index >=? 0) && (index <? errorCount)
  then nth (Z.to_nat index) errorString ""%string
  else "Unspecified Error"%string.

End ErrorString.

(** ** Vocabulary of the further properties *)

Module SpecMore.
Import Sys OpenCL CString LockName LockFiles Device DeviceRegistry Platform
       PlatformRegistry ListSort Spec.

(** Two states of the machine that differ at most in the lock files that
    exist. *)
Definition os_same (o o' : os_state) : Prop :=
  open_fails o = open_fails o' /\ flock_fails o = flock_fails o'
  /\ foreign_lock o = foreign_lock o' /\ held o = held o'.

(** [d] carries the verdict of a probe made on the machine [o] for the
    lock file the device will later lock as a device of [pv]. *)
Definition probed (o : os_state) (pv : platform_view) (d : OpenCL_device) : Prop :=
  exists path,
    get_lock_filename (d_id d) (pv_id_offset pv) (pv_name pv) (d_name d)
    = Some path
    /\ device_is_in_use d = negb (acquirable o path).

(** The platform has a preferred device. *)
Definition has_preferred (p : OpenCL_platform) : Prop :=
  exists k d, preferred_device (devices_list p) = Some k
              /\ device_list (devices_list p) !! k = Some d.

Definition all_unlocked (l : list OpenCL_device) : Prop :=
  Forall (fun d => file_locked d = false) l.

(** Devices the comparator does not tell apart. *)
Definition same_rank (x d : OpenCL_device) : bool :=
  Bool.eqb (device_is_in_use x) (device_is_in_use d)
  && (max_compute_units x =? max_compute_units d).

(** The elements held by the bins of the sort, oldest first: a bin with a
    higher index was filled earlier. *)
Definition flat {A : Type} (tmp : list (list A)) : list A := concat (rev tmp).

Definition all_digits (l : list ascii) : Prop :=
  forall c, In c l -> isdigit c = true.

(** The text [sprintf] writes for a lock-file name. *)
Definition lock_chars (device_id platform_id_offset : Z)
           (platform_name device_name : string) : list ascii :=
  list_ascii_of_string "Platform: " ++ fmt_d platform_id_offset
  ++ list_ascii_of_string "  Device: " ++ fmt_d device_id
  ++ list_ascii_of_string " (" ++ c_str platform_name
  ++ list_ascii_of_string ", " ++ c_str device_name
  ++ list_ascii_of_string ")".

End SpecMore.

(** * Properties *)

(** ** Lock-file names *)

Module LockNameFacts.
Import CString LockName.

Lemma list_ascii_of_string_app (a b : string) :
  list_ascii_of_string (a +:+ b) = list_ascii_of_string a ++ list_ascii_of_string b.
Proof. induction a as [|c a IH]; simpl; [reflexivity | now rewrite IH]. Qed.



Lemma strlen_no_NUL (t : list ascii) :
  ~ In NUL t -> strlen t = length t.
Proof.
  induction t as [|c t IH]; simpl; intros H; [reflexivity|].
  destruct (Ascii.eqb c NUL) eqn:E.
  - apply Ascii.eqb_eq in E. exfalso. apply H. now left.
  - f_equal. apply IH. intros Hin. apply H. now right.
Qed.

Lemma uint_no_NUL (d : Decimal.uint) :
  ~ In NUL (list_ascii_of_string (NilEmpty.string_of_uint d)).
Proof.
  induction d; simpl; try tauto;
    intros [H|H]; try (apply IHd; exact H); discriminate H.
Qed.

Lemma fmt_d_no_NUL (z : Z) : ~ In NUL (fmt_d z).
Proof.
  unfold fmt_d, NilZero.string_of_int.
  assert (Hu : forall d, ~ In NUL (list_ascii_of_string (NilZero.string_of_uint d))).
  { intros d. unfold NilZero.string_of_uint.
    destruct d; try apply uint_no_NUL.
    simpl. intros [H|[]]. discriminate H. }
  destruct (Z.to_int z); simpl.
  - apply Hu.
  - intros [H|H]; [discriminate H | now apply Hu in H].
Qed.

(** The replacement loop is a map over the part of the buffer it visits. *)
Lemma replace_loop_spec (n i : nat) (t : list ascii) :
  (i + n = length t)%nat ->
  replace_loop n i t = take i t ++ map sanitize_char (drop i t).
Proof.
  revert i t. induction n as [|n IH]; intros i t Hlen; simpl.
  - rewrite drop_ge by lia. rewrite take_ge by lia. now rewrite app_nil_r.
  - destruct (t !! i) as [c|] eqn:Hc.
    2:{ apply lookup_ge_None in Hc. lia. }
    assert (Hsplit : drop i t = c :: drop (S i) t)
      by (now apply drop_S).
    rewrite Hsplit. simpl.
    assert (Htake : forall x, take (S i) (<[i:=x]> t) = take i t ++ [x]).
    { intros x. rewrite (take_S_r _ i x).
      - now rewrite take_insert_ge by lia.
      - apply list_lookup_insert_eq. apply lookup_lt_Some in Hc. lia. }
    destruct (negb (isalpha c) && negb (isdigit c)) eqn:E.
    + rewrite IH by (rewrite length_insert; lia).
      rewrite Htake, drop_insert_lt by lia.
      rewrite <- app_assoc. simpl. unfold sanitize_char at 2.
      destruct (isalpha c), (isdigit c); simpl in *; congruence.
    + rewrite IH by lia.
      rewrite (take_S_r _ i c) by exact Hc.
      rewrite <- app_assoc. simpl. unfold sanitize_char at 2.
      destruct (isalpha c), (isdigit c); simpl in *; congruence.
Qed.





(** The replacement is not injective: distinct device names can share a
    lock file. *)
Example get_lock_filename_collision :
  get_lock_filename 0 0 "P" "GPU-1" = get_lock_filename 0 0 "P" "GPU 1".
Proof. reflexivity. Qed.

End LockNameFacts.

(** ** The monad *)

Module SysFacts.
Import Sys.

Lemma bind_Done {A B} (m : M A) (k : A -> M B) (w w' : world) (a : A) :
  m w = Done a w' -> bind m k w = k a w'.
Proof. unfold bind. now intros ->. Qed.

Lemma bind_inv_Done {A B} (m : M A) (k : A -> M B) (w w2 : world) (b : B) :
  bind m k w = Done b w2 ->
  exists a w1, m w = Done a w1 /\ k a w1 = Done b w2.
Proof. unfold bind. destruct (m w); intros H; try discriminate; eauto. Qed.

End SysFacts.

(** ** Lock files *)

Module LockFacts.
Import Sys LockName LockFiles Device Spec SysFacts.

Lemma fold_max_ge (l : list Z) (x : Z) : In x l -> x <= fold_right Z.max 2 l.
Proof.
  induction l as [|y l IH]; simpl; [tauto|].
  intros [->|H]; [lia | specialize (IH H); lia].
Qed.

Lemma fresh_fd_ge (o : os_state) : 3 <= fresh_fd o.
Proof.
  unfold fresh_fd.
  assert (2 <= fold_right Z.max 2 (map fst (held o))); [|lia].
  induction (map fst (held o)); simpl; lia.
Qed.

Lemma fresh_fd_unused (o : os_state) (e : Z * string) :
  In e (held o) -> fst e <> fresh_fd o.
Proof.
  intros H. unfold fresh_fd.
  pose proof (fold_max_ge (map fst (held o)) (fst e) (in_map fst _ _ H)). lia.
Qed.

Lemma filter_keep {A} (P : A -> Prop) `{forall x, Decision (P x)} (l : list A) :
  (forall x, In x l -> P x) -> filter P l = l.
Proof.
  induction l as [|x l IH]; intros Hall; [reflexivity|].
  rewrite filter_cons. destruct (decide (P x)) as [_|n].
  - f_equal. apply IH. intros y Hy. apply Hall. now right.
  - exfalso. apply n, Hall. now left.
Qed.

(** Closing the descriptor that has just been opened gives back exactly the
    lock it took. *)
Lemma close_fresh (o : os_state) (c : list string) (path : string) :
  held (close (fresh_fd o)
          (set_held ((fresh_fd o, path) :: held o) (set_created c o)))
  = held o.
Proof.
  unfold close. simpl. rewrite filter_cons. simpl.
  destruct (decide (fresh_fd o <> fresh_fd o)) as [n|_]; [congruence|].
  apply filter_keep. intros e He. now apply fresh_fd_unused.
Qed.

Lemma close_fresh_unlocked (o : os_state) (c : list string) :
  held (close (fresh_fd o) (set_created c o)) = held o.
Proof.
  unfold close. simpl. apply filter_keep.
  intros e He. now apply fresh_fd_unused.
Qed.

Lemma LockFile_acquirable (path : string) (w : world) :
  acquirable (os w) path = true ->
  LockFile path w
  = Done (fresh_fd (os w))
      (set_os (set_held ((fresh_fd (os w), path) :: held (os w))
                 (set_created (path :: created (os w)) (os w))) w).
Proof.
  unfold acquirable, LockFile. intros H.
  apply andb_true_iff in H as [Ho Hf].
  apply negb_true_iff in Ho. rewrite Ho.
  destruct (flock (os w) path); try discriminate. reflexivity.
Qed.

Lemma LockFile_not_acquirable (path : string) (w : world) :
  acquirable (os w) path = false ->
  exists w', LockFile path w = Done (-1) w'
             /\ held (os w') = held (os w)
             /\ trace w' = trace w
             /\ open_fails (os w') = open_fails (os w)
             /\ flock_fails (os w') = flock_fails (os w)
             /\ foreign_lock (os w') = foreign_lock (os w).
Proof.
  unfold acquirable, LockFile. intros H.
  destruct (open_fails (os w) path) eqn:Ho.
  - exists w. repeat split; reflexivity.
  - simpl in H.
    destruct (flock (os w) path) eqn:Hf; try discriminate;
      eexists; (split; [reflexivity|]); unfold set_os; cbn [os trace];
      rewrite close_fresh_unlocked; repeat split; reflexivity.
Qed.

(** A lock that is held, here or elsewhere, cannot be taken. *)
Lemma locked_not_acquirable (o : os_state) (path : string) :
  is_locked o path = true -> acquirable o path = false.
Proof.
  unfold acquirable, flock. intros ->. apply andb_false_r.
Qed.

End LockFacts.

Module ReservationFacts.
Import Sys LockName LockFiles Device Spec SysFacts LockFacts.

Lemma acquirable_ext (o o' : os_state) (path : string) :
  open_fails o = open_fails o' -> flock_fails o = flock_fails o' ->
  foreign_lock o = foreign_lock o' -> held o = held o' ->
  acquirable o path = acquirable o' path.
Proof.
  unfold acquirable, flock, is_locked, locked_here.
  now intros -> -> -> ->.
Qed.

Lemma acquirable_unlocked (o : os_state) (path : string) :
  acquirable o path = true -> is_locked o path = false.
Proof.
  unfold acquirable, flock. destruct (is_locked o path); [|reflexivity].
  rewrite andb_false_r. discriminate.
Qed.

Lemma Verify_result (device_id platform_id_offset : Z) (pn dn path : string)
      (w : world) :
  get_lock_filename device_id platform_id_offset pn dn = Some path ->
  exists w',
    Verify_if_Device_is_Used device_id platform_id_offset pn dn w
    = Done (negb (acquirable (os w) path)) w'
    /\ held (os w') = held (os w)
    /\ trace w' = trace w
    /\ open_fails (os w') = open_fails (os w)
    /\ flock_fails (os w') = flock_fails (os w)
    /\ foreign_lock (os w') = foreign_lock (os w).
Proof.
  intros Hp. unfold Verify_if_Device_is_Used. rewrite Hp.
  destruct (acquirable (os w) path) eqn:Ha.
  - rewrite (bind_Done _ _ _ _ _ (LockFile_acquirable path w Ha)).
    pose proof (fresh_fd_ge (os w)) as Hge.
    destruct (Z.eqb_spec (fresh_fd (os w)) (-1)) as [E|_]; [lia|].
    eexists. split; [reflexivity|].
    unfold set_os; cbn [os trace]. rewrite close_fresh.
    repeat split; reflexivity.
  - destruct (LockFile_not_acquirable path w Ha) as (w' & Hl & Hrest).
    rewrite (bind_Done _ _ _ _ _ Hl). simpl. eauto.
Qed.

Lemma Lock_result (d : OpenCL_device) (path : string) (w : world) :
  lock_path d = Some path ->
  if acquirable (os w) path
  then Lock d w
       = Done (set_lock true (fresh_fd (os w)) d)
           (set_os (set_held ((fresh_fd (os w), path) :: held (os w))
                      (set_created (path :: created (os w)) (os w))) w)
  else exists w', Lock d w = Aborted "An error occurred locking the file!" w'.
Proof.
  unfold lock_path, Lock. destruct (parent_platform d) as [pp|]; [|discriminate].
  intros ->. destruct (acquirable (os w) path) eqn:Ha.
  - rewrite (bind_Done _ _ _ _ _ (LockFile_acquirable path w Ha)).
    pose proof (fresh_fd_ge (os w)) as Hge.
    destruct (Z.eqb_spec (fresh_fd (os w)) (-1)) as [E|_]; [lia|]. reflexivity.
  - destruct (LockFile_not_acquirable path w Ha) as (w' & Hl & _).
    rewrite (bind_Done _ _ _ _ _ Hl). simpl. eauto.
Qed.

(** C3, as the code has it.  The discovery-time probe reports a device in
    use exactly when its attempt to take the lock fails, whatever the
    reason: the lock file cannot be opened, the lock is held already, or
    [flock] fails otherwise.  Either way the probe keeps no lock.  An
    explicit [Lock()] aborts on exactly the same failures, a lock that is
    already held among them, and keeps the lock when it is granted. *)
Theorem probe_and_Lock_failures (device_id platform_id_offset : Z)
        (platform_name device_name path : string) (w : world) :
  get_lock_filename device_id platform_id_offset platform_name device_name
  = Some path ->
  (exists w',
      Verify_if_Device_is_Used device_id platform_id_offset
        platform_name device_name w
      = Done (negb (acquirable (os w) path)) w'
      /\ held (os w') = held (os w))
  /\ (forall d, lock_path d = Some path ->
        (acquirable (os w) path = true ->
         exists d' w', Lock d w = Done d' w'
                       /\ file_locked d' = true
                       /\ In (lock_file d', path) (held (os w')))
        /\ (acquirable (os w) path = false ->
            exists w', Lock d w = Aborted "An error occurred locking the file!" w'))
  /\ (is_locked (os w) path = true -> acquirable (os w) path = false).
Proof.
  intros Hp. split; [|split].
  - destruct (Verify_result _ _ _ _ _ w Hp) as (w' & Hv & Hh & _). eauto.
  - intros d Hd. pose proof (Lock_result d path w Hd) as HL.
    split; intros Ha; rewrite Ha in HL.
    + eexists _, _. split; [exact HL|]. split; [reflexivity|].
      simpl. now left.
    + exact HL.
  - apply locked_not_acquirable.
Qed.

Lemma probe_and_Lock_failures_witness :
  exists w',
    Verify_if_Device_is_Used 0 0 "P" "D" Scenario.w_unopenable = Done true w'
    /\ held (os w') = [].
Proof.
  exact (proj1 (probe_and_Lock_failures 0 0 "P" "D"
                  "/tmp/gpuPlatform__0__Device__0__P__D_.lck"
                  Scenario.w_unopenable eq_refl)).
Defined.

(** C3 as stated fails: on a machine where the lock file cannot be opened
    the probe reports the device in use although nobody holds its lock. *)
Lemma probe_in_use_without_lock_held :
  Verify_if_Device_is_Used 0 0 "P" "D" Scenario.w_unopenable
  = Done true Scenario.w_unopenable
  /\ get_lock_filename 0 0 "P" "D"
     = Some "/tmp/gpuPlatform__0__Device__0__P__D_.lck"%string
  /\ is_locked (os Scenario.w_unopenable)
       "/tmp/gpuPlatform__0__Device__0__P__D_.lck" = false.
Proof. repeat split. Qed.

Lemma Lock_inv (d d1 : OpenCL_device) (w w1 : world) :
  Lock d w = Done d1 w1 ->
  exists path, lock_path d = Some path /\ acquirable (os w) path = true.
Proof.
  intros HL. destruct (lock_path d) as [path|] eqn:Hp.
  - exists path. split; [reflexivity|].
    pose proof (Lock_result d path w Hp) as H.
    destruct (acquirable (os w) path); [reflexivity|].
    destruct H as (w' & H). congruence.
  - unfold lock_path, Lock in *.
    destruct (parent_platform d); [|discriminate].
    rewrite Hp in HL. discriminate.
Qed.

(** C8.  [Unlock()] always returns; it closes the lock descriptor when the
    device holds its lock and changes nothing otherwise, so a second
    [Unlock()] in a row changes nothing.  After a [Lock()] that succeeded,
    [Unlock()] leaves the lock file in place and unlocked, and a further
    [Lock()] succeeds. *)
Theorem Unlock_idempotent_and_relock (d : OpenCL_device) (w : world) :
  (exists d1 w1,
      Unlock d w = Done d1 w1
      /\ file_locked d1 = false
      /\ (file_locked d = true -> os w1 = close (lock_file d) (os w))
      /\ (file_locked d = false -> d1 = d /\ w1 = w)
      /\ Unlock d1 w1 = Done d1 w1)
  /\ (forall d1 w1,
        Lock d w = Done d1 w1 ->
        exists path d2 w2,
          lock_path d = Some path
          /\ is_locked (os w1) path = true
          /\ Unlock d1 w1 = Done d2 w2
          /\ is_locked (os w2) path = false
          /\ In path (created (os w2))
          /\ exists d3 w3, Lock d2 w2 = Done d3 w3 /\ file_locked d3 = true).
Proof.
  split.
  - unfold Unlock. destruct (file_locked d) eqn:Hf.
    + eexists _, _. split; [reflexivity|]. repeat split; try discriminate.
    + exists d, w. rewrite Hf. repeat split; congruence.
  - intros d1 w1 HL.
    destruct (Lock_inv _ _ _ _ HL) as (path & Hp & Ha).
    pose proof (Lock_result d path w Hp) as H. rewrite Ha in H.
    rewrite H in HL. injection HL as <- <-.
    pose proof (acquirable_unlocked _ _ Ha) as Hfree.
    exists path. eexists _, _. split; [exact Hp|].
    split.
    { unfold is_locked, locked_here. cbn. rewrite String.eqb_refl.
      apply orb_true_r. }
    split; [reflexivity|].
    set (w2 := set_os _ _).
    assert (Hh : held (os w2) = held (os w)).
    { subst w2. unfold set_os; cbn [os trace set_lock lock_file].
      apply close_fresh. }
    split.
    { unfold is_locked, locked_here in *. rewrite Hh. exact Hfree. }
    split; [now left|].
    assert (Ha2 : acquirable (os w2) path = true).
    { rewrite <- Ha. apply acquirable_ext; try reflexivity. exact Hh. }
    pose proof (Lock_result (set_lock false (fresh_fd (os w)) (set_lock true (fresh_fd (os w)) d))
                  path w2 Hp) as H2.
    rewrite Ha2 in H2. eexists _, _. split; [exact H2|reflexivity].
Qed.

Lemma Unlock_idempotent_and_relock_witness :
  exists path d2 w2,
    lock_path Scenario.a_device = Some path
    /\ Unlock (set_lock true 3 Scenario.a_device)
         (set_os (set_held [(3, path)]
                    (set_created [path] Scenario.os_free)) Scenario.w_free)
       = Done d2 w2
    /\ is_locked (os w2) path = false
    /\ exists d3 w3, Lock d2 w2 = Done d3 w3 /\ file_locked d3 = true.
Proof.
  destruct (proj2 (Unlock_idempotent_and_relock Scenario.a_device Scenario.w_free)
              _ _ eq_refl)
    as (path & d2 & w2 & Hp & _ & Hu & Hfree & _ & Hrelock).
  injection Hp as <-.
  exists "/tmp/gpuPlatform__0__Device__0__P__D_.lck"%string, d2, w2.
  repeat split; assumption.
Defined.

End ReservationFacts.

(** ** Sorting *)

Module SortFacts.
Import ListSort.

Section Merge.
Context {A : Type} (less : A -> A -> bool).

Hypothesis less_asym : forall a b, less a b = true -> less b a = false.

Lemma merge_perm (l1 l2 : list A) : merge less l1 l2 ≡ₚ l1 ++ l2.
Proof.
  revert l2. induction l1 as [|a l1 IH1]; intros l2; [now destruct l2|].
  induction l2 as [|b l2 IH2].
  - now rewrite app_nil_r.
  - cbn [merge]. destruct (less b a).
    + change (b :: merge less (a :: l1) l2 ≡ₚ (a :: l1) ++ b :: l2).
      rewrite IH2. now rewrite Permutation_middle.
    + now rewrite IH1.
Qed.

Lemma merge_HdRel (x : A) (l1 l2 : list A) :
  HdRel (before less) x l1 -> HdRel (before less) x l2 -> HdRel (before less) x (merge less l1 l2).
Proof.
  destruct l1 as [|a l1], l2 as [|b l2]; cbn [merge]; auto.
  intros H1 H2. destruct (less b a); constructor.
  - now apply HdRel_inv in H2.
  - now apply HdRel_inv in H1.
Qed.

Lemma merge_sorted (l1 l2 : list A) :
  Sorted (before less) l1 -> Sorted (before less) l2 -> Sorted (before less) (merge less l1 l2).
Proof.
  revert l2. induction l1 as [|a l1 IH1]; intros l2 H1 H2; [now destruct l2|].
  induction l2 as [|b l2 IH2]; [exact H1|].
  cbn [merge]. destruct (less b a) eqn:E.
  - change (Sorted (before less) (b :: merge less (a :: l1) l2)).
    apply Sorted_inv in H2 as [H2 Hb]. constructor; [now apply IH2|].
    apply merge_HdRel; [|exact Hb].
    constructor. unfold before. now apply less_asym.
  - apply Sorted_inv in H1 as [H1 Ha]. constructor; [now apply IH1|].
    apply merge_HdRel; [exact Ha|]. now constructor.
Qed.

Lemma carry_up_perm (carry : list A) (tmp : list (list A)) :
  concat (carry_up less carry tmp) ≡ₚ carry ++ concat tmp.
Proof.
  revert carry. induction tmp as [|bin tmp IH]; intros carry; simpl.
  - reflexivity.
  - destruct bin as [|b bin]; [reflexivity|].
    cbn [concat app]. rewrite IH, merge_perm.
    rewrite <- !app_assoc. apply Permutation_app_swap_app.
Qed.

Lemma carry_up_sorted (carry : list A) (tmp : list (list A)) :
  Sorted (before less) carry -> Forall (Sorted (before less)) tmp ->
  Forall (Sorted (before less)) (carry_up less carry tmp).
Proof.
  revert carry. induction tmp as [|bin tmp IH]; intros carry Hc Ht; simpl.
  - now repeat constructor.
  - apply Forall_cons_1 in Ht as [Hb Ht].
    destruct bin as [|b bin]; [now constructor|].
    constructor; [constructor|]. apply IH; [|exact Ht].
    now apply merge_sorted.
Qed.

Lemma merge_bins_perm (acc : list A) (tmp : list (list A)) :
  merge_bins less acc tmp ≡ₚ acc ++ concat tmp.
Proof.
  revert acc. induction tmp as [|bin tmp IH]; intros acc; simpl.
  - now rewrite app_nil_r.
  - rewrite IH, merge_perm. rewrite <- !app_assoc.
    apply Permutation_app_swap_app.
Qed.

Lemma merge_bins_sorted (acc : list A) (tmp : list (list A)) :
  Sorted (before less) acc -> Forall (Sorted (before less)) tmp ->
  Sorted (before less) (merge_bins less acc tmp).
Proof.
  revert acc. induction tmp as [|bin tmp IH]; intros acc Ha Ht; simpl.
  - exact Ha.
  - apply Forall_cons_1 in Ht as [Hb Ht]. apply IH; [|exact Ht].
    now apply merge_sorted.
Qed.

Lemma fill_from_perm (l : list A) (tmp : list (list A)) :
  concat (fold_left (fun tmp x => carry_up less [x] tmp) l tmp)
  ≡ₚ l ++ concat tmp.
Proof.
  revert tmp. induction l as [|x l IH]; intros tmp; simpl; [reflexivity|].
  rewrite IH, carry_up_perm. simpl. now rewrite Permutation_middle.
Qed.

Lemma fill_from_sorted (l : list A) (tmp : list (list A)) :
  Forall (Sorted (before less)) tmp ->
  Forall (Sorted (before less)) (fold_left (fun tmp x => carry_up less [x] tmp) l tmp).
Proof.
  revert tmp. induction l as [|x l IH]; intros tmp Ht; simpl; [exact Ht|].
  apply IH, carry_up_sorted; [|exact Ht]. repeat constructor.
Qed.

(** The sort rearranges the list and leaves no element in front of one it
    should follow. *)
Lemma sort_perm (l : list A) : sort less l ≡ₚ l.
Proof.
  unfold sort, fill_bins. rewrite merge_bins_perm, fill_from_perm.
  simpl. now rewrite app_nil_r.
Qed.

Lemma sort_sorted (l : list A) : Sorted (before less) (sort less l).
Proof.
  unfold sort, fill_bins. apply merge_bins_sorted; [constructor|].
  apply fill_from_sorted. constructor.
Qed.

End Merge.

Lemma StronglySorted_lookup {A} (R : A -> A -> Prop) (l : list A) :
  StronglySorted R l ->
  forall i j x y, (i < j)%nat -> l !! i = Some x -> l !! j = Some y -> R x y.
Proof.
  induction 1 as [|a l Hs IH Hall]; intros i j x y Hij Hi Hj.
  - discriminate.
  - destruct j as [|j]; [lia|]. simpl in Hj.
    destruct i as [|i]; simpl in Hi.
    + injection Hi as <-. rewrite Forall_forall in Hall.
      apply Hall. eapply list_elem_of_lookup_2. exact Hj.
    + apply (IH i j); [lia|assumption..].
Qed.

End SortFacts.

(** ** The preference order *)

Module PreferenceFacts.
Import Device ListSort SortFacts.

Lemma lt_free_busy (a b : OpenCL_device) :
  device_is_in_use a <> device_is_in_use b ->
  (lt a b = true <-> device_is_in_use a = false).
Proof.
  unfold lt. destruct (device_is_in_use a), (device_is_in_use b); simpl;
    intros H; try congruence; split; congruence.
Qed.

Lemma lt_compute_units (a b : OpenCL_device) :
  device_is_in_use a = device_is_in_use b ->
  (lt a b = true <-> max_compute_units a > max_compute_units b).
Proof.
  unfold lt. destruct (device_is_in_use a), (device_is_in_use b); simpl;
    intros H; try discriminate;
    destruct (Z.gtb_spec (max_compute_units a) (max_compute_units b));
    split; (congruence || lia).
Qed.

Lemma lt_asym (a b : OpenCL_device) : lt a b = true -> lt b a = false.
Proof.
  unfold lt. destruct (device_is_in_use a), (device_is_in_use b); simpl;
    try congruence;
    destruct (Z.gtb_spec (max_compute_units a) (max_compute_units b)),
             (Z.gtb_spec (max_compute_units b) (max_compute_units a));
    (congruence || lia).
Qed.

Lemma before_trans : Transitive (before lt).
Proof.
  intros a b c. unfold before, lt.
  destruct (device_is_in_use a), (device_is_in_use b), (device_is_in_use c);
    simpl; try congruence;
    destruct (Z.gtb_spec (max_compute_units b) (max_compute_units a)),
             (Z.gtb_spec (max_compute_units c) (max_compute_units b)),
             (Z.gtb_spec (max_compute_units c) (max_compute_units a));
    (congruence || lia).
Qed.

Lemma sort_lt_pairs (l : list OpenCL_device) (i j : nat) (x y : OpenCL_device) :
  (i < j)%nat -> sort lt l !! i = Some x -> sort lt l !! j = Some y ->
  lt y x = false.
Proof.
  apply (StronglySorted_lookup (before lt)).
  apply Sorted_StronglySorted; [exact before_trans|].
  apply sort_sorted. exact lt_asym.
Qed.

(** C2.  The comparator puts a free device before a busy one whatever their
    compute units, and among devices of equal in-use status the one with
    strictly more compute units first.  The sorted list is a rearrangement
    of the devices in which every free device stands before every busy
    one, and in which compute units never increase from a device to a later
    one of the same in-use status. *)
Theorem preference_order (a b : OpenCL_device) (l : list OpenCL_device) :
  (device_is_in_use a <> device_is_in_use b ->
   (lt a b = true <-> device_is_in_use a = false))
  /\ (device_is_in_use a = device_is_in_use b ->
      (lt a b = true <-> max_compute_units a > max_compute_units b))
  /\ sort lt l ≡ₚ l
  /\ (forall i j x y,
         sort lt l !! i = Some x -> sort lt l !! j = Some y ->
         device_is_in_use x = false -> device_is_in_use y = true ->
         (i < j)%nat)
  /\ (forall i j x y,
         (i < j)%nat ->
         sort lt l !! i = Some x -> sort lt l !! j = Some y ->
         device_is_in_use x = device_is_in_use y ->
         max_compute_units y <= max_compute_units x).
Proof.
  split; [apply lt_free_busy|]. split; [apply lt_compute_units|].
  split; [apply sort_perm|]. split.
  - intros i j x y Hx Hy Hfree Hbusy.
    destruct (Nat.lt_trichotomy i j) as [Hlt|[->|Hgt]]; [exact Hlt| |].
    + rewrite Hx in Hy. injection Hy as ->. congruence.
    + pose proof (sort_lt_pairs l j i y x Hgt Hy Hx) as H.
      unfold lt in H. rewrite Hfree, Hbusy in H. discriminate.
  - intros i j x y Hij Hx Hy Hsame.
    pose proof (sort_lt_pairs l i j x y Hij Hx Hy) as H.
    destruct (Z_le_gt_dec (max_compute_units y) (max_compute_units x))
      as [Hle|Hgt]; [exact Hle|].
    apply (lt_compute_units y x (eq_sym Hsame)) in Hgt. congruence.
Qed.

Lemma preference_order_witness :
  lt Scenario.dev_gpu0 Scenario.dev_gpu1 = true
  /\ max_compute_units Scenario.dev_cpu <= max_compute_units Scenario.dev_gpu0
  /\ (0 < 2)%nat.
Proof.
  destruct (preference_order Scenario.dev_gpu0 Scenario.dev_gpu1
              [Scenario.dev_cpu; Scenario.dev_gpu0; Scenario.dev_gpu1])
    as (Hfree & _ & _ & Hfirst & Hunits).
  split; [|split].
  - apply Hfree; [discriminate|reflexivity].
  - apply (Hunits 0%nat 1%nat Scenario.dev_gpu0 Scenario.dev_cpu);
      [lia|reflexivity..].
  - apply (Hfirst 0%nat 2%nat Scenario.dev_gpu0 Scenario.dev_gpu1);
      reflexivity.
Defined.

(** The worked example of the documentation: the free GPU, then the CPU,
    then the busy GPU. *)
Example sort_example :
  sort lt [Scenario.dev_cpu; Scenario.dev_gpu0; Scenario.dev_gpu1]
  = [Scenario.dev_gpu0; Scenario.dev_cpu; Scenario.dev_gpu1].
Proof. reflexivity. Qed.

End PreferenceFacts.

(** ** Discovery of the devices of a platform *)

Module DiscoveryFacts.
Import Sys OpenCL LockName LockFiles Device DeviceRegistry Spec SysFacts
       LockFacts ReservationFacts.

Tactic Notation "inv_bind" hyp(H) "as" ident(a) ident(w) ident(H1) :=
  apply bind_inv_Done in H as (a & w & H1 & H).

Lemma Test_Success_inv (err : Z) (msg : string) (w w' : world) (u : unit) :
  OpenCL_Test_Success err msg w = Done u w' -> err = CL_SUCCESS /\ w' = w.
Proof.
  unfold OpenCL_Test_Success, ret, abort.
  destruct (Z.eqb_spec err CL_SUCCESS); intros H; [|discriminate].
  injection H as _ <-. now split.
Qed.

Section WithApi.
Variable api : opencl_api.

Lemma Set_Information_inv (d d' : OpenCL_device) (i dev off : Z) (pn : string)
      (g : bool) (w w' : world) :
  Set_Information api d i dev off pn g w = Done d' w' ->
  informed api i dev g d d'
  /\ trace w' = trace w /\ held (os w') = held (os w).
Proof.
  unfold Set_Information. intros H.
  inv_bind H as u1 w1 H1. apply Test_Success_inv in H1 as [_ ->].
  inv_bind H as u2 w2 H2.
  assert (w2 = w) as ->.
  { destruct (CString.contains _ _).
    - now apply Test_Success_inv in H2 as [_ ->].
    - unfold ret in H2. now injection H2 as _ <-. }
  inv_bind H as u3 w3 H3.
  assert (w3 = w) as ->.
  { destruct (known_type _); [|discriminate].
    unfold ret in H3. now injection H3 as _ <-. }
  inv_bind H as used w4 Hstep1. unfold ret in H. injection H as <- <-.
  cbn [d_id d_name set_information] in Hstep1.
  destruct (get_lock_filename i off pn (string_of_buffer (di_name (clGetDeviceInfo api dev))))
    as [path|] eqn:Hp.
  2:{ unfold Verify_if_Device_is_Used in Hstep1. rewrite Hp in Hstep1. discriminate. }
  destruct (Verify_result _ _ _ _ _ w Hp) as (w' & Hv & Hh & Ht & _).
  rewrite Hv in Hstep1. injection Hstep1 as <- <-.
  split; [now eexists|]. now split.
Qed.

Lemma add_devices_inv (pv : platform_view) (g : bool) (first : nat)
      (tmp : list Z) (rem : nat) :
  forall (i it : nat) (l : list OpenCL_device) (flag : bool) (w : world)
         (l' : list OpenCL_device) (flag' : bool) (w' : world),
    add_devices api pv g first tmp rem i it l flag w = Done (l', flag') w' ->
    length l' = length l
    /\ trace w' = trace w
    /\ (forall j, (j < it \/ it + rem <= j)%nat -> l' !! j = l !! j)
    /\ (forall k, (k < rem)%nat ->
          exists d0 d', l !! (it + k)%nat = Some d0
                        /\ l' !! (it + k)%nat = Some d'
                        /\ informed api (to_int (Z.of_nat (first + (i + k))))
                             (nth (i + k) tmp 0) g d0 d')
    /\ flag' = flag && forallb device_is_in_use (take rem (drop it l')).
Proof.
  induction rem as [|rem IH]; intros i it l flag w l' flag' w' H; simpl in H.
  - unfold ret in H. injection H as <- <- <-.
    repeat split; try reflexivity; [intros; lia|].
    rewrite take_0. simpl. now rewrite andb_true_r.
  - destruct (l !! it) as [d0|] eqn:Hd0; [|discriminate].
    inv_bind H as d1 w1 Hstep.
    apply Set_Information_inv in Hstep as (Hinf & Ht1 & _).
    apply IH in H as (Hlen & Ht & Hout & Hin & Hflag).
    assert (Hit : (it < length l)%nat) by (eapply lookup_lt_Some; eauto).
    assert (Hd1 : l' !! it = Some d1).
    { rewrite Hout by lia. now apply list_lookup_insert_eq. }
    split; [now rewrite Hlen, length_insert|].
    split; [congruence|].
    split.
    { intros j Hj. rewrite Hout by lia. apply list_lookup_insert_ne. lia. }
    split.
    { intros k Hk. destruct k as [|k].
      - exists d0, d1. rewrite !Nat.add_0_r. auto.
      - destruct (Hin k ltac:(lia)) as (e0 & e' & He0 & He' & Hinf').
        exists e0, e'. replace (it + S k)%nat with (S it + k)%nat by lia.
        replace (i + S k)%nat with (S i + k)%nat by lia.
        split; [|auto].
        rewrite <- He0. symmetry. apply list_lookup_insert_ne. lia. }
    rewrite Hflag. rewrite (drop_S _ _ _ Hd1). cbn [take forallb].
    unfold Is_In_Use. destruct (device_is_in_use d1), flag; reflexivity.
Qed.

Lemma add_kind_inv (pv : platform_view) (type : Z) (g : bool)
      (first nb it : nat) (l : list OpenCL_device) (flag : bool) (w : world)
      (l' : list OpenCL_device) (flag' : bool) (w' : world) :
  add_kind api pv type g first nb it l flag w = Done (l', flag') w' ->
  length l' = length l
  /\ trace w' = trace w
  /\ (forall j, (j < it \/ it + nb <= j)%nat -> l' !! j = l !! j)
  /\ (forall k, (k < nb)%nat ->
        exists d0 d', l !! (it + k)%nat = Some d0
                      /\ l' !! (it + k)%nat = Some d'
                      /\ informed api (to_int (Z.of_nat (first + k)))
                           (nth k (snd (clGetDeviceIDs_list api (pv_id pv) type nb)) 0)
                           g d0 d')
  /\ flag' = flag && forallb device_is_in_use (take nb (drop it l')).
Proof.
  unfold add_kind. destruct (Nat.leb_spec 1 nb) as [Hnb|Hnb].
  - destruct (clGetDeviceIDs_list api (pv_id pv) type nb) as [err tmp].
    intros H. inv_bind H as u1 w1 Hstep.
    apply Test_Success_inv in Hstep as [_ ->].
    now apply add_devices_inv in H.
  - unfold ret. intros H. injection H as <- <- <-.
    assert (nb = 0%nat) as -> by lia.
    repeat split; try reflexivity; [intros; lia|].
    rewrite take_0. simpl. now rewrite andb_true_r.
Qed.

Lemma Unlock_trace (d d' : OpenCL_device) (w w' : world) :
  Unlock d w = Done d' w' ->
  trace w' = trace w /\ is_lockable d' = is_lockable d.
Proof.
  unfold Unlock. destruct (file_locked d).
  - intros H. inv_bind H as u1 w1 Hstep. unfold UnlockFile in Hstep.
    injection Hstep as _ <-. unfold ret in H. injection H as <- <-.
    now split.
  - unfold ret. intros H. injection H as <- <-. now split.
Qed.

Lemma destroy_all_trace (l : list OpenCL_device) (w w' : world) (u : unit) :
  destroy_all l w = Done u w' -> trace w' = trace w.
Proof.
  revert w. induction l as [|d l IH]; intros w H; simpl in H.
  - unfold ret in H. now injection H as _ <-.
  - inv_bind H as u1 w1 Hstep. apply IH in H. rewrite H.
    unfold destroy in Hstep. inv_bind Hstep as d1 w2 Hu.
    unfold ret in Hstep. injection Hstep as _ <-.
    now apply Unlock_trace in Hu as [-> _].
Qed.

Lemma resize_inv (n : nat) (l l' : list OpenCL_device) (w w' : world) :
  resize n l w = Done l' w' ->
  length l' = n /\ trace w' = trace w
  /\ (Forall (fun d => is_lockable d = true) l ->
      Forall (fun d => is_lockable d = true) l').
Proof.
  unfold resize. destruct (Nat.leb_spec n (length l)) as [Hn|Hn]; intros H.
  - inv_bind H as u1 w1 Hstep. unfold ret in H. injection H as <- <-.
    apply destroy_all_trace in Hstep.
    split; [rewrite length_take; lia|]. split; [exact Hstep|].
    apply Forall_take.
  - unfold ret in H. injection H as <- <-.
    split; [rewrite length_app, length_replicate; lia|]. split; [reflexivity|].
    intros Hl. apply Forall_app. split; [exact Hl|].
    apply Forall_replicate. reflexivity.
Qed.

Lemma count_devices_inv (pid type : Z) (nb : nat) (w w' : world) :
  count_devices api pid type w = Done nb w' ->
  nb = snd (clGetDeviceIDs_count api pid type) /\ w' = w.
Proof.
  unfold count_devices. destruct (clGetDeviceIDs_count api pid type) as [err n].
  intros H. inv_bind H as u1 w1 Hstep.
  apply Test_Success_inv in Hstep as [_ ->].
  unfold ret in H. injection H as <- <-. now split.
Qed.

(** The devices as the two loops leave them. *)
Lemma enumerate_inv (r : OpenCL_devices_list) (pv : platform_view)
      (w w1 : world) (e : enumeration) :
  enumerate api r pv w = Done e w1 ->
  e_nb_cpu e = snd (clGetDeviceIDs_count api (pv_id pv) CL_DEVICE_TYPE_CPU)
  /\ e_nb_gpu e = snd (clGetDeviceIDs_count api (pv_id pv) CL_DEVICE_TYPE_GPU)
  /\ (1 <= e_nb_cpu e + e_nb_gpu e)%nat
  /\ length (e_devices e) = (e_nb_cpu e + e_nb_gpu e)%nat
  /\ trace w1 = trace w
  /\ e_all_in_use e = forallb device_is_in_use (e_devices e)
  /\ (forall j, (j < e_nb_cpu e)%nat ->
        exists d0 d, e_devices e !! j = Some d
          /\ informed api (to_int (Z.of_nat j))
               (nth j (snd (clGetDeviceIDs_list api (pv_id pv)
                              CL_DEVICE_TYPE_CPU (e_nb_cpu e))) 0)
               false d0 d)
  /\ (forall k, (k < e_nb_gpu e)%nat ->
        exists d0 d, e_devices e !! (e_nb_cpu e + k)%nat = Some d
          /\ informed api (to_int (Z.of_nat (e_nb_cpu e + k)))
               (nth k (snd (clGetDeviceIDs_list api (pv_id pv)
                              CL_DEVICE_TYPE_GPU (e_nb_gpu e))) 0)
               true d0 d)
  /\ (Forall (fun d => is_lockable d = true) (device_list r) ->
      Forall (fun d => is_lockable d = true) (e_devices e)).
Proof.
  unfold enumerate. intros H.
  inv_bind H as nb_gpu wa Hstep.
  apply count_devices_inv in Hstep as [Hgpu ->].
  inv_bind H as nb_cpu wb Hstep.
  apply count_devices_inv in Hstep as [Hcpu ->].
  destruct (Nat.leb_spec 1 (nb_devices nb_cpu nb_gpu)) as [Hnb|Hnb];
    [|discriminate]. cbn [negb] in H.
  inv_bind H as l0 wc Hstep.
  apply resize_inv in Hstep as (Hlen0 & Ht0 & Hlk0).
  inv_bind H as cpus wd Hstep. destruct cpus as [l1 f1].
  apply add_kind_inv in Hstep as (Hlen1 & Ht1 & Hout1 & Hin1 & Hf1).
  inv_bind H as gpus we Hstep. destruct gpus as [l2 f2]. cbn [fst snd] in *.
  apply add_kind_inv in Hstep as (Hlen2 & Ht2 & Hout2 & Hin2 & Hf2).
  unfold ret in H. injection H as <- <-. cbn [e_nb_cpu e_nb_gpu e_devices e_all_in_use].
  unfold nb_devices in *.
  assert (Hlen : length l2 = (nb_cpu + nb_gpu)%nat) by congruence.
  split; [exact Hcpu|]. split; [exact Hgpu|]. split; [exact Hnb|].
  split; [exact Hlen|]. split; [congruence|].
  assert (Hcpus : forall j, (j < nb_cpu)%nat ->
            exists d0 d, l0 !! j = Some d0 /\ l2 !! j = Some d
              /\ informed api (to_int (Z.of_nat j))
                   (nth j (snd (clGetDeviceIDs_list api (pv_id pv)
                                  CL_DEVICE_TYPE_CPU nb_cpu)) 0) false d0 d).
  { intros j Hj. destruct (Hin1 j Hj) as (d0 & d & Hd0 & Hd & Hinf).
    exists d0, d. simpl in *. rewrite Hout2 by lia. auto. }
  assert (Hgpus : forall k, (k < nb_gpu)%nat ->
            exists d0 d, l0 !! (nb_cpu + k)%nat = Some d0
              /\ l2 !! (nb_cpu + k)%nat = Some d
              /\ informed api (to_int (Z.of_nat (nb_cpu + k)))
                   (nth k (snd (clGetDeviceIDs_list api (pv_id pv)
                                  CL_DEVICE_TYPE_GPU nb_gpu)) 0) true d0 d).
  { intros k Hk. destruct (Hin2 k Hk) as (d0 & d & Hd0 & Hd & Hinf).
    exists d0, d. rewrite <- (Hout1 (nb_cpu + k)%nat) by lia. auto. }
  split.
  { rewrite Hf2, Hf1. cbn [andb]. rewrite drop_0.
    rewrite (take_ge (drop nb_cpu l2)) by (rewrite length_drop; lia).
    assert (Ht12 : take nb_cpu l1 = take nb_cpu l2).
    { apply list_eq. intros j.
      destruct (Nat.lt_ge_cases j nb_cpu) as [Hj|Hj].
      - rewrite !lookup_take_lt by lia. symmetry. apply Hout2. lia.
      - rewrite !lookup_take_ge by lia. reflexivity. }
    rewrite Ht12, <- forallb_app, take_drop. reflexivity. }
  split.
  { intros j Hj. destruct (Hcpus j Hj) as (d0 & d & _ & Hd & Hinf). eauto. }
  split.
  { intros k Hk. destruct (Hgpus k Hk) as (d0 & d & _ & Hd & Hinf). eauto. }
  intros Hlk. specialize (Hlk0 Hlk). rewrite Forall_lookup in Hlk0 |- *.
  intros j d Hd.
  assert (Hj : (j < nb_cpu + nb_gpu)%nat)
    by (rewrite <- Hlen; eapply lookup_lt_Some; eauto).
  destruct (Nat.lt_ge_cases j nb_cpu) as [Hc|Hc].
  - destruct (Hcpus j Hc) as (d0 & d' & Hd0 & Hd' & used & ->).
    rewrite Hd in Hd'. injection Hd' as ->. simpl. eapply Hlk0; eauto.
  - destruct (Hgpus (j - nb_cpu)%nat ltac:(lia)) as (d0 & d' & Hd0 & Hd' & used & ->).
    replace (nb_cpu + (j - nb_cpu))%nat with j in * by lia.
    rewrite Hd in Hd'. injection Hd' as ->. simpl. eapply Hlk0; eauto.
Qed.

End WithApi.
End DiscoveryFacts.

(** ** The search for a device that accepts a context *)

Module ContextFacts.
Import Sys OpenCL Device DeviceRegistry Spec SysFacts DiscoveryFacts.

Section WithApi.
Variable api : opencl_api.

Lemma Set_Context_eq (d : OpenCL_device) (w : world) :
  Set_Context api d w
  = Done (context_error api d, with_context api d)
      (log (EvCreateContext (d_device d)) w).
Proof.
  unfold Set_Context, context_error, with_context, bind, emit, ret.
  now destruct (clCreateContext api (d_device d)).
Qed.

(** The loop stops at the first device that accepts a context, having
    tried exactly the devices up to it. *)
Lemma context_loop_success (rem : nat) :
  forall (it : nat) (l : list OpenCL_device) (w : world) (k : nat)
         (d : OpenCL_device),
    (it <= k < it + rem)%nat ->
    l !! k = Some d ->
    context_error api d = CL_SUCCESS ->
    (forall j d', (it <= j < k)%nat -> l !! j = Some d' ->
                  context_error api d' <> CL_SUCCESS) ->
    exists l' w',
      context_loop api rem it l w = Done (l', Some k) w'
      /\ l' !! k = Some (with_context api d)
      /\ os w' = os w
      /\ trace w' = trace w ++ context_events (take (S k - it) (drop it l)).
Proof.
  induction rem as [|rem IH]; intros it l w k d Hk Hd Hok Hfail; [lia|].
  assert (Hlen : (k < length l)%nat) by (eapply lookup_lt_Some; eauto).
  destruct (lookup_lt_is_Some_2 l it ltac:(lia)) as [d0 Hd0].
  cbn [context_loop]. rewrite Hd0.
  rewrite (bind_Done _ _ _ _ _ (Set_Context_eq d0 w)). cbn [fst snd].
  rewrite (drop_S _ _ _ Hd0).
  destruct (Nat.eq_dec it k) as [->|Hne].
  - rewrite Hd in Hd0. injection Hd0 as <-.
    rewrite Hok, Z.eqb_refl. eexists _, _. split; [reflexivity|].
    split; [now apply list_lookup_insert_eq|]. split; [reflexivity|].
    replace (S k - k)%nat with 1%nat by lia. reflexivity.
  - assert (Hd0_fail : context_error api d0 <> CL_SUCCESS)
      by (apply (Hfail it); [lia|exact Hd0]).
    apply Z.eqb_neq in Hd0_fail. rewrite Hd0_fail.
    destruct (IH (S it) (<[it := with_context api d0]> l)
                (log (EvCreateContext (d_device d0)) w) k d)
      as (l' & w' & Hrun & Hl' & Hos & Htr).
    + lia.
    + rewrite list_lookup_insert_ne by lia. exact Hd.
    + exact Hok.
    + intros j d' Hj Hd'. rewrite list_lookup_insert_ne in Hd' by lia.
      apply (Hfail j); [lia|exact Hd'].
    + exists l', w'. split; [exact Hrun|]. split; [exact Hl'|].
      split; [exact Hos|]. rewrite Htr. cbn [log trace].
      rewrite drop_insert_lt by lia.
      replace (S k - it)%nat with (S (S k - S it)) by lia.
      cbn [take context_events map]. now rewrite <- app_assoc.
Qed.

(** When no device accepts a context the loop tries them all and leaves
    [preferred_device] null. *)
Lemma context_loop_failure (rem : nat) :
  forall (it : nat) (l : list OpenCL_device) (w : world),
    (length l <= it + rem)%nat ->
    (forall j d', (it <= j)%nat -> l !! j = Some d' ->
                  context_error api d' <> CL_SUCCESS) ->
    exists l' w',
      context_loop api rem it l w = Done (l', None) w'
      /\ os w' = os w
      /\ trace w' = trace w ++ context_events (drop it l).
Proof.
  induction rem as [|rem IH]; intros it l w Hlen Hfail.
  - exists l, w. split; [reflexivity|]. split; [reflexivity|].
    rewrite drop_ge by lia. simpl. now rewrite app_nil_r.
  - cbn [context_loop]. destruct (l !! it) as [d0|] eqn:Hd0.
    + rewrite (bind_Done _ _ _ _ _ (Set_Context_eq d0 w)). cbn [fst snd].
      assert (Hd0_fail : context_error api d0 <> CL_SUCCESS)
        by (apply (Hfail it); [lia|exact Hd0]).
      apply Z.eqb_neq in Hd0_fail. rewrite Hd0_fail.
      destruct (IH (S it) (<[it := with_context api d0]> l)
                  (log (EvCreateContext (d_device d0)) w))
        as (l' & w' & Hrun & Hos & Htr).
      * rewrite length_insert. lia.
      * intros j d' Hj Hd'. rewrite list_lookup_insert_ne in Hd' by lia.
        apply (Hfail j); [lia|exact Hd'].
      * exists l', w'. split; [exact Hrun|]. split; [exact Hos|].
        rewrite Htr. cbn [log trace]. rewrite drop_insert_lt by lia.
        rewrite (drop_S _ _ _ Hd0). cbn [context_events map].
        now rewrite <- app_assoc.
    + exists l, w. split; [reflexivity|]. split; [reflexivity|].
      apply lookup_ge_None in Hd0. rewrite drop_ge by lia.
      simpl. now rewrite app_nil_r.
Qed.

(** Whatever the loop does, it only fills in contexts. *)
Lemma context_loop_inv (rem : nat) :
  forall (it : nat) (l : list OpenCL_device) (w : world)
         (l' : list OpenCL_device) (p : option nat) (w' : world),
    context_loop api rem it l w = Done (l', p) w' ->
    Forall2 (fun d d' => d' = d \/ d' = with_context api d) l l'
    /\ platform_inits (trace w') = platform_inits (trace w)
    /\ (forall k, p = Some k -> (k < length l)%nat).
Proof.
  induction rem as [|rem IH]; intros it l w l' p w' H; cbn [context_loop] in H.
  - unfold ret in H. injection H as <- <- <-.
    split; [apply Forall2_same_length_lookup_2; [reflexivity|]; intros; left; congruence|].
    split; [reflexivity|discriminate].
  - destruct (l !! it) as [d0|] eqn:Hd0.
    2:{ unfold ret in H. injection H as <- <- <-.
        split; [apply Forall2_same_length_lookup_2; [reflexivity|]; intros; left; congruence|].
        split; [reflexivity|discriminate]. }
    rewrite (bind_Done _ _ _ _ _ (Set_Context_eq d0 w)) in H. cbn [fst snd] in H.
    assert (Hstep : Forall2 (fun d d' => d' = d \/ d' = with_context api d) l
                      (<[it := with_context api d0]> l)).
    { apply Forall2_same_length_lookup_2; [now rewrite length_insert|].
      intros j x y Hx Hy. destruct (Nat.eq_dec it j) as [->|Hne].
      - rewrite list_lookup_insert_eq in Hy by (eapply lookup_lt_Some; eauto).
        right. congruence.
      - rewrite list_lookup_insert_ne in Hy by exact Hne. left. congruence. }
    assert (Hev : platform_inits (trace (log (EvCreateContext (d_device d0)) w))
                  = platform_inits (trace w)).
    { unfold platform_inits. cbn [log trace]. rewrite omap_app. simpl.
      now rewrite app_nil_r. }
    destruct (context_error api d0 =? CL_SUCCESS).
    + unfold ret in H. injection H as <- <- <-.
      split; [exact Hstep|]. split; [exact Hev|].
      intros k Hk. injection Hk as <-. eapply lookup_lt_Some; eauto.
    + apply IH in H as (HF & Ht & Hp). split; [|split].
      * apply Forall2_same_length_lookup_2.
        { rewrite <- (Forall2_length _ _ _ HF). now rewrite length_insert. }
        intros j x y Hx Hy.
        destruct (Forall2_lookup_r _ _ _ _ _ HF Hy) as (z & Hz & Hzy).
        destruct (Nat.eq_dec it j) as [->|Hne].
        -- rewrite list_lookup_insert_eq in Hz by (eapply lookup_lt_Some; eauto).
           injection Hz as <-. assert (x = d0) as -> by congruence.
           right. destruct Hzy as [->| ->]; [reflexivity|].
           unfold with_context. reflexivity.
        -- rewrite list_lookup_insert_ne in Hz by exact Hne.
           assert (z = x) as -> by congruence. exact Hzy.
      * congruence.
      * intros k Hk. specialize (Hp k Hk). now rewrite length_insert in Hp.
Qed.

End WithApi.
End ContextFacts.

(** ** [OpenCL_devices_list::Initialize] *)

Module InitializeFacts.
Import Sys OpenCL Device DeviceRegistry ListSort Spec SysFacts DiscoveryFacts
       ContextFacts.

Section WithApi.
Variable api : opencl_api.

(** C1.  Once the devices are enumerated and not all of them are in use,
    [Initialize] walks the sorted list trying to create a context on each
    device in turn.  If the device at position [k] is the first that
    accepts a context, [Initialize] returns with that device as the
    preferred one, and the contexts it tried to create are exactly those of
    the first [k + 1] devices, in order: no later device is tried.  If no
    device accepts a context, [Initialize] aborts after trying every
    device. *)
Theorem Initialize_prefers_first_success
        (r : OpenCL_devices_list) (pv : platform_view) (w w1 : world)
        (e : enumeration) :
  enumerate api r pv w = Done e w1 ->
  e_all_in_use e = false ->
  (forall k d,
      sorted_devices pv e !! k = Some d ->
      context_error api d = CL_SUCCESS ->
      (forall j d', (j < k)%nat -> sorted_devices pv e !! j = Some d' ->
                    context_error api d' <> CL_SUCCESS) ->
      exists r' w',
        Initialize api r pv w = Done r' w'
        /\ preferred_device r' = Some k
        /\ device_list r' !! k = Some (with_context api d)
        /\ trace w' = trace w1 ++ context_events (take (S k) (sorted_devices pv e)))
  /\ ((forall k d, sorted_devices pv e !! k = Some d ->
                   context_error api d <> CL_SUCCESS) ->
      exists w',
        Initialize api r pv w
        = Aborted "ERROR: Cannot set an OpenCL context on any of the available devices!" w'
        /\ trace w' = trace w1 ++ context_events (sorted_devices pv e)).
Proof.
  intros Henum Hfree.
  assert (Hrun : Initialize api r pv w
                 = (c <- context_loop api (length (sorted_devices pv e)) 0
                           (sorted_devices pv e) ;;
                    match snd c with
                    | None =>
                        abort "ERROR: Cannot set an OpenCL context on any of the available devices!"
                    | Some k =>
                        ret {| is_initialized := true;
                               dl_platform := Some pv;
                               nb_cpu := e_nb_cpu e;
                               nb_gpu := e_nb_gpu e;
                               device_list := fst c;
                               preferred_device := Some k |}
                    end) w1).
  { unfold Initialize. rewrite (bind_Done _ _ _ _ _ Henum).
    rewrite Hfree. reflexivity. }
  rewrite Hrun. split.
  - intros k d Hd Hok Hfail.
    destruct (context_loop_success api (length (sorted_devices pv e)) 0
                (sorted_devices pv e) w1 k d)
      as (l' & w' & Hloop & Hl' & _ & Htr).
    + apply lookup_lt_Some in Hd. lia.
    + exact Hd.
    + exact Hok.
    + intros j d' Hj. apply Hfail. lia.
    + rewrite (bind_Done _ _ _ _ _ Hloop). cbn [fst snd].
      eexists _, _. split; [reflexivity|]. cbn [preferred_device device_list].
      split; [reflexivity|]. split; [exact Hl'|].
      rewrite Htr, Nat.sub_0_r, drop_0. reflexivity.
  - intros Hfail.
    destruct (context_loop_failure api (length (sorted_devices pv e)) 0
                (sorted_devices pv e) w1)
      as (l' & w' & Hloop & _ & Htr).
    + lia.
    + intros j d' _. apply Hfail.
    + rewrite (bind_Done _ _ _ _ _ Hloop). cbn [fst snd].
      exists w'. split; [reflexivity|]. now rewrite Htr, drop_0.
Qed.

(** C4.  If the probe has marked every enumerated device in use,
    [Initialize] aborts where it tests [is_all_devices_in_use]: it does not
    return, and it has not tried to create a context on any device. *)
Theorem Initialize_all_in_use_aborts
        (r : OpenCL_devices_list) (pv : platform_view) (w w1 : world)
        (e : enumeration) :
  enumerate api r pv w = Done e w1 ->
  Forall (fun d => device_is_in_use d = true) (e_devices e) ->
  Initialize api r pv w = Aborted "All devices are in use!" w1
  /\ trace w1 = trace w.
Proof.
  intros Henum Hall.
  destruct (enumerate_inv api r pv w w1 e Henum)
    as (_ & _ & _ & _ & Htr & Hflag & _).
  split; [|exact Htr].
  unfold Initialize. rewrite (bind_Done _ _ _ _ _ Henum).
  rewrite Hflag. replace (forallb device_is_in_use (e_devices e)) with true.
  - reflexivity.
  - symmetry. apply forallb_forall. intros d Hd.
    rewrite Forall_forall in Hall. apply Hall. now apply list_elem_of_In.
Qed.

Lemma to_int_small (n : nat) :
  Z.of_nat n < 2147483648 -> to_int (Z.of_nat n) = Z.of_nat n.
Proof.
  intros H. unfold to_int. rewrite Z.mod_small by lia.
  destruct (Z.ltb_spec (Z.of_nat n) 2147483648); [reflexivity|lia].
Qed.

(** C5.  After enumeration the list holds one device per reported CPU and
    GPU.  As long as the ids fit an [int], the device at position [j] has
    id [j]; the first [nb_cpu] devices are the CPUs and the remaining
    [nb_gpu] the GPUs, each kind in the order the runtime lists it.  The ids
    are therefore exactly [0 .. nb_cpu + nb_gpu - 1]. *)
Theorem enumerate_ids
        (r : OpenCL_devices_list) (pv : platform_view) (w w1 : world)
        (e : enumeration) :
  enumerate api r pv w = Done e w1 ->
  Z.of_nat (e_nb_cpu e + e_nb_gpu e) <= 2147483648 ->
  e_nb_cpu e = snd (clGetDeviceIDs_count api (pv_id pv) CL_DEVICE_TYPE_CPU)
  /\ e_nb_gpu e = snd (clGetDeviceIDs_count api (pv_id pv) CL_DEVICE_TYPE_GPU)
  /\ map d_id (e_devices e)
     = map Z.of_nat (seq 0 (e_nb_cpu e + e_nb_gpu e))
  /\ (forall j d, e_devices e !! j = Some d ->
        if (j <? e_nb_cpu e)%nat
        then device_is_gpu d = false
             /\ d_device d
                = nth j (snd (clGetDeviceIDs_list api (pv_id pv)
                                CL_DEVICE_TYPE_CPU (e_nb_cpu e))) 0
        else device_is_gpu d = true
             /\ d_device d
                = nth (j - e_nb_cpu e)
                    (snd (clGetDeviceIDs_list api (pv_id pv)
                            CL_DEVICE_TYPE_GPU (e_nb_gpu e))) 0).
Proof.
  intros Henum Hfit.
  destruct (enumerate_inv api r pv w w1 e Henum)
    as (Hcpu & Hgpu & _ & Hlen & _ & _ & Hcpus & Hgpus & _).
  split; [exact Hcpu|]. split; [exact Hgpu|].
  assert (Hat : forall j d, e_devices e !! j = Some d ->
            d_id d = Z.of_nat j
            /\ if (j <? e_nb_cpu e)%nat
               then device_is_gpu d = false
                    /\ d_device d
                       = nth j (snd (clGetDeviceIDs_list api (pv_id pv)
                                       CL_DEVICE_TYPE_CPU (e_nb_cpu e))) 0
               else device_is_gpu d = true
                    /\ d_device d
                       = nth (j - e_nb_cpu e)
                           (snd (clGetDeviceIDs_list api (pv_id pv)
                                   CL_DEVICE_TYPE_GPU (e_nb_gpu e))) 0).
  { intros j d Hd.
    assert (Hj : (j < e_nb_cpu e + e_nb_gpu e)%nat)
      by (rewrite <- Hlen; eapply lookup_lt_Some; eauto).
    destruct (Nat.ltb_spec j (e_nb_cpu e)) as [Hc|Hc].
    - destruct (Hcpus j Hc) as (d0 & d' & Hd' & used & ->).
      rewrite Hd in Hd'. injection Hd' as ->.
      cbn. rewrite to_int_small by lia. auto.
    - destruct (Hgpus (j - e_nb_cpu e)%nat ltac:(lia))
        as (d0 & d' & Hd' & used & ->).
      replace (e_nb_cpu e + (j - e_nb_cpu e))%nat with j in * by lia.
      rewrite Hd in Hd'. injection Hd' as ->.
      cbn. rewrite to_int_small by lia. auto. }
  split; [|intros j d Hd; now apply Hat].
  apply list_eq. intros j. rewrite !list_lookup_fmap.
  destruct (e_devices e !! j) as [d|] eqn:Hd.
  - destruct (Hat j d Hd) as [Hid _]. cbn [fmap option_fmap option_map].
    rewrite Hid.
    rewrite lookup_seq_lt by (rewrite <- Hlen; eapply lookup_lt_Some; eauto).
    reflexivity.
  - apply lookup_ge_None in Hd. rewrite lookup_seq_ge by lia. reflexivity.
Qed.

End WithApi.

Lemma Initialize_prefers_first_success_witness :
  exists r' w',
    Initialize Scenario.api_example OpenCL_devices_list_ctor Scenario.a_platform
      Scenario.w_gpu1_taken = Done r' w'
    /\ preferred_device r' = Some 1%nat
    /\ trace w' = [EvCreateContext 200; EvCreateContext 100].
Proof.
  destruct (proj1 (Initialize_prefers_first_success Scenario.api_example
                     OpenCL_devices_list_ctor Scenario.a_platform
                     Scenario.w_gpu1_taken _ _ eq_refl eq_refl)
              1%nat Scenario.dev_cpu eq_refl eq_refl)
    as (r' & w' & Hrun & Hpref & _ & Htr).
  - intros j d' Hj Hd'. destruct j as [|j]; [|lia].
    injection Hd' as <-. discriminate.
  - exists r', w'. split; [exact Hrun|]. split; [exact Hpref|exact Htr].
Defined.

Lemma Initialize_all_in_use_aborts_witness :
  Initialize Scenario.api_example OpenCL_devices_list_ctor Scenario.a_platform
    Scenario.w_all_taken
  = Aborted "All devices are in use!"
      (set_os (set_created
                 ["/tmp/gpuPlatform__0__Device__2__P__GPU1_.lck";
                  "/tmp/gpuPlatform__0__Device__1__P__GPU0_.lck";
                  "/tmp/gpuPlatform__0__Device__0__P__CPU_.lck"]%string
                 Scenario.os_all_taken) Scenario.w_all_taken).
Proof.
  refine (proj1 (Initialize_all_in_use_aborts Scenario.api_example
                   OpenCL_devices_list_ctor Scenario.a_platform
                   Scenario.w_all_taken _ _ eq_refl _)).
  repeat constructor.
Defined.

Lemma enumerate_ids_witness :
  exists e w1,
    enumerate Scenario.api_example OpenCL_devices_list_ctor Scenario.a_platform
      Scenario.w_gpu1_taken = Done e w1
    /\ map d_id (e_devices e) = [0; 1; 2]
    /\ map device_is_gpu (e_devices e) = [false; true; true].
Proof.
  eexists _, _. split; [reflexivity|].
  split; [|reflexivity].
  refine (proj1 (proj2 (proj2 (enumerate_ids Scenario.api_example
                   OpenCL_devices_list_ctor Scenario.a_platform
                   Scenario.w_gpu1_taken _ _ eq_refl _)))).
  vm_compute. discriminate.
Defined.

End InitializeFacts.

(** ** Vendor classification *)

Module ClassifyFacts.
Import Sys OpenCL CString Device DeviceRegistry Platform PlatformRegistry Spec
       SysFacts DiscoveryFacts.





Section WithApi.
Variable api : opencl_api.


(** An unrecognised vendor anywhere in the list keeps the loop from
    completing. *)
Lemma platform_loop_not_Done (tmp : list Z) (rem : nat) :
  forall (i : nat) (off : Z) (m : gmap string OpenCL_platform) (w : world)
         (j : nat),
    (i <= j < i + rem)%nat ->
    platform_key api (nth j tmp 0) = None ->
    forall m' w', platform_loop api tmp rem i off m w <> Done m' w'.
Proof.
  induction rem as [|rem IH]; intros i off m w j Hj Hkey m' w' H; [lia|].
  cbn [platform_loop] in H.
  destruct (clGetPlatformInfo api (nth i tmp 0) CL_PLATFORM_VENDOR)
    as [err buf] eqn:Hq.
  inv_bind H as u1 w1 Hstep. apply Test_Success_inv in Hstep as [_ ->].
  destruct (classify (transform tolower (string_of_buffer buf))) as [v|] eqn:Hc;
    [|discriminate].
  inv_bind H as p1 w2 Hstep.
  destruct (Nat.eq_dec i j) as [->|Hne].
  - unfold platform_key in Hkey. rewrite Hq in Hkey. cbn [snd] in Hkey.
    rewrite Hc in Hkey. discriminate.
  - revert H. apply (IH (S i) _ _ _ j); [lia|exact Hkey].
Qed.

End WithApi.



Example Initialize_unknown_vendor :
  PlatformRegistry.Initialize Scenario.api_unknown OpenCL_platforms_list_ctor
    "-1" Scenario.w_free
  = Aborted "ERROR: Unknown OpenCL platform" Scenario.w_free.
Proof. reflexivity. Qed.

(** Vendor strings met in practice. *)
Example classify_examples :
  classify (transform tolower "NVIDIA Corporation") = Some NVIDIA
  /\ classify (transform tolower "Advanced Micro Devices, Inc.") = Some AMD
  /\ classify (transform tolower "AMD") = Some AMD
  /\ classify (transform tolower "Intel(R) Corporation") = Some INTEL
  /\ classify (transform tolower "Apple") = Some APPLE
  /\ classify (transform tolower "Portable Computing Language") = None.
Proof. repeat split. Qed.

End ClassifyFacts.

(** ** Platforms and their registry *)

Module PlatformFacts.
Import Sys OpenCL CString Device DeviceRegistry Platform PlatformRegistry
       ListSort Spec SysFacts LockFacts ReservationFacts DiscoveryFacts
       ContextFacts SortFacts ClassifyFacts.

Section WithApi.
Variable api : opencl_api.

Lemma devices_Initialize_inv (r r' : OpenCL_devices_list) (pv : platform_view)
      (w w' : world) :
  DeviceRegistry.Initialize api r pv w = Done r' w' ->
  platform_inits (trace w') = platform_inits (trace w)
  /\ (all_lockable (device_list r) -> all_lockable (device_list r'))
  /\ exists k, preferred_device r' = Some k /\ (k < length (device_list r'))%nat.
Proof.
  unfold DeviceRegistry.Initialize. intros H.
  inv_bind H as e w1 Henum.
  destruct (enumerate_inv api r pv w w1 e Henum)
    as (_ & _ & _ & _ & Htr & _ & _ & _ & Hlk).
  destruct (e_all_in_use e); [discriminate|].
  inv_bind H as c w2 Hloop. destruct c as [l' p].
  apply context_loop_inv in Hloop as (HF & Hinits & Hp).
  cbn [fst snd] in H. destruct p as [k|]; [|discriminate].
  unfold ret in H. injection H as <- <-. cbn [device_list preferred_device].
  split; [unfold platform_inits in *; congruence|]. split.
  - intros Hall. specialize (Hlk Hall). unfold all_lockable in *.
    assert (Hsorted : Forall (fun d => is_lockable d = true)
                        (sort lt (map (set_parent_platform (Some pv)) (e_devices e)))).
    { rewrite sort_perm. apply Forall_fmap.
      eapply Forall_impl; [exact Hlk|]. intros d Hd. exact Hd. }
    rewrite Forall_lookup in Hsorted |- *. intros j d' Hd'.
    destruct (Forall2_lookup_r _ _ _ _ _ HF Hd') as (d & Hd & [->| ->]).
    + eapply Hsorted; eauto.
    + simpl. eapply Hsorted; eauto.
  - exists k. split; [reflexivity|].
    rewrite <- (Forall2_length _ _ _ HF). now apply Hp.
Qed.

Lemma query_inv (id : Z) (what : platform_param) (msg s : string) (w w' : world) :
  query api id what msg w = Done s w' -> w' = w.
Proof.
  unfold query. destruct (clGetPlatformInfo api id what) as [err buf].
  intros H. inv_bind H as u1 w1 Hstep. apply Test_Success_inv in Hstep as [_ ->].
  unfold ret in H. now injection H as _ <-.
Qed.

Lemma platform_Initialize_inv (p p' : OpenCL_platform) (key : string)
      (off id : Z) (w w' : world) :
  Platform.Initialize api p key off id w = Done p' w' ->
  p_key p' = key /\ p_id_offset p' = off /\ p_id p' = id
  /\ platform_inits (trace w') = platform_inits (trace w) ++ [(key, off, id)]
  /\ (all_lockable (device_list (devices_list p)) ->
      all_lockable (device_list (devices_list p'))).
Proof.
  unfold Platform.Initialize. intros H.
  inv_bind H as u0 w0 Hemit. unfold emit in Hemit. injection Hemit as _ <-.
  inv_bind H as profile w1 Hq. apply query_inv in Hq as ->.
  inv_bind H as version w1 Hq. apply query_inv in Hq as ->.
  inv_bind H as name w1 Hq. apply query_inv in Hq as ->.
  inv_bind H as vendor w1 Hq. apply query_inv in Hq as ->.
  inv_bind H as extensions w1 Hq. apply query_inv in Hq as ->.
  inv_bind H as dl w1 Hdl.
  apply devices_Initialize_inv in Hdl as (Hinits & Hlk & _).
  unfold ret in H. injection H as <- <-.
  cbn [p_key p_id_offset p_id devices_list].
  repeat split; try assumption.
  rewrite Hinits. unfold platform_inits. cbn [log trace].
  now rewrite omap_app.
Qed.

(** What the loop over the platforms has done when it completes. *)
Lemma platform_loop_inv (tmp : list Z) (rem : nat) :
  forall (i : nat) (off : Z) (m : gmap string OpenCL_platform) (w : world)
         (m' : gmap string OpenCL_platform) (w' : world),
    platform_loop api tmp rem i off m w = Done m' w' ->
    platform_inits (trace w')
    = platform_inits (trace w)
      ++ map (fun j => (default ""%string (platform_key api (nth j tmp 0)),
                        off + Z.of_nat (j - i), nth j tmp 0))
           (seq i rem)
    /\ (forall j key,
          (i <= j < i + rem)%nat ->
          platform_key api (nth j tmp 0) = Some key ->
          (forall j', (j < j' < i + rem)%nat ->
                      platform_key api (nth j' tmp 0) <> Some key) ->
          exists p, m' !! key = Some p
                    /\ p_id_offset p = off + Z.of_nat (j - i)
                    /\ p_id p = nth j tmp 0
                    /\ p_key p = key)
    /\ (forall key,
          (forall j, (i <= j < i + rem)%nat ->
                     platform_key api (nth j tmp 0) <> Some key) ->
          m' !! key = m !! key)
    /\ ((forall p, p ∈ map snd (map_to_list m) ->
                   all_lockable (device_list (devices_list p))) ->
        forall key p, m' !! key = Some p ->
                      all_lockable (device_list (devices_list p))).
Proof.
  induction rem as [|rem IH]; intros i off m w m' w' H; cbn [platform_loop] in H.
  - unfold ret in H. injection H as <- <-.
    split; [simpl; now rewrite app_nil_r|].
    split; [intros; lia|]. split; [reflexivity|].
    intros Hall key p Hp. apply Hall. apply list_elem_of_fmap.
    exists (key, p). split; [reflexivity|]. now apply elem_of_map_to_list.
  - destruct (clGetPlatformInfo api (nth i tmp 0) CL_PLATFORM_VENDOR)
      as [err buf] eqn:Hq.
    inv_bind H as u1 w1 Hstep. apply Test_Success_inv in Hstep as [_ ->].
    destruct (classify (transform tolower (string_of_buffer buf))) as [v|] eqn:Hc;
      [|discriminate].
    assert (Hki : platform_key api (nth i tmp 0) = Some (key_of_vendor v)).
    { unfold platform_key. rewrite Hq. cbn [snd]. now rewrite Hc. }
    inv_bind H as p1 w2 Hinit.
    apply platform_Initialize_inv in Hinit as (Hk1 & Ho1 & Hi1 & Ht1 & Hlk1).
    apply IH in H as (Htr & Hlast & Hnone & Hlk).
    split; [|split; [|split]].
    + rewrite Htr, Ht1. cbn [seq map]. rewrite Hki. cbn [default].
      rewrite Nat.sub_diag, Z.add_0_r, <- app_assoc. cbn [app].
      do 2 f_equal. apply map_ext_in. intros j Hj. apply in_seq in Hj.
      do 2 f_equal. lia.
    + intros j key Hj Hkey Hlater.
      destruct (Nat.eq_dec i j) as [<-|Hne].
      * assert (key = key_of_vendor v) as -> by congruence.
        rewrite Hnone by (intros j' Hj'; apply Hlater; lia).
        rewrite lookup_insert_eq. exists p1.
        rewrite Nat.sub_diag, Z.add_0_r. auto.
      * destruct (Hlast j key ltac:(lia) Hkey) as (p & Hp & Hpo & Hpi & Hpk).
        { intros j' Hj'. apply Hlater. lia. }
        exists p. split; [exact Hp|]. split; [|auto]. rewrite Hpo. lia.
    + intros key Hno. rewrite Hnone by (intros j Hj; apply Hno; lia).
      apply lookup_insert_ne. intros <-. now apply (Hno i ltac:(lia)).
    + intros Hall. apply Hlk. intros p Hp.
      apply list_elem_of_fmap in Hp as ([key q] & -> & Hq').
      apply elem_of_map_to_list in Hq'. cbn [snd].
      destruct (decide (key_of_vendor v = key)) as [<-|Hne].
      * rewrite lookup_insert_eq in Hq'. injection Hq' as <-.
        apply Hlk1. destruct (m !! key_of_vendor v) as [q|] eqn:Hm; cbn [default].
        -- apply Hall. apply list_elem_of_fmap. exists (key_of_vendor v, q).
           split; [reflexivity|]. now apply elem_of_map_to_list.
        -- constructor.
      * rewrite lookup_insert_ne in Hq' by exact Hne.
        apply Hall. apply list_elem_of_fmap. exists (key, q).
        split; [reflexivity|]. now apply elem_of_map_to_list.
Qed.

(** Among the indices below [n] that satisfy a decidable property, the one
    from which no later index satisfies it. *)
Lemma last_index (P : nat -> Prop) (Hdec : forall j, Decision (P j)) (n : nat) :
  forall j, (j < n)%nat -> P j ->
  exists j', (j <= j' < n)%nat /\ P j'
             /\ forall j'', (j' < j'' < n)%nat -> ~ P j''.
Proof.
  induction n as [|n IH]; intros j Hj HP; [lia|].
  destruct (decide (P n)) as [Hn|Hn].
  - exists n. split; [lia|]. split; [exact Hn|]. intros; lia.
  - assert (j <> n) by (intros ->; contradiction).
    destruct (IH j ltac:(lia) HP) as (j' & Hj' & HP' & Hlater).
    exists j'. split; [lia|]. split; [exact HP'|].
    intros j'' Hj''. destruct (Nat.eq_dec j'' n) as [->|]; [exact Hn|].
    apply Hlater. lia.
Qed.

End WithApi.

(** C7.  When [OpenCL_platforms_list::Initialize] returns, the calls of
    [OpenCL_platform::Initialize] it made are, in order, one per discovered
    platform, the platform at position [j] of the discovery order with
    offset [j]: the offsets start at 0, increase by one, are pairwise
    distinct and do not depend on the vendor key.  The map keeps one
    platform per key: for every discovered platform, the entry of its key
    is the last discovered platform with that key, carrying that
    platform's own offset, so an earlier platform of the same vendor is
    overwritten. *)
Theorem offsets_follow_discovery_order
        (api : opencl_api) (pl pl' : OpenCL_platforms_list) (hint : string)
        (w w' : world) :
  PlatformRegistry.Initialize api pl hint w = Done pl' w' ->
  let n := snd (clGetPlatformIDs_count api) in
  let tmp := snd (clGetPlatformIDs_list api n) in
  let key j := platform_key api (nth j tmp 0) in
  exists calls,
    platform_inits (trace w') = platform_inits (trace w) ++ calls
    /\ calls = map (fun j => (default ""%string (key j), Z.of_nat j, nth j tmp 0))
                 (seq 0 n)
    /\ map (fun c => snd (fst c)) calls = map Z.of_nat (seq 0 n)
    /\ NoDup (map (fun c => snd (fst c)) calls)
    /\ (forall j, (j < n)%nat ->
          exists k j' p,
            key j = Some k
            /\ (j <= j' < n)%nat
            /\ key j' = Some k
            /\ (forall j'', (j' < j'' < n)%nat -> key j'' <> Some k)
            /\ platforms pl' !! k = Some p
            /\ p_id_offset p = Z.of_nat j'
            /\ p_id p = nth j' tmp 0).
Proof.
  intros H n tmp key. subst n tmp key.
  unfold PlatformRegistry.Initialize in H.
  destruct (clGetPlatformIDs_count api) as [err n]. cbn [snd].
  inv_bind H as u1 w1 Hstep. apply Test_Success_inv in Hstep as [_ ->].
  destruct (n =? 0)%nat; [discriminate|].
  destruct (clGetPlatformIDs_list api n) as [err2 tmp]. cbn [snd].
  inv_bind H as u2 w2 Hstep. apply Test_Success_inv in Hstep as [_ ->].
  inv_bind H as m' w3 Hloop.
  assert (Hpl : platforms pl' = m' /\ w' = w3).
  { destruct (_ || _).
    - destruct (first_key m'); [|discriminate].
      unfold ret in H. injection H as <- <-. now split.
    - unfold ret in H. injection H as <- <-. now split. }
  destruct Hpl as [Hm ->]. rewrite Hm. clear H Hm.
  pose proof Hloop as Hdone.
  apply platform_loop_inv in Hloop as (Htr & Hlast & _ & _).
  eexists. split; [exact Htr|].
  assert (Hcalls : map (fun j => (default ""%string (platform_key api (nth j tmp 0)),
                                  0 + Z.of_nat (j - 0), nth j tmp 0)) (seq 0 n)
                   = map (fun j => (default ""%string (platform_key api (nth j tmp 0)),
                                    Z.of_nat j, nth j tmp 0)) (seq 0 n)).
  { apply map_ext. intros j. do 2 f_equal. lia. }
  rewrite Hcalls.
  assert (Hoffs : map (fun c : string * Z * Z => snd (fst c))
                    (map (fun j => (default ""%string (platform_key api (nth j tmp 0)),
                                    Z.of_nat j, nth j tmp 0)) (seq 0 n))
                  = map Z.of_nat (seq 0 n)).
  { rewrite map_map. reflexivity. }
  split; [reflexivity|]. split; [exact Hoffs|]. split.
  { rewrite Hoffs. apply NoDup_fmap_2; [intros x y; lia|apply NoDup_seq]. }
  intros j Hj.
  destruct (platform_key api (nth j tmp 0)) as [k|] eqn:Hk.
  2:{ exfalso. eapply (platform_loop_not_Done api tmp n 0 0 _ _ j); eauto. lia. }
  destruct (last_index (fun j => platform_key api (nth j tmp 0) = Some k) _ n j Hj Hk)
    as (j' & Hj' & Hk' & Hlater).
  destruct (Hlast j' k ltac:(lia) Hk') as (p & Hp & Hpo & Hpi & _).
  { intros j'' Hj''. apply Hlater. lia. }
  exists k, j', p. split; [reflexivity|]. split; [lia|].
  split; [exact Hk'|]. split; [intros j'' Hj''; apply Hlater; lia|].
  split; [exact Hp|]. split; [rewrite Hpo; lia|exact Hpi].
Qed.

Lemma offsets_follow_discovery_order_witness :
  exists pl' w',
    PlatformRegistry.Initialize Scenario.api_twins OpenCL_platforms_list_ctor
      "-1" Scenario.w_free = Done pl' w'
    /\ platform_inits (trace w') = [("amd"%string, 0, 77); ("amd"%string, 1, 78)].
Proof.
  destruct (PlatformRegistry.Initialize Scenario.api_twins
              OpenCL_platforms_list_ctor "-1" Scenario.w_free)
    as [pl' w'| |] eqn:H.
  - exists pl', w'. split; [reflexivity|].
    destruct (offsets_follow_discovery_order _ _ _ _ _ _ H)
      as (calls & Htr & Hcalls & _).
    rewrite Htr, Hcalls. reflexivity.
  - exfalso. vm_compute in H. discriminate.
  - exfalso. vm_compute in H. discriminate.
Defined.

(** Two platforms of one vendor: the map ends up with the second one. *)
Example second_platform_overwrites_first :
  match PlatformRegistry.Initialize Scenario.api_twins
          OpenCL_platforms_list_ctor "-1" Scenario.w_free with
  | Done pl' _ =>
      (fun p => (p_id p, p_id_offset p, p_name p)) <$> platforms pl' !! "amd"%string
      = Some (78, 1, "B"%string)
      /\ size (platforms pl') = 1%nat
  | _ => False
  end.
Proof. vm_compute. split; reflexivity. Qed.

(** ** The lockable flag *)

Lemma Lock_lockable (d d' : OpenCL_device) (w w' : world) :
  Lock d w = Done d' w' -> is_lockable d' = is_lockable d.
Proof.
  intros HL. destruct (Lock_inv _ _ _ _ HL) as (path & Hp & Ha).
  pose proof (Lock_result d path w Hp) as H. rewrite Ha in H.
  rewrite H in HL. now injection HL as <- _.
Qed.

Lemma all_lockable_insert (l : list OpenCL_device) (k : nat) (d d' : OpenCL_device) :
  l !! k = Some d -> is_lockable d' = is_lockable d ->
  all_lockable l -> all_lockable (<[k := d']> l).
Proof.
  intros Hd Heq Hall. apply Forall_insert; [exact Hall|].
  rewrite Heq. unfold all_lockable in Hall. rewrite Forall_lookup in Hall.
  now apply (Hall k d).
Qed.

Lemma reachable_all_lockable (api : opencl_api) (p : OpenCL_platform) :
  reachable api p -> all_lockable (device_list (devices_list p)).
Proof.
  induction 1 as [ | p key off id w p' w' _ IH Hinit
                   | p w p' w' _ IH Hlock
                   | p k d w d' w' _ IH Hd Hlock
                   | p k d w d' w' _ IH Hd Hunlock
                   | p k d w r w' _ IH Hd Hctx ].
  - constructor.
  - apply platform_Initialize_inv in Hinit as (_ & _ & _ & _ & Hlk). now apply Hlk.
  - unfold Lock_Best_Device, Prefered_OpenCL in Hlock.
    destruct (preferred_device (devices_list p)) as [k|] eqn:Hk; [|discriminate].
    destruct (device_list (devices_list p) !! k) as [d|] eqn:Hd; [|discriminate].
    inv_bind Hlock as d0 w0 Hret. unfold ret in Hret. injection Hret as <- <-.
    destruct (Is_Lockable d).
    + inv_bind Hlock as d' w1 HL. unfold ret in Hlock. injection Hlock as <- <-.
      unfold store_preferred. rewrite Hk. cbn [devices_list device_list set_devices_list set_device_list].
      eapply all_lockable_insert; eauto. eapply Lock_lockable; eauto.
    + unfold ret in Hlock. now injection Hlock as <- <-.
  - cbn [devices_list device_list set_devices_list set_device_list].
    eapply all_lockable_insert; eauto. eapply Lock_lockable; eauto.
  - cbn [devices_list device_list set_devices_list set_device_list].
    eapply all_lockable_insert; eauto.
    now apply Unlock_trace in Hunlock as [_ ->].
  - cbn [devices_list device_list set_devices_list set_device_list].
    eapply all_lockable_insert; eauto.
    rewrite Set_Context_eq in Hctx. now injection Hctx as <- _.
Qed.

(** C10.  A device is constructed lockable, and no operation changes the
    flag: not [Set_Information], [Set_Context], [Lock] or [Unlock], and so
    none of the operations on a platform.  Every device of a platform a
    program can hold is therefore lockable, and [Lock_Best_Device] on a
    platform with a preferred device is [Lock()] on that device: its other
    branch is never taken. *)
Theorem lockable_is_invariant (api : opencl_api) :
  is_lockable OpenCL_device_ctor = true
  /\ (forall d i dev off pn g w d' w',
         Set_Information api d i dev off pn g w = Done d' w' ->
         is_lockable d' = is_lockable d)
  /\ (forall d w r w',
         Set_Context api d w = Done r w' -> is_lockable (snd r) = is_lockable d)
  /\ (forall d w d' w', Lock d w = Done d' w' -> is_lockable d' = is_lockable d)
  /\ (forall d w d' w', Unlock d w = Done d' w' -> is_lockable d' = is_lockable d)
  /\ (forall p,
         reachable api p ->
         all_lockable (device_list (devices_list p))
         /\ forall k d w,
              preferred_device (devices_list p) = Some k ->
              device_list (devices_list p) !! k = Some d ->
              Is_Lockable d = true
              /\ Lock_Best_Device p w
                 = (d' <- Lock d ;; ret (store_preferred d' p)) w).
Proof.
  split; [reflexivity|]. split.
  { intros d i dev off pn g w d' w' H.
    apply Set_Information_inv in H as ((used & ->) & _). reflexivity. }
  split.
  { intros d w r w' H. rewrite Set_Context_eq in H. now injection H as <- _. }
  split; [intros d w d' w'; apply Lock_lockable|]. split.
  { intros d w d' w' H. now apply Unlock_trace in H as [_ ->]. }
  intros p Hreach. pose proof (reachable_all_lockable api p Hreach) as Hall.
  split; [exact Hall|]. intros k d w Hk Hd.
  assert (Hlk : Is_Lockable d = true).
  { unfold all_lockable in Hall. rewrite Forall_lookup in Hall. now apply (Hall k d). }
  split; [exact Hlk|].
  unfold Lock_Best_Device, Prefered_OpenCL. rewrite Hk, Hd.
  unfold bind at 1. unfold ret at 1. now rewrite Hlk.
Qed.

Lemma lockable_is_invariant_witness :
  exists p d,
    reachable Scenario.api_example p
    /\ preferred_device (devices_list p) = Some 1%nat
    /\ Is_Lockable d = true
    /\ Lock_Best_Device p Scenario.w_free
       = (d' <- Lock d ;; ret (store_preferred d' p)) Scenario.w_free.
Proof.
  pose proof (reach_Initialize Scenario.api_example OpenCL_platform_ctor
                "nvidia" 0 77 Scenario.w_gpu1_taken _ _
                (reach_ctor _) eq_refl) as Hreach.
  destruct (proj2 (proj2 (proj2 (proj2 (proj2
              (lockable_is_invariant Scenario.api_example))))) _ Hreach)
    as [_ Hbest].
  destruct (Hbest 1%nat (with_context Scenario.api_example Scenario.dev_cpu)
              Scenario.w_free eq_refl eq_refl) as [Hlk Hrun].
  eexists _, _. split; [exact Hreach|]. split; [reflexivity|].
  split; [exact Hlk|exact Hrun].
Defined.

End PlatformFacts.

(** ** Work sizes *)

Module KernelFacts.
Import Sys OpenCL Kernel SysFacts DiscoveryFacts.

(** X1.  For a positive [base] and a positive [n] that leave room in an
    [int], [Get_Multiple] returns the least multiple of [base] that is not
    below [n]. *)
Theorem Get_Multiple_least (n base : Z) :
  0 < base -> 0 < n -> n + base - 1 <= INT_MAX ->
  exists m,
    Get_Multiple n base = Some m
    /\ (base | m) /\ n <= m < n + base
    /\ forall m', (base | m') -> n <= m' -> m <= m'.
Proof.
  intros Hb Hn Hfit. unfold Get_Multiple.
  destruct (Z.ltb_spec n base) as [Hlt|Hge].
  - exists base. split; [reflexivity|]. split; [apply Z.divide_refl|].
    split; [lia|]. intros m' [q ->] Hm'.
    assert (0 < q) by nia. nia.
  - destruct (Z.eqb_spec base 0) as [->|_]; [lia|].
    rewrite Z.rem_mod_nonneg by lia.
    pose proof (Z.div_mod n base ltac:(lia)) as Hdm.
    pose proof (Z.mod_pos_bound n base Hb) as Hr.
    destruct (Z.eqb_spec (n mod base) 0) as [Hz|Hnz].
    + exists n. split; [reflexivity|].
      split; [apply Z.mod_divide; lia|]. split; [lia|]. intros; lia.
    + rewrite Z.quot_div_nonneg by lia.
      assert (Hin : in_int (base * (n / base) + base) = true).
      { unfold in_int, INT_MIN, INT_MAX in *.
        apply andb_true_iff. split; [apply Z.leb_le|apply Z.leb_le]; nia. }
      rewrite Hin. eexists. split; [reflexivity|].
      split; [exists (n / base + 1); lia|]. split; [lia|].
      intros m' [q ->] Hm'.
      assert (n / base < q) by nia. nia.
Qed.

Lemma Get_Multiple_least_witness :
  exists m, Get_Multiple 100 32 = Some m /\ (32 | m) /\ 100 <= m < 132.
Proof.
  destruct (Get_Multiple_least 100 32) as (m & Hm & Hd & Hle & _);
    [lia | lia | unfold INT_MAX; lia |].
  exists m. auto.
Defined.






Section WithApi.
Variable api : kernel_api.

(** X4.  [Build] returns exactly when the source file opens and
    [clCreateProgramWithSource], the query for the build log and
    [clCreateKernel] report success.  The error code of [clBuildProgram]
    plays no part, and the abort that announces a kernel that did not build
    is never reached. *)
Theorem Build_outcome (k : OpenCL_Kernel) (name options : string) (w : world) :
  let k0 := set_names name options k in
  match read_file api (filename k0) with
  | None => Build api k name options w
            = Aborted "Unable to open the file for reading" w
  | Some text =>
      let created := clCreateProgramWithSource api (k_context k0) text in
      let k1 := set_program (fst created) k0 in
      let size := snd (clGetProgramBuildInfo_log_size api (k_program k1) (device_id k1)) in
      let log_err := clGetProgramBuildInfo_log api (k_program k1) (device_id k1) size in
      let made := clCreateKernel api (k_program k1) (string_of_buffer name) in
      if negb (snd created =? CL_SUCCESS)
      then Build api k name options w = Aborted "clCreateProgramWithSource" w
      else if negb (log_err =? CL_SUCCESS)
      then Build api k name options w = Aborted "1. clGetProgramBuildInfo" w
      else if negb (snd made =? CL_SUCCESS)
      then Build api k name options w = Aborted "clCreateKernel" w
      else Build api k name options w = Done (set_kernel (fst made) k1) w
  end.
Proof.
  cbv zeta.
  unfold Build, Load_Program_From_File, read_opencl_kernel, Build_Executable,
    OpenCL_Test_Success, bind, ret, abort.
  destruct (read_file api (filename (set_names name options k))) as [text|];
    [|reflexivity].
  destruct (clCreateProgramWithSource api
              (k_context (set_names name options k)) text) as [program err].
  cbn [fst snd].
  destruct (err =? CL_SUCCESS); cbn [negb]; [|reflexivity].
  destruct (clGetProgramBuildInfo_log_size api _ _) as [e0 size]. cbn [snd].
  destruct (clGetProgramBuildInfo_log api _ _ size =? CL_SUCCESS);
    cbn [negb]; [|reflexivity].
  cbn [kernel_name set_program set_names k_program].
  destruct (clCreateKernel api program (string_of_buffer name)) as [h e1].
  cbn [fst snd]. destruct (e1 =? CL_SUCCESS); reflexivity.
Qed.

End WithApi.
End KernelFacts.

(** ** Names of error codes *)

Module ErrorStringFacts.
Import ErrorString.

Lemma errorString_distinct :
  forallb (fun i =>
    forallb (fun j =>
      (i =? j)%nat
      || String.eqb (nth i errorString "") ""
      || negb (String.eqb (nth i errorString "") (nth j errorString "")))
      (seq 0 64))
    (seq 0 64) = true.
Proof. vm_compute. reflexivity. Qed.

Lemma errorString_specified :
  forallb (fun i => negb (String.eqb (nth i errorString "") "Unspecified Error"))
    (seq 0 64) = true.
Proof. vm_compute. reflexivity. Qed.

(** X5.  [OpenCL_Error_to_String] answers [Unspecified Error] exactly for
    the codes outside [-63 .. 0], and it never gives one name to two codes:
    two codes with the same non-empty name other than [Unspecified Error]
    are equal. *)
Theorem OpenCL_Error_to_String_names (e1 e2 : Z) :
  (OpenCL_Error_to_String e1 = "Unspecified Error"%string
   <-> e1 < -63 \/ 0 < e1)
  /\ (OpenCL_Error_to_String e1 = OpenCL_Error_to_String e2 ->
      OpenCL_Error_to_String e1 <> ""%string ->
      OpenCL_Error_to_String e1 <> "Unspecified Error"%string ->
      e1 = e2).
Proof.
  assert (Hin : forall e, -63 <= e <= 0 ->
            OpenCL_Error_to_String e = nth (Z.to_nat (- e)) errorString ""%string
            /\ (Z.to_nat (- e) < 64)%nat
            /\ OpenCL_Error_to_String e <> "Unspecified Error"%string).
  { intros e He. unfold OpenCL_Error_to_String.
    change (Z.of_nat (length errorString)) with 64.
    destruct (Z.geb_spec (- e) 0); [|lia].
    destruct (Z.ltb_spec (- e) 64); [|lia]. cbn [andb].
    split; [reflexivity|]. split; [lia|].
    pose proof errorString_specified as Hs.
    rewrite forallb_forall in Hs.
    specialize (Hs (Z.to_nat (- e)) ltac:(apply in_seq; lia)).
    apply negb_true_iff, String.eqb_neq in Hs. exact Hs. }
  assert (Hout : forall e, e < -63 \/ 0 < e ->
            OpenCL_Error_to_String e = "Unspecified Error"%string).
  { intros e He. unfold OpenCL_Error_to_String.
    change (Z.of_nat (length errorString)) with 64.
    destruct (Z.geb_spec (- e) 0); [|reflexivity].
    destruct (Z.ltb_spec (- e) 64); [lia|reflexivity]. }
  assert (Hcase : forall e, (e < -63 \/ 0 < e) \/ -63 <= e <= 0) by (intros; lia).
  split.
  - split; [|apply Hout]. intros H.
    destruct (Hcase e1) as [Ho|Hi]; [exact Ho|].
    now destruct (Hin e1 Hi) as (_ & _ & Hne).
  - intros Heq Hne Hsp.
    destruct (Hcase e1) as [Ho|Hi1]; [now rewrite (Hout e1 Ho) in Hsp|].
    destruct (Hcase e2) as [Ho|Hi2];
      [rewrite (Hout e2 Ho) in Heq; contradiction|].
    destruct (Hin e1 Hi1) as (H1 & Hb1 & _).
    destruct (Hin e2 Hi2) as (H2 & Hb2 & _).
    rewrite H1 in Hne. rewrite H1, H2 in Heq.
    pose proof errorString_distinct as Hd.
    rewrite forallb_forall in Hd.
    specialize (Hd (Z.to_nat (- e1)) ltac:(apply in_seq; lia)).
    rewrite forallb_forall in Hd.
    specialize (Hd (Z.to_nat (- e2)) ltac:(apply in_seq; lia)).
    rewrite Heq in Hd at 2. rewrite String.eqb_refl in Hd. cbn [negb] in Hd.
    rewrite orb_false_r in Hd. apply orb_true_iff in Hd as [Hd|Hd].
    + apply Nat.eqb_eq in Hd. lia.
    + apply String.eqb_eq in Hd. contradiction.
Qed.

Lemma OpenCL_Error_to_String_names_witness :
  OpenCL_Error_to_String (-11) = "CL_BUILD_PROGRAM_FAILURE"%string
  /\ (-11 = -11).
Proof.
  split; [reflexivity|].
  exact (proj2 (OpenCL_Error_to_String_names (-11) (-11)) eq_refl
           ltac:(discriminate) ltac:(discriminate)).
Defined.

End ErrorStringFacts.

(** ** Access to the registry *)

Module AccessFacts.
Import Sys OpenCL CString Device DeviceRegistry Platform PlatformRegistry
       RegistryAccess Spec SpecMore SysFacts DiscoveryFacts ContextFacts
       ClassifyFacts PlatformFacts.

Lemma ltb_irrefl (k : string) : String.ltb k k = false.
Proof.
  unfold String.ltb. destruct (String.compare k k) eqn:E; try reflexivity.
  pose proof (String.compare_antisym k k) as H. rewrite E in H. discriminate.
Qed.

Lemma ltb_trans (a b c : string) :
  String.ltb a b = true -> String.ltb b c = true -> String.ltb a c = true.
Proof.
  unfold String.ltb. intros Hab Hbc.
  destruct (String.compare a b) eqn:E1; try discriminate.
  destruct (String.compare b c) eqn:E2; try discriminate.
  assert (H : String.compare a c = Lt).
  { apply String_as_OT.cmp_lt.
    apply String_as_OT.lt_trans with b; now apply String_as_OT.cmp_lt. }
  now rewrite H.
Qed.

Lemma smallest_of_list (l : list string) :
  match foldr (fun k acc =>
                 match acc with
                 | None => Some k
                 | Some k' => if String.ltb k k' then Some k else Some k'
                 end) None l with
  | None => l = []
  | Some k => k ∈ l /\ forall k', k' ∈ l -> String.ltb k' k = false
  end.
Proof.
  induction l as [|k l IH]; [reflexivity|]. cbn [foldr].
  destruct (foldr _ None l) as [k0|].
  - destruct IH as [Hin Hmin]. destruct (String.ltb k k0) eqn:E.
    + split; [left|]. intros k' Hk'. apply elem_of_cons in Hk' as [->|Hk'].
      * apply ltb_irrefl.
      * destruct (String.ltb k' k) eqn:E'; [|reflexivity].
        rewrite <- (Hmin k' Hk'). symmetry. now apply ltb_trans with k.
    + split; [now right|]. intros k' Hk'. apply elem_of_cons in Hk' as [->|Hk'].
      * exact E.
      * now apply Hmin.
  - subst l. split; [left|]. intros k' Hk'.
    apply list_elem_of_singleton in Hk' as ->. apply ltb_irrefl.
Qed.

(** [platforms.begin()] is the entry with the smallest key. *)
Lemma first_key_spec (m : gmap string OpenCL_platform) :
  match first_key m with
  | None => m = ∅
  | Some k => is_Some (m !! k)
              /\ forall k', is_Some (m !! k') -> String.ltb k' k = false
  end.
Proof.
  unfold first_key. pose proof (smallest_of_list (map fst (map_to_list m))) as H.
  destruct (foldr _ None _) as [k|].
  - destruct H as [Hin Hmin]. split.
    + apply list_elem_of_fmap in Hin as ([k1 p] & -> & Hp).
      apply elem_of_map_to_list in Hp. eauto.
    + intros k' [p Hp]. apply Hmin. apply list_elem_of_fmap.
      exists (k', p). split; [reflexivity|]. now apply elem_of_map_to_list.
  - apply map_to_list_empty_iff. now destruct (map_to_list m).
Qed.

Section WithApi.
Variable api : opencl_api.

(** A property of platforms that [OpenCL_platform::Initialize] establishes
    holds of every platform in the map when the loop completes, and a
    relation between worlds that every call respects holds across the
    loop. *)
Lemma platform_loop_invariant
      (P : OpenCL_platform -> Prop) (Q : world -> world -> Prop) :
  (forall w, Q w w) ->
  (forall a b c, Q a b -> Q b c -> Q a c) ->
  (forall p key off id w p' w',
      p = OpenCL_platform_ctor \/ P p ->
      Platform.Initialize api p key off id w = Done p' w' -> P p' /\ Q w w') ->
  forall tmp rem i off (m : gmap string OpenCL_platform) w m' w',
    (forall key p, m !! key = Some p -> P p) ->
    platform_loop api tmp rem i off m w = Done m' w' ->
    (forall key p, m' !! key = Some p -> P p) /\ Q w w'.
Proof.
  intros Qrefl Qtrans Hinit tmp rem.
  induction rem as [|rem IH]; intros i off m w m' w' Hm H;
    cbn [platform_loop] in H.
  - unfold ret in H. injection H as <- <-. split; [exact Hm|apply Qrefl].
  - destruct (clGetPlatformInfo api (nth i tmp 0) CL_PLATFORM_VENDOR)
      as [err buf].
    inv_bind H as u1 w1 Hstep. apply Test_Success_inv in Hstep as [_ ->].
    destruct (classify _) as [v|]; [|discriminate].
    inv_bind H as p1 w2 Hrun.
    apply Hinit in Hrun as [HP HQ].
    2:{ destruct (m !! key_of_vendor v) as [q|] eqn:Hq; cbn [default];
          [right; eapply Hm; eauto|now left]. }
    apply IH in H as [Hm' HQ'].
    + split; [exact Hm'|]. eapply Qtrans; eauto.
    + intros key p Hp. destruct (decide (key_of_vendor v = key)) as [<-|Hne].
      * rewrite lookup_insert_eq in Hp. now injection Hp as <-.
      * rewrite lookup_insert_ne in Hp by exact Hne. eapply Hm; eauto.
Qed.

(** What a completed [OpenCL_platforms_list::Initialize] amounts to. *)
Lemma registry_Initialize_inv (pl pl' : OpenCL_platforms_list) (hint : string)
      (w w' : world) :
  PlatformRegistry.Initialize api pl hint w = Done pl' w' ->
  let n := snd (clGetPlatformIDs_count api) in
  let tmp := snd (clGetPlatformIDs_list api n) in
  (1 <= n)%nat
  /\ fst (clGetPlatformIDs_count api) = CL_SUCCESS
  /\ fst (clGetPlatformIDs_list api n) = CL_SUCCESS
  /\ platform_loop api tmp n 0 0 (platforms pl) w = Done (platforms pl') w'
  /\ (if String.eqb hint "-1" || String.eqb hint ""
      then first_key (platforms pl') = Some (preferred_platform pl')
      else preferred_platform pl' = hint).
Proof.
  unfold PlatformRegistry.Initialize. intros H.
  destruct (clGetPlatformIDs_count api) as [err n]. cbn [fst snd].
  inv_bind H as u1 w1 Hstep. apply Test_Success_inv in Hstep as [He ->].
  destruct (Nat.eqb_spec n 0) as [|Hn]; [discriminate|].
  destruct (clGetPlatformIDs_list api n) as [err2 tmp]. cbn [fst snd].
  inv_bind H as u2 w2 Hstep. apply Test_Success_inv in Hstep as [He2 ->].
  inv_bind H as m' w3 Hloop.
  split; [lia|]. split; [exact He|]. split; [exact He2|].
  destruct (_ || _).
  - destruct (first_key m') as [k|] eqn:Hk; [|discriminate].
    unfold ret in H. injection H as <- <-. cbn. now split.
  - unfold ret in H. injection H as <- <-. cbn. now split.
Qed.

Lemma Initialize_has_preferred (p p' : OpenCL_platform) (key : string)
      (off id : Z) (w w' : world) :
  Platform.Initialize api p key off id w = Done p' w' -> has_preferred p'.
Proof.
  unfold Platform.Initialize. intros H.
  inv_bind H as u0 w0 Hemit.
  inv_bind H as profile w1 Hq1. inv_bind H as version w2 Hq2.
  inv_bind H as name w3 Hq3. inv_bind H as vendor w4 Hq4.
  inv_bind H as extensions w5 Hq5. inv_bind H as dl w6 Hdl.
  apply devices_Initialize_inv in Hdl as (_ & _ & k & Hk & Hlt).
  unfold ret in H. injection H as <- <-.
  destruct (lookup_lt_is_Some_2 _ _ Hlt) as [d Hd].
  exists k, d. cbn [devices_list]. now split.
Qed.

Lemma registry_nonempty (pl pl' : OpenCL_platforms_list) (hint : string)
      (w w' : world) :
  PlatformRegistry.Initialize api pl hint w = Done pl' w' ->
  platforms pl' <> ∅.
Proof.
  intros H.
  apply registry_Initialize_inv in H as (Hn & _ & _ & Hloop & _).
  set (n := snd (clGetPlatformIDs_count api)) in *.
  set (tmp := snd (clGetPlatformIDs_list api n)) in *.
  destruct (platform_key api (nth (n - 1) tmp 0)) as [k|] eqn:Hk.
  2:{ exfalso.
      eapply (platform_loop_not_Done api tmp n 0 0 _ _ (n - 1)%nat); eauto. lia. }
  apply platform_loop_inv in Hloop as (_ & Hlast & _).
  destruct (Hlast (n - 1)%nat k ltac:(lia) Hk) as (p & Hp & _).
  { intros j' Hj'. lia. }
  intros Hempty. rewrite Hempty in Hp. now rewrite lookup_empty in Hp.
Qed.

(** X6.  When [Initialize] returns on a hint that means no preference
    (["-1"] or the empty string), the preferred platform is the entry of
    the map with the smallest key.  [operator[]] returns that platform both
    for the sentinel and for its own key, and [Print] passes its
    assertions.  The platforms already in the registry are required to have
    a preferred device, as the ones [Initialize] adds do. *)
Theorem Initialize_without_preference
        (pl pl' : OpenCL_platforms_list) (hint : string) (w w' : world) :
  hint = "-1"%string \/ hint = ""%string ->
  (forall key p, platforms pl !! key = Some p -> has_preferred p) ->
  PlatformRegistry.Initialize api pl hint w = Done pl' w' ->
  exists p,
    platforms pl' !! preferred_platform pl' = Some p
    /\ (forall key, is_Some (platforms pl' !! key) ->
                    String.ltb key (preferred_platform pl') = false)
    /\ subscript pl' "-1" w' = Done p w'
    /\ subscript pl' "" w' = Done p w'
    /\ subscript pl' (preferred_platform pl') w' = Done p w'
    /\ Print_registry pl' w' = Done tt w'.
Proof.
  intros Hhint Hold H. pose proof (registry_nonempty _ _ _ _ _ H) as Hne.
  apply registry_Initialize_inv in H as (_ & _ & _ & Hloop & Hpref).
  assert (Hs : String.eqb hint "-1" || String.eqb hint "" = true)
    by (destruct Hhint as [-> | ->]; reflexivity).
  rewrite Hs in Hpref.
  pose proof (first_key_spec (platforms pl')) as Hfk. rewrite Hpref in Hfk.
  destruct Hfk as [[p Hp] Hmin].
  destruct (platform_loop_invariant has_preferred (fun _ _ => True)
              (fun _ => I) (fun _ _ _ _ _ => I)
              (fun p key off id w p' w' _ Hrun =>
                 conj (Initialize_has_preferred p p' key off id w w' Hrun) I)
              _ _ _ _ _ _ _ _ Hold Hloop) as [Hall _].
  destruct (Hall _ _ Hp) as (k & d & Hk & Hd).
  assert (Hsize : (size (platforms pl') =? 0)%nat = false).
  { apply Nat.eqb_neq. intros Hz. now apply map_size_empty_iff in Hz. }
  assert (Hsent : forall key, String.eqb key "-1" || String.eqb key "" = true ->
                              subscript pl' key w' = Done p w').
  { intros key Hkey. unfold subscript. rewrite Hkey, Hsize, Hpref, Hp. reflexivity. }
  exists p. split; [exact Hp|]. split; [exact Hmin|].
  split; [now apply Hsent|]. split; [now apply Hsent|]. split.
  - destruct (String.eqb (preferred_platform pl') "-1"
              || String.eqb (preferred_platform pl') "") eqn:E.
    + now apply Hsent.
    + unfold subscript. rewrite E, Hp. reflexivity.
  - unfold Print_registry. rewrite Hp, Hk, Hd. reflexivity.
Qed.

(** X7.  A hint that is not a sentinel is stored without being checked:
    [Initialize] returns with it exactly as it returns with ["-1"], with
    the same platforms and the same effects.  If no discovered platform has
    that key, both [operator[]] on the hint and [Print] abort
    afterwards. *)
Theorem Initialize_hint_unchecked
        (pl pl' : OpenCL_platforms_list) (hint : string) (w w' : world) :
  hint <> "-1"%string -> hint <> ""%string ->
  PlatformRegistry.Initialize api pl hint w = Done pl' w' ->
  preferred_platform pl' = hint
  /\ (exists k,
         PlatformRegistry.Initialize api pl "-1" w
         = Done {| platforms := platforms pl'; preferred_platform := k |} w')
  /\ (platforms pl' !! hint = None ->
      Print_registry pl' w' = Aborted "Assertion failed: !(it != platforms.end())" w'
      /\ subscript pl' hint w'
         = Aborted "Assertion failed: !(it != platforms.end())" w').
Proof.
  intros H1 H2 H. pose proof (registry_nonempty _ _ _ _ _ H) as Hne.
  pose proof H as Hinv.
  apply registry_Initialize_inv in Hinv as (Hn & Herr & Herr2 & Hloop & Hpref).
  assert (Hs : String.eqb hint "-1" || String.eqb hint "" = false).
  { apply orb_false_iff. split; now apply String.eqb_neq. }
  rewrite Hs in Hpref. split; [exact Hpref|]. split.
  - pose proof (first_key_spec (platforms pl')) as Hfk.
    destruct (first_key (platforms pl')) as [k|] eqn:Hk; [|contradiction].
    exists k. unfold PlatformRegistry.Initialize.
    destruct (clGetPlatformIDs_count api) as [err n]. cbn [fst snd] in *.
    rewrite Herr. unfold OpenCL_Test_Success at 1, bind at 1. cbn.
    destruct (Nat.eqb_spec n 0) as [|_]; [lia|].
    destruct (clGetPlatformIDs_list api n) as [err2 tmp]. cbn [fst snd] in *.
    rewrite Herr2. unfold OpenCL_Test_Success at 1, bind at 1. cbn.
    rewrite (bind_Done _ _ _ _ _ Hloop). cbn. now rewrite Hk.
  - intros Hnone. split.
    + unfold Print_registry. now rewrite Hpref, Hnone.
    + unfold subscript. rewrite Hs, Hnone.
      unfold bind, Print_registry. now rewrite Hpref, Hnone.
Qed.

End WithApi.

Lemma Initialize_without_preference_witness :
  exists pl' w' p,
    PlatformRegistry.Initialize Scenario.api_example OpenCL_platforms_list_ctor
      "-1" Scenario.w_gpu1_taken = Done pl' w'
    /\ preferred_platform pl' = "nvidia"%string
    /\ subscript pl' "-1" w' = Done p w'
    /\ Print_registry pl' w' = Done tt w'.
Proof.
  destruct (PlatformRegistry.Initialize Scenario.api_example
              OpenCL_platforms_list_ctor "-1" Scenario.w_gpu1_taken)
    as [pl' w'| |] eqn:H.
  - destruct (Initialize_without_preference Scenario.api_example
                OpenCL_platforms_list_ctor pl' "-1" Scenario.w_gpu1_taken w'
                (or_introl eq_refl))
      as (p & _ & _ & Hsub & _ & _ & Hprint).
    + intros key p Hp. cbn [platforms OpenCL_platforms_list_ctor] in Hp.
      now rewrite lookup_empty in Hp.
    + exact H.
    + exists pl', w', p. split; [reflexivity|]. split; [|auto].
      vm_compute in H. injection H as <- _. reflexivity.
  - exfalso. vm_compute in H. discriminate.
  - exfalso. vm_compute in H. discriminate.
Defined.

Lemma Initialize_hint_unchecked_witness :
  exists pl' w',
    PlatformRegistry.Initialize Scenario.api_example OpenCL_platforms_list_ctor
      "amd" Scenario.w_gpu1_taken = Done pl' w'
    /\ preferred_platform pl' = "amd"%string
    /\ subscript pl' "amd" w'
       = Aborted "Assertion failed: !(it != platforms.end())" w'.
Proof.
  destruct (PlatformRegistry.Initialize Scenario.api_example
              OpenCL_platforms_list_ctor "amd" Scenario.w_gpu1_taken)
    as [pl' w'| |] eqn:H.
  - destruct (Initialize_hint_unchecked Scenario.api_example
                OpenCL_platforms_list_ctor pl' "amd" Scenario.w_gpu1_taken w'
                ltac:(discriminate) ltac:(discriminate) H)
      as (Hpref & _ & Habort).
    exists pl', w'. split; [reflexivity|]. split; [exact Hpref|].
    apply Habort. vm_compute in H. injection H as <- _. reflexivity.
  - exfalso. vm_compute in H. discriminate.
  - exfalso. vm_compute in H. discriminate.
Defined.

End AccessFacts.

(** ** Probe and reservation together *)

Module ProbeFacts.
Import Sys OpenCL CString LockName LockFiles Device DeviceRegistry Platform
       PlatformRegistry ListSort Spec SpecMore SysFacts LockFacts
       ReservationFacts DiscoveryFacts ContextFacts SortFacts PlatformFacts
       AccessFacts.

Lemma os_same_refl (o : os_state) : os_same o o.
Proof. now repeat split. Qed.

Lemma os_same_trans (a b c : os_state) :
  os_same a b -> os_same b c -> os_same a c.
Proof.
  intros (H1 & H2 & H3 & H4) (G1 & G2 & G3 & G4).
  repeat split; congruence.
Qed.

Lemma acquirable_os_same (o o' : os_state) (path : string) :
  os_same o o' -> acquirable o path = acquirable o' path.
Proof. intros (H1 & H2 & H3 & H4). now apply acquirable_ext. Qed.

Lemma c_str_no_NUL_in (s : string) : ~ In NUL (c_str s).
Proof.
  induction s as [|c s IH]; simpl; [tauto|].
  destruct (Ascii.eqb c NUL) eqn:E; simpl; [tauto|].
  apply Ascii.eqb_neq in E. intros [H|H]; [congruence|contradiction].
Qed.

Lemma c_str_of_list (l : list ascii) :
  ~ In NUL l -> c_str (string_of_list_ascii l) = l.
Proof.
  induction l as [|c l IH]; simpl; intros H; [reflexivity|].
  destruct (Ascii.eqb c NUL) eqn:E.
  - apply Ascii.eqb_eq in E. exfalso. apply H. now left.
  - f_equal. apply IH. intros Hin. apply H. now right.
Qed.

Lemma c_str_string_of_buffer (s : string) :
  c_str (string_of_buffer s) = c_str s.
Proof. unfold string_of_buffer. apply c_str_of_list, c_str_no_NUL_in. Qed.

(** The lock-file name reads the platform name as a C string. *)
Lemma get_lock_filename_buffer (i off : Z) (pn dn : string) :
  get_lock_filename i off (string_of_buffer pn) dn = get_lock_filename i off pn dn.
Proof.
  unfold get_lock_filename, sprintf, string_base.
  cbn [list_ascii_of_string format fmap option_fmap option_map].
  now rewrite c_str_string_of_buffer.
Qed.

Section WithApi.
Variable api : opencl_api.

Lemma Set_Information_probed (d d' : OpenCL_device) (i dev off : Z) (pn : string)
      (g : bool) (w w' : world) :
  Set_Information api d i dev off pn g w = Done d' w' ->
  os_same (os w) (os w')
  /\ file_locked d' = file_locked d
  /\ exists path,
       get_lock_filename (d_id d') off pn (d_name d') = Some path
       /\ device_is_in_use d' = negb (acquirable (os w) path).
Proof.
  unfold Set_Information. intros H.
  inv_bind H as u1 w1 H1. apply Test_Success_inv in H1 as [_ ->].
  inv_bind H as u2 w2 H2.
  assert (w2 = w) as ->.
  { destruct (CString.contains _ _).
    - now apply Test_Success_inv in H2 as [_ ->].
    - unfold ret in H2. now injection H2 as _ <-. }
  inv_bind H as u3 w3 H3.
  assert (w3 = w) as ->.
  { destruct (known_type _); [|discriminate].
    unfold ret in H3. now injection H3 as _ <-. }
  inv_bind H as used w4 Hv. unfold ret in H. injection H as <- <-.
  cbn [d_id d_name set_information] in Hv.
  destruct (get_lock_filename i off pn (string_of_buffer (di_name (clGetDeviceInfo api dev))))
    as [path|] eqn:Hp.
  2:{ unfold Verify_if_Device_is_Used in Hv. rewrite Hp in Hv. discriminate. }
  destruct (Verify_result _ _ _ _ _ w Hp) as (w' & Hrun & Hh & _ & Ho & Hf & Hl).
  rewrite Hrun in Hv. injection Hv as <- <-.
  split; [repeat split; congruence|]. split; [reflexivity|].
  exists path. split; [exact Hp|reflexivity].
Qed.

Lemma add_devices_probed (pv : platform_view) (g : bool) (first : nat)
      (tmp : list Z) (rem : nat) :
  forall (i it : nat) (l : list OpenCL_device) (flag : bool) (w : world)
         (l' : list OpenCL_device) (flag' : bool) (w' : world),
    add_devices api pv g first tmp rem i it l flag w = Done (l', flag') w' ->
    os_same (os w) (os w')
    /\ forall k, (k < rem)%nat ->
         exists d0 d', l !! (it + k)%nat = Some d0
                       /\ l' !! (it + k)%nat = Some d'
                       /\ file_locked d' = file_locked d0
                       /\ probed (os w) pv d'.
Proof.
  induction rem as [|rem IH]; intros i it l flag w l' flag' w' H.
  - simpl in H. unfold ret in H. injection H as <- <- <-.
    split; [apply os_same_refl|intros; lia].
  - pose proof (add_devices_inv api _ _ _ _ _ _ _ _ _ _ _ _ _ H)
      as (_ & _ & Hout & _ & _).
    simpl in H. destruct (l !! it) as [d0|] eqn:Hd0; [|discriminate].
    inv_bind H as d1 w1 Hstep.
    apply Set_Information_probed in Hstep as (Hos & Hfl & path & Hp & Hu).
    rewrite get_lock_filename_buffer in Hp.
    pose proof (add_devices_inv api _ _ _ _ _ _ _ _ _ _ _ _ _ H)
      as (_ & _ & Hout1 & _ & _).
    apply IH in H as (Hos' & Hin).
    assert (Hit : (it < length l)%nat) by (eapply lookup_lt_Some; eauto).
    split; [eapply os_same_trans; eauto|].
    intros k Hk. destruct k as [|k].
    + exists d0, d1. rewrite Nat.add_0_r. split; [exact Hd0|].
      split; [rewrite Hout1 by lia; now apply list_lookup_insert_eq|].
      split; [exact Hfl|]. exists path. now split.
    + destruct (Hin k ltac:(lia)) as (e0 & e' & He0 & He' & Hfl' & path' & Hp' & Hu').
      exists e0, e'. replace (it + S k)%nat with (S it + k)%nat by lia.
      split; [rewrite <- He0; symmetry; apply list_lookup_insert_ne; lia|].
      split; [exact He'|]. split; [exact Hfl'|].
      exists path'. split; [exact Hp'|].
      rewrite Hu'. f_equal. symmetry. now apply acquirable_os_same.
Qed.

Lemma add_kind_probed (pv : platform_view) (type : Z) (g : bool)
      (first nb it : nat) (l : list OpenCL_device) (flag : bool) (w : world)
      (l' : list OpenCL_device) (flag' : bool) (w' : world) :
  add_kind api pv type g first nb it l flag w = Done (l', flag') w' ->
  os_same (os w) (os w')
  /\ forall k, (k < nb)%nat ->
       exists d0 d', l !! (it + k)%nat = Some d0
                     /\ l' !! (it + k)%nat = Some d'
                     /\ file_locked d' = file_locked d0
                     /\ probed (os w) pv d'.
Proof.
  unfold add_kind. destruct (Nat.leb_spec 1 nb) as [Hnb|Hnb].
  - destruct (clGetDeviceIDs_list api (pv_id pv) type nb) as [err tmp].
    intros H. inv_bind H as u1 w1 Hstep.
    apply Test_Success_inv in Hstep as [_ ->].
    now apply add_devices_probed in H.
  - unfold ret. intros H. injection H as <- <- <-.
    split; [apply os_same_refl|intros; lia].
Qed.

Lemma destroy_all_unlocked (l : list OpenCL_device) (w : world) :
  all_unlocked l -> destroy_all l w = Done tt w.
Proof.
  induction 1 as [|d l Hd _ IH]; [reflexivity|].
  cbn [destroy_all]. unfold destroy, Unlock. rewrite Hd.
  unfold bind, ret. exact IH.
Qed.

Lemma resize_unlocked (n : nat) (l l' : list OpenCL_device) (w w' : world) :
  all_unlocked l -> resize n l w = Done l' w' ->
  w' = w /\ all_unlocked l' /\ length l' = n.
Proof.
  intros Hl H. pose proof (resize_inv _ _ _ _ _ H) as (Hlen & _).
  unfold resize in H. destruct (Nat.leb_spec n (length l)).
  - rewrite (bind_Done _ _ _ _ _ (destroy_all_unlocked _ w (Forall_drop _ _ _ Hl))) in H.
    unfold ret in H. injection H as <- <-.
    split; [reflexivity|]. split; [now apply Forall_take|exact Hlen].
  - unfold ret in H. injection H as <- <-.
    split; [reflexivity|]. split; [|exact Hlen].
    apply Forall_app. split; [exact Hl|]. now apply Forall_replicate.
Qed.

(** Every enumerated device carries the verdict of its own probe, and the
    probes leave the locks of the machine as they were. *)
Lemma enumerate_probed (r : OpenCL_devices_list) (pv : platform_view)
      (w w1 : world) (e : enumeration) :
  all_unlocked (device_list r) ->
  enumerate api r pv w = Done e w1 ->
  os_same (os w) (os w1)
  /\ Forall (fun d => file_locked d = false /\ probed (os w) pv d) (e_devices e).
Proof.
  intros Hun H. unfold enumerate in H.
  inv_bind H as nb_gpu wa Hstep.
  apply count_devices_inv in Hstep as [_ ->].
  inv_bind H as nb_cpu wb Hstep.
  apply count_devices_inv in Hstep as [_ ->].
  destruct (Nat.leb_spec 1 (nb_devices nb_cpu nb_gpu)) as [Hnb|Hnb];
    [|discriminate]. cbn [negb] in H.
  inv_bind H as l0 wc Hstep.
  apply (resize_unlocked _ _ _ _ _ Hun) in Hstep as (-> & Hun0 & Hlen0).
  inv_bind H as cpus wd Hcpu. destruct cpus as [l1 f1].
  pose proof (add_kind_inv api _ _ _ _ _ _ _ _ _ _ _ _ Hcpu)
    as (Hlen1 & _ & Hout1 & _ & _).
  apply add_kind_probed in Hcpu as (Hos1 & Hin1).
  inv_bind H as gpus we Hgpu. destruct gpus as [l2 f2]. cbn [fst snd] in *.
  pose proof (add_kind_inv api _ _ _ _ _ _ _ _ _ _ _ _ Hgpu)
    as (Hlen2 & _ & Hout2 & _ & _).
  apply add_kind_probed in Hgpu as (Hos2 & Hin2).
  unfold ret in H. injection H as <- <-. cbn [e_devices].
  unfold nb_devices in *.
  split; [eapply os_same_trans; eauto|].
  unfold all_unlocked in Hun0. rewrite Forall_lookup in Hun0 |- *.
  intros j d Hd.
  assert (Hj : (j < nb_cpu + nb_gpu)%nat).
  { apply lookup_lt_Some in Hd. lia. }
  destruct (Nat.lt_ge_cases j nb_cpu) as [Hc|Hc].
  - destruct (Hin1 j Hc) as (d0 & d' & Hd0 & Hd' & Hfl & Hpr).
    simpl in Hd0, Hd'. rewrite Hout2 in Hd by lia.
    assert (d = d') as -> by congruence.
    split; [rewrite Hfl; eapply Hun0; eauto|exact Hpr].
  - destruct (Hin2 (j - nb_cpu)%nat ltac:(lia)) as (d0 & d' & Hd0 & Hd' & Hfl & Hpr).
    replace (nb_cpu + (j - nb_cpu))%nat with j in * by lia.
    assert (d = d') as -> by congruence.
    split.
    + rewrite Hfl. rewrite Hout1 in Hd0 by lia. eapply Hun0; eauto.
    + destruct Hpr as (path & Hp & Hu). exists path. split; [exact Hp|].
      rewrite Hu. f_equal. symmetry. now apply acquirable_os_same.
Qed.

(** The loop returns a position only for a device that accepted a
    context, after all the devices before it refused. *)
Lemma context_loop_pref (rem : nat) :
  forall (it : nat) (l : list OpenCL_device) (w : world)
         (l' : list OpenCL_device) (k : nat) (w' : world),
    context_loop api rem it l w = Done (l', Some k) w' ->
    os w' = os w
    /\ (it <= k)%nat
    /\ exists d, l !! k = Some d
                 /\ l' !! k = Some (with_context api d)
                 /\ context_error api d = CL_SUCCESS
                 /\ forall j d', (it <= j < k)%nat -> l !! j = Some d' ->
                                 context_error api d' <> CL_SUCCESS.
Proof.
  induction rem as [|rem IH]; intros it l w l' k w' H; cbn [context_loop] in H.
  - discriminate.
  - destruct (l !! it) as [d0|] eqn:Hd0; [|discriminate].
    rewrite (bind_Done _ _ _ _ _ (Set_Context_eq api d0 w)) in H.
    cbn [fst snd] in H.
    destruct (Z.eqb_spec (context_error api d0) CL_SUCCESS) as [Hok|Hno].
    + unfold ret in H. injection H as <- <- <-.
      split; [reflexivity|]. split; [lia|]. exists d0.
      split; [exact Hd0|].
      split; [apply list_lookup_insert_eq; eapply lookup_lt_Some; eauto|].
      split; [exact Hok|]. intros; lia.
    + apply IH in H as (Hos & Hle & d & Hd & Hd' & Hok & Hfail).
      split; [exact Hos|]. split; [lia|]. exists d.
      rewrite list_lookup_insert_ne in Hd by lia.
      split; [exact Hd|]. split; [exact Hd'|]. split; [exact Hok|].
      intros j d' Hj Hdj. destruct (Nat.eq_dec j it) as [->|Hne].
      * congruence.
      * apply (Hfail j); [lia|]. now rewrite list_lookup_insert_ne by lia.
Qed.

Lemma devices_Initialize_probed (r r' : OpenCL_devices_list)
      (pv : platform_view) (w w' : world) :
  all_unlocked (device_list r) ->
  DeviceRegistry.Initialize api r pv w = Done r' w' ->
  os_same (os w) (os w')
  /\ Forall (fun d => file_locked d = false /\ probed (os w) pv d
                      /\ parent_platform d = Some pv) (device_list r')
  /\ exists e w1 k d,
       enumerate api r pv w = Done e w1
       /\ preferred_device r' = Some k
       /\ sorted_devices pv e !! k = Some d
       /\ device_list r' !! k = Some (with_context api d)
       /\ context_error api d = CL_SUCCESS
       /\ forall j d', (j < k)%nat -> sorted_devices pv e !! j = Some d' ->
                       context_error api d' <> CL_SUCCESS.
Proof.
  intros Hun H. unfold DeviceRegistry.Initialize in H.
  inv_bind H as e w1 Henum.
  destruct (enumerate_probed _ _ _ _ _ Hun Henum) as (Hos & Hprobed).
  destruct (e_all_in_use e); [discriminate|].
  inv_bind H as c w2 Hloop. destruct c as [l' p]. cbn [fst snd] in H.
  destruct p as [k|]; [|discriminate].
  unfold ret in H. injection H as <- <-. cbn [device_list preferred_device].
  pose proof (context_loop_inv api _ _ _ _ _ _ _ Hloop) as (HF & _ & _).
  apply context_loop_pref in Hloop as (Hos2 & _ & d & Hd & Hd' & Hok & Hfail).
  split; [now rewrite Hos2|]. split.
  - assert (Hsorted : Forall (fun d => file_locked d = false /\ probed (os w) pv d
                                       /\ parent_platform d = Some pv)
                        (sort lt (map (set_parent_platform (Some pv)) (e_devices e)))).
    { rewrite sort_perm. apply Forall_fmap.
      eapply Forall_impl; [exact Hprobed|]. intros x [Hx1 Hx2]. cbn.
      split; [exact Hx1|]. split; [exact Hx2|reflexivity]. }
    rewrite Forall_lookup in Hsorted |- *. intros j x' Hx'.
    destruct (Forall2_lookup_r _ _ _ _ _ HF Hx') as (x & Hx & [->| ->]).
    + eapply Hsorted; eauto.
    + specialize (Hsorted j x Hx). exact Hsorted.
  - exists e, w1, k, d. split; [exact Henum|]. split; [reflexivity|].
    split; [exact Hd|]. split; [exact Hd'|]. split; [exact Hok|].
    intros j d' Hj. apply Hfail. lia.
Qed.

Lemma devices_Initialize_pref (r r' : OpenCL_devices_list)
      (pv : platform_view) (w w' : world) :
  DeviceRegistry.Initialize api r pv w = Done r' w' ->
  exists e w1 k d,
    enumerate api r pv w = Done e w1
    /\ preferred_device r' = Some k
    /\ sorted_devices pv e !! k = Some d
    /\ device_list r' !! k = Some (with_context api d)
    /\ context_error api d = CL_SUCCESS
    /\ forall j d', (j < k)%nat -> sorted_devices pv e !! j = Some d' ->
                    context_error api d' <> CL_SUCCESS.
Proof.
  intros H. unfold DeviceRegistry.Initialize in H.
  inv_bind H as e w1 Henum.
  destruct (e_all_in_use e); [discriminate|].
  inv_bind H as c w2 Hloop. destruct c as [l' p]. cbn [fst snd] in H.
  destruct p as [k|]; [|discriminate].
  unfold ret in H. injection H as <- <-. cbn [device_list preferred_device].
  apply context_loop_pref in Hloop as (_ & _ & d & Hd & Hd' & Hok & Hfail).
  exists e, w1, k, d. split; [exact Henum|]. split; [reflexivity|].
  split; [exact Hd|]. split; [exact Hd'|]. split; [exact Hok|].
  intros j d' Hj. apply Hfail. lia.
Qed.

(** X8.  When [OpenCL_devices_list::Initialize] returns, [Prefered_OpenCL]
    returns without aborting.  The device it returns is one on which
    [clCreateContext] succeeded, it holds the context that call returned,
    and every device before it in the sorted list refused a context. *)
Theorem Prefered_OpenCL_after_Initialize
        (r r' : OpenCL_devices_list) (pv : platform_view) (w w' : world) :
  DeviceRegistry.Initialize api r pv w = Done r' w' ->
  exists e w1 k d,
    enumerate api r pv w = Done e w1
    /\ sorted_devices pv e !! k = Some d
    /\ (forall w2, Prefered_OpenCL r' w2 = Done (with_context api d) w2)
    /\ snd (clCreateContext api (d_device d)) = CL_SUCCESS
    /\ d_context (with_context api d) = fst (clCreateContext api (d_device d))
    /\ forall j d', (j < k)%nat -> sorted_devices pv e !! j = Some d' ->
                    snd (clCreateContext api (d_device d')) <> CL_SUCCESS.
Proof.
  intros H.
  destruct (devices_Initialize_pref _ _ _ _ _ H)
    as (e & w1 & k & d & Henum & Hk & Hd & Hd' & Hok & Hfail).
  exists e, w1, k, d. split; [exact Henum|]. split; [exact Hd|].
  split; [|split; [exact Hok|split; [reflexivity|exact Hfail]]].
  intros w2. unfold Prefered_OpenCL. now rewrite Hk, Hd'.
Qed.

Lemma platform_Initialize_devices (p p' : OpenCL_platform) (key : string)
      (off id : Z) (w w' : world) :
  Platform.Initialize api p key off id w = Done p' w' ->
  exists name,
    DeviceRegistry.Initialize api (devices_list p)
      {| pv_id := id; pv_id_offset := off; pv_name := name |}
      (log (EvPlatformInitialize key off id) w)
    = Done (devices_list p') w'.
Proof.
  unfold Platform.Initialize. intros H.
  inv_bind H as u0 w0 Hemit. unfold emit in Hemit. injection Hemit as _ <-.
  inv_bind H as profile w1 Hq. apply query_inv in Hq as ->.
  inv_bind H as version w1 Hq. apply query_inv in Hq as ->.
  inv_bind H as name w1 Hq. apply query_inv in Hq as ->.
  inv_bind H as vendor w1 Hq. apply query_inv in Hq as ->.
  inv_bind H as extensions w1 Hq. apply query_inv in Hq as ->.
  inv_bind H as dl w1 Hdl. unfold ret in H. injection H as <- <-.
  exists name. exact Hdl.
Qed.

(** X9.  Right after [OpenCL_platform::Initialize], with nothing else
    touching the locks in between, [Lock_Best_Device] succeeds exactly when
    the probe found the preferred device free: it then holds the lock of
    that device.  When the probe found the preferred device in use (every
    free device having refused a context), [Lock_Best_Device] aborts. *)
Theorem Lock_Best_Device_after_Initialize
        (p p' : OpenCL_platform) (key : string) (off id : Z) (w w' : world) :
  reachable api p ->
  all_unlocked (device_list (devices_list p)) ->
  Platform.Initialize api p key off id w = Done p' w' ->
  exists k d,
    preferred_device (devices_list p') = Some k
    /\ device_list (devices_list p') !! k = Some d
    /\ (device_is_in_use d = false ->
        exists d' w'',
          Lock_Best_Device p' w' = Done (store_preferred d' p') w''
          /\ file_locked d' = true
          /\ device_list (devices_list (store_preferred d' p')) !! k = Some d'
          /\ exists path, lock_path d = Some path
                          /\ In (lock_file d', path) (held (os w'')))
    /\ (device_is_in_use d = true ->
        exists w'',
          Lock_Best_Device p' w'
          = Aborted "An error occurred locking the file!" w'').
Proof.
  intros Hreach Hun H.
  pose proof (reachable_all_lockable api p'
                (reach_Initialize api _ _ _ _ _ _ _ Hreach H)) as Hlk.
  apply platform_Initialize_devices in H as (name & H).
  destruct (devices_Initialize_probed _ _ _ _ _ Hun H)
    as (Hos & Hall & e & w1 & k & d0 & _ & Hk & _ & Hd & _).
  set (d := with_context api d0) in *.
  rewrite Forall_lookup in Hall.
  destruct (Hall k d Hd) as (_ & (path & Hp & Hu) & Hparent).
  assert (Hpath : lock_path d = Some path).
  { unfold lock_path. rewrite Hparent. exact Hp. }
  assert (Hacq : acquirable (os w') path = negb (device_is_in_use d)).
  { rewrite Hu, negb_involutive. symmetry.
    now apply acquirable_os_same. }
  assert (Hlockable : Is_Lockable d = true).
  { unfold all_lockable in Hlk. rewrite Forall_lookup in Hlk. now apply (Hlk k d). }
  assert (Hbest : Lock_Best_Device p' w'
                  = (d' <- Lock d ;; ret (store_preferred d' p')) w').
  { unfold Lock_Best_Device, Prefered_OpenCL. rewrite Hk, Hd.
    unfold bind at 1. unfold ret at 1. now rewrite Hlockable. }
  pose proof (Lock_result d path w' Hpath) as HL.
  exists k, d. split; [exact Hk|]. split; [exact Hd|]. split.
  - intros Hfree. rewrite Hacq, Hfree in HL. cbn [negb] in HL.
    eexists _, _. rewrite Hbest, (bind_Done _ _ _ _ _ HL).
    split; [reflexivity|]. split; [reflexivity|]. split.
    + unfold store_preferred. rewrite Hk.
      cbn [devices_list device_list set_devices_list set_device_list].
      apply list_lookup_insert_eq. eapply lookup_lt_Some; eauto.
    + exists path. split; [exact Hpath|]. cbn. now left.
  - intros Hbusy. rewrite Hacq, Hbusy in HL. cbn [negb] in HL.
    destruct HL as (w'' & HL). exists w''. rewrite Hbest.
    unfold bind. now rewrite HL.
Qed.

(** X10.  Discovery keeps no lock.  When
    [OpenCL_platforms_list::Initialize] returns on a registry none of whose
    devices holds its lock, the locks held by this process and by others
    are what they were before, and no device of any platform in the
    registry holds a lock: all that the probes leave behind are the lock
    files. *)
Theorem Initialize_keeps_no_lock
        (pl pl' : OpenCL_platforms_list) (hint : string) (w w' : world) :
  (forall key p, platforms pl !! key = Some p ->
                 all_unlocked (device_list (devices_list p))) ->
  PlatformRegistry.Initialize api pl hint w = Done pl' w' ->
  held (os w') = held (os w)
  /\ foreign_lock (os w') = foreign_lock (os w)
  /\ (forall path, is_locked (os w') path = is_locked (os w) path)
  /\ forall key p, platforms pl' !! key = Some p ->
                   all_unlocked (device_list (devices_list p)).
Proof.
  intros Hold H.
  apply registry_Initialize_inv in H as (_ & _ & _ & Hloop & _).
  assert (Hinit : forall p key off id w0 p' w0',
            p = OpenCL_platform_ctor
            \/ all_unlocked (device_list (devices_list p)) ->
            Platform.Initialize api p key off id w0 = Done p' w0' ->
            all_unlocked (device_list (devices_list p'))
            /\ os_same (os w0) (os w0')).
  { intros p key off id w0 p' w0' Hp Hrun.
    assert (Hun : all_unlocked (device_list (devices_list p))).
    { destruct Hp as [-> | Hp]; [constructor|exact Hp]. }
    apply platform_Initialize_devices in Hrun as (name & Hrun).
    destruct (devices_Initialize_probed _ _ _ _ _ Hun Hrun) as (Hos & HF & _).
    split; [|exact Hos].
    eapply Forall_impl; [exact HF|]. now intros d (Hd & _). }
  destruct (platform_loop_invariant api
              (fun p => all_unlocked (device_list (devices_list p)))
              (fun a b => os_same (os a) (os b))
              (fun a => os_same_refl (os a))
              (fun a b c => os_same_trans (os a) (os b) (os c))
              Hinit _ _ _ _ _ _ _ _ Hold Hloop) as [Hall (_ & _ & Hf & Hh)].
  split; [now symmetry|]. split; [now symmetry|]. split; [|exact Hall].
  intros path. unfold is_locked, locked_here. now rewrite Hf, Hh.
Qed.

Lemma Lock_again_aborts (d d1 : OpenCL_device) (w w1 : world) :
  Lock d w = Done d1 w1 ->
  exists w2, Lock d1 w1 = Aborted "An error occurred locking the file!" w2.
Proof.
  intros HL. destruct (Lock_inv _ _ _ _ HL) as (path & Hp & Ha).
  pose proof (Lock_result d path w Hp) as H. rewrite Ha in H.
  rewrite H in HL. injection HL as <- <-.
  pose proof (Lock_result (set_lock true (fresh_fd (os w)) d) path
                (set_os (set_held ((fresh_fd (os w), path) :: held (os w))
                           (set_created (path :: created (os w)) (os w))) w)
                Hp) as H2.
  rewrite locked_not_acquirable in H2; [exact H2|].
  unfold is_locked, locked_here. cbn. rewrite String.eqb_refl.
  apply orb_true_r.
Qed.

(** X11.  A reservation cannot be taken twice: after a
    [Lock_Best_Device] that returned, a second [Lock_Best_Device] on the
    same platform aborts, because the lock file is locked by the first
    descriptor. *)
Theorem Lock_Best_Device_twice_aborts
        (p p' : OpenCL_platform) (w w' : world) :
  reachable api p ->
  Lock_Best_Device p w = Done p' w' ->
  exists w'',
    Lock_Best_Device p' w' = Aborted "An error occurred locking the file!" w''.
Proof.
  intros Hreach H.
  pose proof (reachable_all_lockable api p Hreach) as Hlk.
  unfold Lock_Best_Device, Prefered_OpenCL in H.
  destruct (preferred_device (devices_list p)) as [k|] eqn:Hk; [|discriminate].
  destruct (device_list (devices_list p) !! k) as [d|] eqn:Hd; [|discriminate].
  inv_bind H as d0 w0 Hret. unfold ret in Hret. injection Hret as <- <-.
  assert (Hlockable : Is_Lockable d = true).
  { unfold all_lockable in Hlk. rewrite Forall_lookup in Hlk. now apply (Hlk k d). }
  rewrite Hlockable in H.
  inv_bind H as d1 w1 HL. unfold ret in H. injection H as <- <-.
  destruct (Lock_again_aborts _ _ _ _ HL) as (w2 & HL2).
  exists w2. unfold Lock_Best_Device, Prefered_OpenCL, store_preferred.
  rewrite Hk. cbn [devices_list preferred_device device_list
                   set_devices_list set_device_list].
  rewrite Hk, list_lookup_insert_eq by (eapply lookup_lt_Some; eauto).
  unfold bind at 1. unfold ret at 1.
  assert (Hl1 : Is_Lockable d1 = true).
  { unfold Is_Lockable. rewrite (Lock_lockable _ _ _ _ HL). exact Hlockable. }
  rewrite Hl1. unfold bind. now rewrite HL2.
Qed.

(** X12.  A platform that reports no device at all, the two counts being
    zero whether the queries succeed or answer [CL_DEVICE_NOT_FOUND], makes
    [OpenCL_devices_list::Initialize] abort on its assertion before any
    lock file is probed: the machine is left as it was. *)
Theorem Initialize_without_devices
        (r : OpenCL_devices_list) (pv : platform_view) (w : world) :
  (forall type,
      type = CL_DEVICE_TYPE_GPU \/ type = CL_DEVICE_TYPE_CPU ->
      snd (clGetDeviceIDs_count api (pv_id pv) type) = 0%nat
      /\ (fst (clGetDeviceIDs_count api (pv_id pv) type) = CL_SUCCESS
          \/ fst (clGetDeviceIDs_count api (pv_id pv) type) = CL_DEVICE_NOT_FOUND)) ->
  DeviceRegistry.Initialize api r pv w
  = Aborted "Assertion failed: !(nb_devices() >= 1)" w.
Proof.
  intros Hnone.
  assert (Hcount : forall type,
            type = CL_DEVICE_TYPE_GPU \/ type = CL_DEVICE_TYPE_CPU ->
            count_devices api (pv_id pv) type w = Done 0%nat w).
  { intros type Ht. destruct (Hnone type Ht) as [Hz He].
    unfold count_devices.
    destruct (clGetDeviceIDs_count api (pv_id pv) type) as [err nb].
    cbn [fst snd] in *. subst nb.
    destruct He as [-> | ->]; reflexivity. }
  unfold DeviceRegistry.Initialize, enumerate.
  unfold bind at 1. unfold bind at 1.
  rewrite (Hcount _ (or_introl eq_refl)).
  unfold bind at 1.
  rewrite (Hcount _ (or_intror eq_refl)). reflexivity.
Qed.

End WithApi.

Lemma Prefered_OpenCL_after_Initialize_witness :
  exists r' w' d,
    DeviceRegistry.Initialize Scenario.api_example OpenCL_devices_list_ctor
      Scenario.a_platform Scenario.w_gpu1_taken = Done r' w'
    /\ Prefered_OpenCL r' w' = Done d w'
    /\ snd (clCreateContext Scenario.api_example (d_device d)) = CL_SUCCESS.
Proof.
  destruct (DeviceRegistry.Initialize Scenario.api_example
              OpenCL_devices_list_ctor Scenario.a_platform Scenario.w_gpu1_taken)
    as [r' w'| |] eqn:H.
  - destruct (Prefered_OpenCL_after_Initialize _ _ _ _ _ _ H)
      as (e & w1 & k & d & _ & _ & Hpref & Hok & _).
    exists r', w', (with_context Scenario.api_example d).
    split; [reflexivity|]. split; [apply Hpref|exact Hok].
  - exfalso. vm_compute in H. discriminate.
  - exfalso. vm_compute in H. discriminate.
Defined.

Lemma Lock_Best_Device_after_Initialize_witness :
  exists p' w' p'' w'',
    Platform.Initialize Scenario.api_example OpenCL_platform_ctor "nvidia" 0 77
      Scenario.w_gpu1_taken = Done p' w'
    /\ Lock_Best_Device p' w' = Done p'' w''.
Proof.
  destruct (Platform.Initialize Scenario.api_example OpenCL_platform_ctor
              "nvidia" 0 77 Scenario.w_gpu1_taken) as [p' w'| |] eqn:H.
  - destruct (Lock_Best_Device_after_Initialize Scenario.api_example
                OpenCL_platform_ctor p' "nvidia" 0 77 Scenario.w_gpu1_taken w'
                (reach_ctor _) (Forall_nil_2 _) H)
      as (k & d & Hk & Hd & Hfree & _).
    vm_compute in H. injection H as <- <-.
    vm_compute in Hk. injection Hk as <-.
    vm_compute in Hd. injection Hd as <-.
    destruct (Hfree eq_refl) as (d' & w'' & Hrun & _).
    eexists _, _, _, _. split; [reflexivity|exact Hrun].
  - exfalso. vm_compute in H. discriminate.
  - exfalso. vm_compute in H. discriminate.
Defined.

Lemma Initialize_keeps_no_lock_witness :
  exists pl' w',
    PlatformRegistry.Initialize Scenario.api_example OpenCL_platforms_list_ctor
      "-1" Scenario.w_gpu1_taken = Done pl' w'
    /\ held (os w') = [].
Proof.
  destruct (PlatformRegistry.Initialize Scenario.api_example
              OpenCL_platforms_list_ctor "-1" Scenario.w_gpu1_taken)
    as [pl' w'| |] eqn:H.
  - exists pl', w'. split; [reflexivity|].
    refine (proj1 (Initialize_keeps_no_lock Scenario.api_example
                     OpenCL_platforms_list_ctor pl' "-1" Scenario.w_gpu1_taken w'
                     _ H)).
    intros key p Hp. cbn [platforms OpenCL_platforms_list_ctor] in Hp.
    now rewrite lookup_empty in Hp.
  - exfalso. vm_compute in H. discriminate.
  - exfalso. vm_compute in H. discriminate.
Defined.

Lemma Lock_Best_Device_twice_aborts_witness :
  exists p p' w' w'',
    Lock_Best_Device p Scenario.w_free = Done p' w'
    /\ Lock_Best_Device p' w'
       = Aborted "An error occurred locking the file!" w''.
Proof.
  destruct (Platform.Initialize Scenario.api_example OpenCL_platform_ctor
              "nvidia" 0 77 Scenario.w_gpu1_taken) as [p w1| |] eqn:Hinit.
  - pose proof (reach_Initialize Scenario.api_example _ _ _ _ _ _ _
                  (reach_ctor _) Hinit) as Hreach.
    destruct (Lock_Best_Device p Scenario.w_free) as [p' w'| |] eqn:HL.
    + destruct (Lock_Best_Device_twice_aborts Scenario.api_example p p'
                  Scenario.w_free w' Hreach HL) as (w'' & Hrun).
      exists p, p', w', w''. split; [exact HL|exact Hrun].
    + exfalso. vm_compute in Hinit. injection Hinit as <- _.
      vm_compute in HL. discriminate.
    + exfalso. vm_compute in Hinit. injection Hinit as <- _.
      vm_compute in HL. discriminate.
  - exfalso. vm_compute in Hinit. discriminate.
  - exfalso. vm_compute in Hinit. discriminate.
Defined.

Lemma Initialize_without_devices_witness :
  DeviceRegistry.Initialize
    {| clGetPlatformIDs_count := (0, 1%nat);
       clGetPlatformIDs_list := fun _ => (0, [77]);
       clGetPlatformInfo := fun _ _ => (0, "Intel"%string);
       clGetDeviceIDs_count := fun _ _ => (CL_DEVICE_NOT_FOUND, 0%nat);
       clGetDeviceIDs_list := fun _ _ _ => (0, []);
       clGetDeviceInfo := fun _ => Scenario.info_of "CPU" 4 CL_DEVICE_TYPE_CPU;
       clCreateContext := fun d => (d, 0) |}
    OpenCL_devices_list_ctor Scenario.a_platform Scenario.w_free
  = Aborted "Assertion failed: !(nb_devices() >= 1)" Scenario.w_free.
Proof.
  apply Initialize_without_devices.
  intros type _. split; [reflexivity|right; reflexivity].
Defined.

End ProbeFacts.

(** ** Lock-file names of different devices *)

Module LockNameMore.
Import Sys CString LockName LockFiles Device Spec SpecMore SysFacts
       LockNameFacts LockFacts ReservationFacts ProbeFacts.

Lemma uint_digits (d : Decimal.uint) :
  all_digits (list_ascii_of_string (NilEmpty.string_of_uint d)).
Proof.
  unfold all_digits.
  induction d; simpl; intros c H;
    [contradiction | destruct H as [<-|H]; [reflexivity|auto] ..].
Qed.

Lemma fmt_d_digits (z : Z) : 0 <= z -> all_digits (fmt_d z).
Proof.
  intros Hz. unfold fmt_d.
  assert (Hpos : exists u, Z.to_int z = Decimal.Pos u).
  { destruct z; simpl; eauto. lia. }
  destruct Hpos as [u ->]. cbn [NilZero.string_of_int].
  unfold NilZero.string_of_uint. destruct u; try apply uint_digits.
  intros c [<-|[]]. reflexivity.
Qed.

Lemma to_int_not_nil (z : Z) :
  Z.to_int z <> Decimal.Pos Decimal.Nil /\ Z.to_int z <> Decimal.Neg Decimal.Nil.
Proof.
  split; intros H; pose proof (DecimalZ.of_to z) as Hz; rewrite H in Hz;
    cbn in Hz; subst z; vm_compute in H; discriminate H.
Qed.

(** [%d] prints different numbers differently. *)
Lemma fmt_d_inj (z1 z2 : Z) : fmt_d z1 = fmt_d z2 -> z1 = z2.
Proof.
  unfold fmt_d. intros H.
  apply (f_equal string_of_list_ascii) in H.
  rewrite !string_of_list_ascii_of_string in H.
  apply (f_equal NilZero.int_of_string) in H.
  destruct (to_int_not_nil z1), (to_int_not_nil z2).
  rewrite !NilZero.isi in H by assumption.
  injection H as H. now apply DecimalZ.to_int_inj.
Qed.

(** A run of digits followed by something that is not a digit can be read
    back in one way only. *)
Lemma digits_split (d1 d2 r1 r2 : list ascii) (c1 c2 : ascii) :
  all_digits d1 -> all_digits d2 ->
  isdigit c1 = false -> isdigit c2 = false ->
  d1 ++ c1 :: r1 = d2 ++ c2 :: r2 ->
  d1 = d2 /\ c1 :: r1 = c2 :: r2.
Proof.
  revert d2. induction d1 as [|x d1 IH]; intros d2 H1 H2 Hc1 Hc2 H.
  - destruct d2 as [|y d2]; [now split|].
    cbn in H. injection H as -> _.
    rewrite (H2 y) in Hc1 by now left. discriminate.
  - destruct d2 as [|y d2].
    + cbn in H. injection H as -> _.
      rewrite (H1 c2) in Hc2 by now left. discriminate.
    + cbn in H. injection H as -> H.
      destruct (IH d2) as [-> Hr]; auto.
      * intros c Hc. apply H1. now right.
      * intros c Hc. apply H2. now right.
Qed.

Lemma sanitize_digits (l : list ascii) :
  all_digits l -> map sanitize_char l = l.
Proof.
  induction l as [|c l IH]; intros H; [reflexivity|]. cbn [map].
  rewrite IH by (intros x Hx; apply H; now right).
  unfold sanitize_char. rewrite (H c) by now left.
  now rewrite orb_true_r.
Qed.

Lemma format_lock_chars (id off : Z) (pn dn : string) :
  format (list_ascii_of_string string_base)
    [ArgInt off; ArgInt id; ArgStr pn; ArgStr dn]
  = Some (lock_chars id off pn dn).
Proof. reflexivity. Qed.

Lemma lock_chars_no_NUL (id off : Z) (pn dn : string) :
  ~ In NUL (lock_chars id off pn dn).
Proof.
  unfold lock_chars. cbn [list_ascii_of_string].
  pose proof (fmt_d_no_NUL off). pose proof (fmt_d_no_NUL id).
  pose proof (c_str_no_NUL_in pn). pose proof (c_str_no_NUL_in dn).
  repeat (rewrite in_app_iff || cbn [In app]).
  unfold NUL, Ascii.zero in *. intuition discriminate.
Qed.

Lemma get_lock_filename_chars (id off : Z) (pn dn path : string) :
  get_lock_filename id off pn dn = Some path ->
  path = ("/tmp/gpu"
          +:+ string_of_list_ascii (map sanitize_char (lock_chars id off pn dn))
          +:+ ".lck")%string.
Proof.
  unfold get_lock_filename, sprintf. rewrite format_lock_chars.
  destruct (length (lock_chars id off pn dn) <? 4096)%nat; [|discriminate].
  intros H.
  rewrite (strlen_no_NUL (lock_chars id off pn dn)
             (lock_chars_no_NUL id off pn dn)) in H.
  rewrite (replace_loop_spec (length (lock_chars id off pn dn)) 0
             (lock_chars id off pn dn) eq_refl) in H.
  rewrite take_0, drop_0 in H. now injection H as <-.
Qed.

Lemma sanitized_lock_chars (id off : Z) (pn dn : string) :
  0 <= id -> 0 <= off ->
  exists rest,
    map sanitize_char (lock_chars id off pn dn)
    = list_ascii_of_string "Platform__"
      ++ (fmt_d off
          ++ "_"%char
             :: (list_ascii_of_string "_Device__"
                 ++ (fmt_d id ++ "_"%char :: rest))).
Proof.
  intros Hid Hoff. unfold lock_chars. rewrite !map_app.
  rewrite (sanitize_digits (fmt_d off)) by now apply fmt_d_digits.
  rewrite (sanitize_digits (fmt_d id)) by now apply fmt_d_digits.
  eexists. reflexivity.
Qed.

(** X14.  Two devices share a lock file only if they have the same id and
    the same platform offset: for ids and offsets that are not negative,
    as the ones discovery hands out, equal lock-file names give equal ids
    and equal offsets, whatever the names of the platforms and devices. *)
Theorem get_lock_filename_separates
        (id1 off1 id2 off2 : Z) (pn1 dn1 pn2 dn2 path : string) :
  0 <= id1 -> 0 <= off1 -> 0 <= id2 -> 0 <= off2 ->
  get_lock_filename id1 off1 pn1 dn1 = Some path ->
  get_lock_filename id2 off2 pn2 dn2 = Some path ->
  id1 = id2 /\ off1 = off2.
Proof.
  intros Hi1 Ho1 Hi2 Ho2 H1 H2.
  apply get_lock_filename_chars in H1, H2. rewrite H1 in H2. clear H1.
  apply (f_equal list_ascii_of_string) in H2.
  rewrite !list_ascii_of_string_app, !list_ascii_of_string_of_list_ascii in H2.
  apply app_inv_head, app_inv_tail in H2.
  destruct (sanitized_lock_chars id1 off1 pn1 dn1 Hi1 Ho1) as [r1 E1].
  destruct (sanitized_lock_chars id2 off2 pn2 dn2 Hi2 Ho2) as [r2 E2].
  rewrite E1, E2 in H2. apply app_inv_head in H2.
  apply digits_split in H2 as [Hoff H2];
    [|now apply fmt_d_digits|now apply fmt_d_digits|reflexivity|reflexivity].
  injection H2 as H2.
  apply digits_split in H2 as [Hid _];
    [|now apply fmt_d_digits|now apply fmt_d_digits|reflexivity|reflexivity].
  split; now apply fmt_d_inj.
Qed.

Lemma get_lock_filename_separates_witness : 3 = 3 /\ 1 = 1.
Proof.
  exact (get_lock_filename_separates 3 1 3 1 "A" "GPU-1" "A" "GPU 1"
           "/tmp/gpuPlatform__1__Device__3__A__GPU_1_.lck"
           ltac:(lia) ltac:(lia) ltac:(lia) ltac:(lia) eq_refl eq_refl).
Defined.

(** X15.  Reservations of different lock files do not interfere: once a
    device has taken its lock, another device whose lock file is a
    different one can take its own lock exactly when it could before. *)
Theorem Lock_leaves_other_devices
        (a a1 b : OpenCL_device) (pa pb : string) (w w1 : world) :
  Lock a w = Done a1 w1 ->
  lock_path a = Some pa -> lock_path b = Some pb -> pa <> pb ->
  acquirable (os w1) pb = acquirable (os w) pb
  /\ ((exists b1 w2, Lock b w1 = Done b1 w2)
      <-> (exists b1 w2, Lock b w = Done b1 w2)).
Proof.
  intros HL Hpa Hpb Hne.
  destruct (Lock_inv _ _ _ _ HL) as (path & Hp & Ha).
  assert (path = pa) as -> by congruence.
  pose proof (Lock_result a pa w Hpa) as H. rewrite Ha in H.
  rewrite H in HL. injection HL as <- <-.
  assert (Hacq : acquirable
                   (os (set_os (set_held ((fresh_fd (os w), pa) :: held (os w))
                                  (set_created (pa :: created (os w)) (os w))) w))
                   pb
                 = acquirable (os w) pb).
  { unfold acquirable, flock, is_locked, locked_here. cbn.
    apply String.eqb_neq in Hne. now rewrite Hne. }
  split; [exact Hacq|].
  pose proof (Lock_result b pb w Hpb) as Hb.
  pose proof (Lock_result b pb
                (set_os (set_held ((fresh_fd (os w), pa) :: held (os w))
                           (set_created (pa :: created (os w)) (os w))) w)
                Hpb) as Hb1.
  rewrite Hacq in Hb1.
  destruct (acquirable (os w) pb).
  - split; intros _; eauto.
  - destruct Hb as (w2 & Hb). destruct Hb1 as (w3 & Hb1).
    split; intros (b1 & w4 & Hrun); congruence.
Qed.

Lemma Lock_leaves_other_devices_witness :
  exists b1 w2,
    Lock Scenario.dev_cpu
      (set_os (set_held [(3, "/tmp/gpuPlatform__0__Device__1__P__GPU0_.lck"%string)]
                 (set_created ["/tmp/gpuPlatform__0__Device__1__P__GPU0_.lck"%string]
                    Scenario.os_free)) Scenario.w_free)
    = Done b1 w2.
Proof.
  refine (proj2 (proj2 (Lock_leaves_other_devices Scenario.dev_gpu0 _
                          Scenario.dev_cpu _ _ Scenario.w_free _
                          eq_refl eq_refl eq_refl _)) _).
  - discriminate.
  - eexists _, _. reflexivity.
Defined.

End LockNameMore.

(** ** Ties in the preference order *)

Module StableFacts.
Import Device ListSort Spec SpecMore SortFacts PreferenceFacts.

Section Stable.
Context {A : Type} (less : A -> A -> bool) (f : A -> bool).

Hypothesis less_asym : forall a b, less a b = true -> less b a = false.
Hypothesis before_transitive : Transitive (before less).
(** The elements selected by [f] are not told apart by [less]. *)
Hypothesis class_less :
  forall b y a, f b = true -> f y = true -> less b a = true -> less y a = true.

Lemma flat_cons (bin : list A) (tmp : list (list A)) :
  flat (bin :: tmp) = flat tmp ++ bin.
Proof.
  unfold flat. cbn [rev]. rewrite concat_app. cbn [concat].
  now rewrite app_nil_r.
Qed.

Lemma filter_none (l : list A) :
  (forall y, In y l -> f y = false) -> List.filter f l = [].
Proof.
  induction l as [|y l IH]; intros H; [reflexivity|]. cbn [List.filter].
  rewrite (H y) by now left. apply IH. intros z Hz. apply H. now right.
Qed.

Lemma filter_cons_app (x : A) (l : list A) :
  List.filter f (x :: l) = List.filter f [x] ++ List.filter f l.
Proof. cbn [List.filter]. now destruct (f x). Qed.

Lemma merge_filter (l1 l2 : list A) :
  Sorted (before less) l1 ->
  List.filter f (merge less l1 l2) = List.filter f l1 ++ List.filter f l2.
Proof.
  revert l2. induction l1 as [|a l1 IH1]; intros l2 H1; [now destruct l2|].
  induction l2 as [|b l2 IH2].
  - cbn [merge List.filter]. now rewrite app_nil_r.
  - cbn [merge]. destruct (less b a) eqn:E.
    + change (List.filter f (b :: merge less (a :: l1) l2)
              = List.filter f (a :: l1) ++ List.filter f (b :: l2)).
      rewrite (filter_cons_app b), (filter_cons_app b l2), IH2.
      destruct (f b) eqn:Fb.
      * assert (Hnone : List.filter f (a :: l1) = []).
        { apply filter_none. intros y Hy.
          destruct (f y) eqn:Fy; [|reflexivity].
          pose proof (class_less b y a Fb Fy E) as Hya.
          destruct Hy as [<-|Hy].
          - pose proof (less_asym _ _ Hya). congruence.
          - apply Sorted_StronglySorted in H1; [|exact before_transitive].
            apply StronglySorted_inv in H1 as [_ Hall].
            rewrite List.Forall_forall in Hall.
            specialize (Hall y Hy). unfold before in Hall. congruence. }
        rewrite Hnone. reflexivity.
      * cbn [List.filter]. rewrite Fb. reflexivity.
    + apply Sorted_inv in H1 as [H1 _].
      rewrite (filter_cons_app a), (filter_cons_app a l1).
      rewrite (IH1 (b :: l2) H1). now rewrite app_assoc.
Qed.

Lemma carry_up_filter (carry : list A) (tmp : list (list A)) :
  Forall (Sorted (before less)) tmp ->
  List.filter f (flat (carry_up less carry tmp))
  = List.filter f (flat tmp) ++ List.filter f carry.
Proof.
  revert carry. induction tmp as [|bin tmp IH]; intros carry Ht.
  - cbn [carry_up]. now rewrite flat_cons, List.filter_app.
  - apply Forall_cons_1 in Ht as [Hb Ht]. cbn [carry_up].
    destruct bin as [|b bin].
    + rewrite !flat_cons, !List.filter_app. cbn [List.filter].
      now rewrite app_nil_r.
    + rewrite !flat_cons, !List.filter_app, IH by exact Ht.
      rewrite merge_filter by exact Hb. cbn [List.filter].
      now rewrite app_nil_r, app_assoc.
Qed.

Lemma merge_bins_filter (acc : list A) (tmp : list (list A)) :
  Forall (Sorted (before less)) tmp ->
  List.filter f (merge_bins less acc tmp)
  = List.filter f (flat tmp) ++ List.filter f acc.
Proof.
  revert acc. induction tmp as [|bin tmp IH]; intros acc Ht.
  - reflexivity.
  - apply Forall_cons_1 in Ht as [Hb Ht]. cbn [merge_bins].
    rewrite IH by exact Ht. rewrite merge_filter by exact Hb.
    now rewrite flat_cons, List.filter_app, app_assoc.
Qed.

Lemma fill_from_filter (l : list A) (tmp : list (list A)) :
  Forall (Sorted (before less)) tmp ->
  List.filter f (flat (fold_left (fun tmp x => carry_up less [x] tmp) l tmp))
  = List.filter f (flat tmp) ++ List.filter f l.
Proof.
  revert tmp. induction l as [|x l IH]; intros tmp Ht; cbn [fold_left].
  - now rewrite app_nil_r.
  - rewrite IH.
    + rewrite carry_up_filter by exact Ht.
      now rewrite (filter_cons_app x l), app_assoc.
    + apply carry_up_sorted; [exact less_asym| |exact Ht].
      repeat constructor.
Qed.

(** The sort keeps the elements of one class in the order they had. *)
Lemma sort_filter (l : list A) :
  List.filter f (sort less l) = List.filter f l.
Proof.
  unfold sort, fill_bins.
  rewrite merge_bins_filter
    by (apply fill_from_sorted; [exact less_asym|constructor]).
  rewrite fill_from_filter by constructor.
  cbn [List.filter]. now rewrite app_nil_r.
Qed.

End Stable.

Lemma same_rank_lt (x b y a : OpenCL_device) :
  same_rank x b = true -> same_rank x y = true ->
  lt b a = true -> lt y a = true.
Proof.
  unfold same_rank, lt. intros Hb Hy.
  apply andb_true_iff in Hb as [Hb1 Hb2]. apply andb_true_iff in Hy as [Hy1 Hy2].
  apply Bool.eqb_prop in Hb1, Hy1. apply Z.eqb_eq in Hb2, Hy2.
  rewrite <- Hb1, <- Hy1, <- Hb2, <- Hy2. trivial.
Qed.

(** X13.  The sort is stable for the preference order: the devices that
    are level with a given device, equal in-use status and equal compute
    units, come out of the sort in the order in which they went in.  Ties
    are therefore broken by discovery order. *)
Theorem sort_keeps_order_of_ties (l : list OpenCL_device) (x : OpenCL_device) :
  List.filter (same_rank x) (sort lt l) = List.filter (same_rank x) l.
Proof.
  apply sort_filter.
  - exact lt_asym.
  - exact before_trans.
  - intros b y a. apply same_rank_lt.
Qed.

End StableFacts.
